(** * Portfolio terminal: command dispatch and text formatting

    A shallow embedding of [src/App.tsx]: the formatter helpers
    ([makeClickableLink], [generateSkillBar], [formatFileList]), the command
    registry ([generateCommands]) and the dispatcher of the [App] component
    ([executeCommand], [handleSubmit]), followed by the properties the
    specification states about them.

    JavaScript strings are sequences of UTF-16 code units, so [length],
    [split], [trim] and [padEnd] count what the program counts. *)

From Stdlib Require Import List ZArith NArith QArith Qround Bool Lia.
From Stdlib Require Import Strings.String Strings.Ascii Numbers.DecimalString.
From Stdlib Require Import Floats.SpecFloat.
Import ListNotations.
Close Scope Q_scope.

Set Implicit Arguments.

(** ** JavaScript strings *)

Module JS.

Definition char := N.
Definition jsstring := list char.

(** Code units of a code point (a surrogate pair above the BMP). *)
Definition units (cp : N) : jsstring :=
  if (cp <? 65536)%N then [cp]
  else [55296 + (cp - 65536) / 1024; 56320 + (cp - 65536) mod 1024]%N.

(** Source literals are written as they stand in the (UTF-8) source file and
    decoded to code units. *)
Fixpoint decode (bs : list N) (need : nat) (acc : N) : jsstring :=
  match bs with
  | [] => []
  | b :: rest =>
      match need with
      | S k =>
          let acc' := (acc * 64 + b mod 64)%N in
          match k with
          | O => units acc' ++ decode rest 0 0%N
          | S _ => decode rest k acc'
          end
      | O =>
          if (b <? 128)%N then b :: decode rest 0 0%N
          else if (b <? 224)%N then decode rest 1 (b mod 32)%N
          else if (b <? 240)%N then decode rest 2 (b mod 16)%N
          else decode rest 3 (b mod 8)%N
      end
  end.

Definition js (s : string) : jsstring :=
  decode (map N_of_ascii (list_ascii_of_string s)) 0 0%N.
Arguments js s%_string.

(** The double quote, which a literal cannot hold. *)
Definition dq : jsstring := [34%N].
Definition space : char := 32%N.

Fixpoint eqb (a b : jsstring) : bool :=
  match a, b with
  | [], [] => true
  | x :: a', y :: b' => (x =? y)%N && eqb a' b'
  | _, _ => false
  end.

Definition isEmpty (s : jsstring) : bool :=
  match s with [] => true | _ :: _ => false end.

(** [WhiteSpace] and [LineTerminator] of ECMAScript, the set [trim] strips. *)
Definition isWhiteSpace (c : char) : bool :=
  ((9 <=? c) && (c <=? 13) || (c =? 32) || (c =? 160) || (c =? 5760)
   || (8192 <=? c) && (c <=? 8202) || (c =? 8232) || (c =? 8233)
   || (c =? 8239) || (c =? 8287) || (c =? 12288) || (c =? 65279))%N.

Fixpoint trimStart (s : jsstring) : jsstring :=
  match s with
  | [] => []
  | c :: rest => if isWhiteSpace c then trimStart rest else s
  end.

Definition trimEnd (s : jsstring) : jsstring := rev (trimStart (rev s)).

Definition trim (s : jsstring) : jsstring := trimEnd (trimStart s).

(** [s.startsWith(p)] *)
Fixpoint startsWith (p s : jsstring) : bool :=
  match p, s with
  | [], _ => true
  | _ :: _, [] => false
  | x :: p', y :: s' => (x =? y)%N && startsWith p' s'
  end.

(** [s.includes(sub)] *)
Fixpoint includes (sub s : jsstring) : bool :=
  startsWith sub s
  || match s with
     | [] => false
     | _ :: rest => includes sub rest
     end.

(** [s.split(sep)] for a non-empty separator: the first piece and the later
    ones; [skip] counts the code units of a matched separator still to pass. *)
Fixpoint split_go (sep s : jsstring) (skip : nat) : jsstring * list jsstring :=
  match s with
  | [] => ([], [])
  | c :: rest =>
      match skip with
      | S k => split_go sep rest k
      | O =>
          if startsWith sep s
          then let (p, ps) := split_go sep rest (List.length sep - 1) in ([], p :: ps)
          else let (p, ps) := split_go sep rest 0 in (c :: p, ps)
      end
  end.

Definition split (sep s : jsstring) : list jsstring :=
  let (p, ps) := split_go sep s 0 in p :: ps.

(** [lines.join(sep)] *)
Fixpoint join (sep : jsstring) (l : list jsstring) : jsstring :=
  match l with
  | [] => []
  | [x] => x
  | x :: rest => x ++ sep ++ join sep rest
  end.

(** [s.replace(a, b)] with string arguments: the first occurrence only. *)
Fixpoint replace_go (a b s : jsstring) : option jsstring :=
  if startsWith a s then Some (b ++ skipn (List.length a) s)
  else match s with
       | [] => None
       | c :: rest => option_map (cons c) (replace_go a b rest)
       end.

Definition replace (a b s : jsstring) : jsstring :=
  match replace_go a b s with Some r => r | None => s end.

(** [s.padEnd(n)] *)
Definition padEnd (n : nat) (s : jsstring) : jsstring :=
  s ++ List.repeat space (n - List.length s).

(** Template interpolation of an integer-valued number. *)
Definition Number_toString (z : Z) : jsstring :=
  js (NilZero.string_of_int (Z.to_int z)).

(** Errors a built-in can throw. *)
Inductive Error := RangeError | TypeError.

Inductive Exc (A : Type) : Type :=
| Return (a : A)
| Throw (e : Error).
Arguments Return {A} a.
Arguments Throw {A} e.

Definition bind {A B} (m : Exc A) (k : A -> Exc B) : Exc B :=
  match m with
  | Return a => k a
  | Throw e => Throw e
  end.

(** [s.repeat(count)]: a negative count is a [RangeError]. *)
Definition repeat (s : jsstring) (count : Z) : Exc jsstring :=
  if (count <? 0)%Z then Throw RangeError
  else Return (List.concat (List.repeat s (Z.to_nat count))).

(** [Math.round]: the nearest integer, ties towards +infinity.  Numbers are
    exact rationals here.  The program rounds the double of
    [level / 100 * 20]; for an integer level the exact value has a
    fractional part that is a multiple of 1/5, and the double rounds to the
    same integer as long as it is nearer to the exact value than 1/10: for
    every level from -1000 to 1000 by lemma [filledBarsOf_double], and not
    for levels of magnitude near 2^52 (lemma [filledBarsOf_double_limit]),
    for which no bar exists either way. *)
Definition Math_round (x : Q) : Z := Qfloor (x + (1 # 2))%Q.

End JS.

Import JS.

Notation "x <- m ;; k" := (bind m (fun x => k))
  (at level 61, m at next level, right associativity).

(** ** Formatter helpers *)

(** [text || url]: an absent ([undefined]) or empty label is falsy and falls
    back to the url. *)
Definition orElse (text : option jsstring) (url : jsstring) : jsstring :=
  match text with
  | Some t => if isEmpty t then url else t
  | None => url
  end.

(** The guard of [makeClickableLink]:
    [!url || url.trim() === '#' || url.trim() === ''] *)
Definition isPlaceholder (url : jsstring) : bool :=
  isEmpty url || eqb (trim url) (js "#") || eqb (trim url) (js "").

Definition hasScheme (url : jsstring) : bool :=
  startsWith (js "http://") url || startsWith (js "https://") url
  || startsWith (js "mailto:") url.

Definition hrefOf (url : jsstring) : jsstring :=
  if negb (startsWith (js "http://") url)
     && negb (startsWith (js "https://") url)
     && negb (startsWith (js "mailto:") url)
  then
    if includes (js "@") url && negb (startsWith (js "mailto:") url)
    then js "mailto:" ++ url
    else js "https://" ++ url
  else url.

Definition anchor (href displayText : jsstring) : jsstring :=
  js "<a href=" ++ dq ++ href ++ dq ++ js " target=" ++ dq ++ js "_blank" ++ dq
  ++ js " class=" ++ dq ++ js "text-cyan-400 hover:underline" ++ dq ++ js ">"
  ++ displayText ++ js "</a>".

Definition makeClickableLink (url : jsstring) (text : option jsstring) : jsstring :=
  if isPlaceholder url then orElse text url
  else
    let displayText := orElse text url in
    let href := hrefOf url in
    anchor href displayText.

Definition totalBars : Z := 20.
Definition filledCell : jsstring := js "â–ˆ".
Definition blankCell : jsstring := js " ".

Definition filledBarsOf (level : Z) : Z :=
  Math_round ((inject_Z level / inject_Z 100) * inject_Z totalBars)%Q.

Definition generateSkillBar (level : Z) : Exc jsstring :=
  let filledBars := filledBarsOf level in
  filled <- JS.repeat filledCell filledBars ;;
  blank <- JS.repeat blankCell (totalBars - filledBars) ;;
  Return (filled ++ blank).

(** ** The rounding in IEEE doubles

    The numbers of the program are doubles.  [level / 100] and the product
    by [totalBars] are the IEEE operations of binary64; [Math.round] is
    exact on a double. *)

Module Double.

Definition prec : Z := 53.
Definition emax : Z := 1024.

(** The double nearest to an integer (the integer itself below 2^53). *)
Definition ofZ (z : Z) : spec_float := binary_normalize prec emax z 0 false.

Definition div (x y : spec_float) : spec_float := SFdiv prec emax x y.
Definition mul (x y : spec_float) : spec_float := SFmul prec emax x y.

(** The value of a finite double. *)
Definition toQ (negative : bool) (m : positive) (e : Z) : Q :=
  let n := if negative then Z.neg m else Z.pos m in
  if (0 <=? e)%Z then inject_Z (n * 2 ^ e)
  else Qmake n (2 ^ Z.to_pos (- e)).

(** [Math.round(x)]; it leaves [NaN] and the infinities as they are. *)
Definition Math_round (x : spec_float) : option Z :=
  match x with
  | S754_zero _ => Some 0%Z
  | S754_finite negative m e => Some (JS.Math_round (toQ negative m e))
  | S754_infinity _ | S754_nan => None
  end.

End Double.

(** [Math.round((level / 100) * totalBars)] as the program computes it. *)
Definition filledBarsDouble (level : Z) : option Z :=
  Double.Math_round
    (Double.mul (Double.div (Double.ofZ level) (Double.ofZ 100))
       (Double.ofZ totalBars)).

(** ** The host

    Built-ins whose Unicode and calendar tables are not part of the program
    are taken from the host, with the two facts about [toLowerCase] the
    dispatcher relies on. *)

Definition isPlainLower (s : jsstring) : bool :=
  forallb (fun c => (c <? 128)%N && negb ((65 <=? c) && (c <=? 90))%N) s.

Class Host := {
  toLowerCase : jsstring -> jsstring;
  toUpperCase : jsstring -> jsstring;
  (** [new Date(ms).toString()] *)
  Date_toString : Z -> jsstring;
  toLowerCase_plain : forall s, isPlainLower s = true -> toLowerCase s = s;
  toLowerCase_head : forall c s, exists c' s',
      toLowerCase (c :: s) = c' :: s' /\ (c' = space -> c = space)
}.

(** ** portfolio.json

    The data file is not part of the sources; its shape is read off the
    accesses the program makes.  A field that is only interpolated into a
    template is held as the text it renders to; skill levels are integers. *)

Module Personal.
Record t := { name : jsstring; title : jsstring; username : jsstring;
              website : jsstring; location : jsstring; resumeUrl : jsstring }.
End Personal.

Module Skill.
Record t := { name : jsstring; level : Z }.
End Skill.

Module Project.
Record t := { name : jsstring; description : jsstring; techStack : jsstring;
              github : jsstring; status : jsstring }.
End Project.

Module Education.
Record t := { period : jsstring; degree : jsstring; university : jsstring;
              gpa : jsstring; coursework : list jsstring;
              expectedGraduation : jsstring }.
End Education.

Module Contact.
Record t := { email : jsstring; linkedin : jsstring; github : jsstring;
              phone : jsstring }.
End Contact.

Module FileEntry.
Record t := { name : jsstring; type : jsstring; permissions : jsstring;
              size : jsstring; date : jsstring }.
End FileEntry.

Module SystemInfo.
Record t := { os : jsstring; host : jsstring; kernel : jsstring;
              uptime : jsstring; shell : jsstring; resolution : jsstring;
              terminal : jsstring; cpu : jsstring; memory : jsstring;
              disk : jsstring; projectsCompleted : jsstring;
              primaryLanguages : jsstring; frameworks : jsstring;
              databases : jsstring; tools : jsstring }.
End SystemInfo.

Record PortfolioData := {
  personal : Personal.t;
  about : list jsstring;
  (** in the order [Object.entries] lists the categories *)
  skills : list (jsstring * list Skill.t);
  projects : list Project.t;
  education : Education.t;
  contact : Contact.t;
  files : list FileEntry.t;
  system : SystemInfo.t
}.

(** ** Arrays built by [push] inside [forEach] *)

Definition push {A} (result : list A) (x : A) : list A := result ++ [x].

Fixpoint forEach_from {A S} (index : nat) (l : list A)
    (body : A -> nat -> S -> S) (s : S) : S :=
  match l with
  | [] => s
  | x :: rest => forEach_from (Datatypes.S index) rest body (body x index s)
  end.

(** [l.forEach((x, index) => body)] threading the variables the body updates. *)
Definition forEach {A S} (l : list A) (body : A -> nat -> S -> S) (s : S) : S :=
  forEach_from 0 l body s.

Definition nl : jsstring := [10%N].

(** [index === l.length - 1] *)
Definition isLastIndex {A} (index : nat) (l : list A) : bool :=
  (Z.of_nat index =? Z.of_nat (List.length l) - 1)%Z.

(** ** The description block of a project (the wrap loop) *)

Definition baseIndent : jsstring := js "   ".
Definition firstLineItemPrefix : jsstring := js "â”œâ”€â”€ ".
Definition subsequentLineItemPrefix : jsstring := js "â”‚   ".
Definition lastLineItemPrefix : jsstring := js "â””â”€â”€ ".
Definition descriptionLabel : jsstring := js "Description: ".
Definition descriptionContinuationIndent : jsstring :=
  List.repeat space (List.length descriptionLabel).
Definition textContentWidth : nat := 75.

(** The variables the loops over segments and words share. *)
Record WrapState := {
  result : list jsstring;
  isFirstLineOfOverallDescriptionOutput : bool
}.

(** The [if (isFirstLineOfOverallDescriptionOutput) ... else ...] that pushes
    a line buffer, written three times in the source. *)
Definition pushLine (lineBuffer : jsstring) (st : WrapState) : WrapState :=
  if isFirstLineOfOverallDescriptionOutput st
  then {| result := push (result st)
            (baseIndent ++ firstLineItemPrefix ++ descriptionLabel ++ lineBuffer);
          isFirstLineOfOverallDescriptionOutput := false |}
  else {| result := push (result st)
            (baseIndent ++ subsequentLineItemPrefix
             ++ descriptionContinuationIndent ++ lineBuffer);
          isFirstLineOfOverallDescriptionOutput := false |}.

(** [for (let i = 0; i < words.length; i++)] *)
Fixpoint wrapWords (words : list jsstring) (lineBuffer : jsstring)
    (st : WrapState) : jsstring * WrapState :=
  match words with
  | [] => (lineBuffer, st)
  | word :: rest =>
      let potentialLine :=
        if eqb lineBuffer (js "") then word else lineBuffer ++ js " " ++ word in
      if List.length potentialLine <=? textContentWidth
      then wrapWords rest potentialLine st
      else
        let st1 := if negb (eqb lineBuffer (js "")) then pushLine lineBuffer st
                   else st in
        let lineBuffer := word in
        if (textContentWidth <? List.length word) && negb (eqb lineBuffer (js ""))
        then wrapWords rest (js "") (pushLine lineBuffer st1)
        else wrapWords rest lineBuffer st1
  end.

Definition wrapSegment (segment : jsstring) (st : WrapState) : WrapState :=
  if eqb (trim segment) (js "")
     && negb (isFirstLineOfOverallDescriptionOutput st)
  then {| result := push (result st) (baseIndent ++ subsequentLineItemPrefix);
          isFirstLineOfOverallDescriptionOutput :=
            isFirstLineOfOverallDescriptionOutput st |}
  else
    let words := split (js " ") segment in
    let (lineBuffer, st') := wrapWords words (js "") st in
    if negb (eqb lineBuffer (js "")) then pushLine lineBuffer st' else st'.

(** The [// Format Description] part of the loop over projects.  The
    separator of the segments is the two characters backslash and [n], the
    source's ['\\n']. *)
Definition formatDescription (actualDescription : jsstring)
    (result0 : list jsstring) : list jsstring :=
  if negb (isEmpty actualDescription)
     && negb (eqb (trim actualDescription) (js ""))
  then
    let segments := split (js "\n") actualDescription in
    result (forEach segments (fun segment _ st => wrapSegment segment st)
              {| result := result0;
                 isFirstLineOfOverallDescriptionOutput := true |})
  else push result0 (baseIndent ++ firstLineItemPrefix ++ descriptionLabel).

(** ** The command registry *)

Module CommandEntry.
Record t := { description : jsstring; output : list jsstring }.
End CommandEntry.

Module Commands.
Record t := { help : CommandEntry.t; about : CommandEntry.t;
              skills : CommandEntry.t; projects : CommandEntry.t;
              education : CommandEntry.t; contact : CommandEntry.t;
              resume : CommandEntry.t; whoami : CommandEntry.t;
              pwd : CommandEntry.t; ls : CommandEntry.t;
              date : CommandEntry.t; neofetch : CommandEntry.t }.
End Commands.

Definition entry (description : jsstring) (output : list jsstring) :=
  {| CommandEntry.description := description; CommandEntry.output := output |}.

(** ** The App component *)

(** The value of the local [output] of [executeCommand]: an array of lines,
    or [undefined]. *)
Inductive OutputValue := Lines (l : list jsstring) | Undefined.

Module Command.
Record t := { input : jsstring; output : OutputValue; timestamp : Z }.
End Command.

(** What [COMMANDS[command]] evaluates to.  [COMMANDS] is an object literal,
    so a key it does not own is looked up on [Object.prototype], whose
    members are functions (or, for [__proto__], the prototype object): truthy
    values without an [output] property. *)
Inductive Property := Own (c : CommandEntry.t) | Inherited | Absent.

Definition objectPrototypeKeys : list jsstring :=
  [ js "constructor"; js "__defineGetter__"; js "__defineSetter__";
    js "hasOwnProperty"; js "__lookupGetter__"; js "__lookupSetter__";
    js "isPrototypeOf"; js "propertyIsEnumerable"; js "toString";
    js "valueOf"; js "__proto__"; js "toLocaleString" ].

Definition commandNames : list jsstring :=
  [ js "help"; js "about"; js "skills"; js "projects"; js "education";
    js "contact"; js "resume"; js "whoami"; js "pwd"; js "ls"; js "date";
    js "neofetch" ].

Definition getProperty (COMMANDS : Commands.t) (key : jsstring) : Property :=
  if eqb key (js "help") then Own COMMANDS.(Commands.help)
  else if eqb key (js "about") then Own COMMANDS.(Commands.about)
  else if eqb key (js "skills") then Own COMMANDS.(Commands.skills)
  else if eqb key (js "projects") then Own COMMANDS.(Commands.projects)
  else if eqb key (js "education") then Own COMMANDS.(Commands.education)
  else if eqb key (js "contact") then Own COMMANDS.(Commands.contact)
  else if eqb key (js "resume") then Own COMMANDS.(Commands.resume)
  else if eqb key (js "whoami") then Own COMMANDS.(Commands.whoami)
  else if eqb key (js "pwd") then Own COMMANDS.(Commands.pwd)
  else if eqb key (js "ls") then Own COMMANDS.(Commands.ls)
  else if eqb key (js "date") then Own COMMANDS.(Commands.date)
  else if eqb key (js "neofetch") then Own COMMANDS.(Commands.neofetch)
  else if existsb (eqb key) objectPrototypeKeys then Inherited
  else Absent.

(** The state of the component: its four [useState] cells, the [COMMANDS]
    of the latest render (the one the handlers of that render close over),
    and the timers started and not yet fired: the calls of [executeCommand]
    suspended at their [await], each with its [input] and [output], and the
    download timers. *)
Record AppState := {
  commands : list Command.t;
  currentInput : jsstring;
  isTyping : bool;
  currentTime : Z;
  COMMANDS : Commands.t;
  awaiting : list (jsstring * OutputValue);
  downloadTimers : nat
}.

Definition setCommands (f : list Command.t -> list Command.t) (st : AppState) :=
  {| commands := f (commands st); currentInput := currentInput st;
     isTyping := isTyping st; currentTime := currentTime st;
     COMMANDS := COMMANDS st; awaiting := awaiting st;
     downloadTimers := downloadTimers st |}.

Definition setCurrentInput (v : jsstring) (st : AppState) :=
  {| commands := commands st; currentInput := v;
     isTyping := isTyping st; currentTime := currentTime st;
     COMMANDS := COMMANDS st; awaiting := awaiting st;
     downloadTimers := downloadTimers st |}.

Definition setIsTyping (b : bool) (st : AppState) :=
  {| commands := commands st; currentInput := currentInput st;
     isTyping := b; currentTime := currentTime st;
     COMMANDS := COMMANDS st; awaiting := awaiting st;
     downloadTimers := downloadTimers st |}.

Definition setCurrentTime (t : Z) (st : AppState) :=
  {| commands := commands st; currentInput := currentInput st;
     isTyping := isTyping st; currentTime := t;
     COMMANDS := COMMANDS st; awaiting := awaiting st;
     downloadTimers := downloadTimers st |}.

Definition setCOMMANDS (c : Commands.t) (st : AppState) :=
  {| commands := commands st; currentInput := currentInput st;
     isTyping := isTyping st; currentTime := currentTime st;
     COMMANDS := c; awaiting := awaiting st;
     downloadTimers := downloadTimers st |}.

(** [await new Promise(resolve => setTimeout(resolve, 300))]: the rest of the
    call waits with the [input] and [output] it holds. *)
Definition await (input : jsstring) (output : OutputValue) (st : AppState) :=
  {| commands := commands st; currentInput := currentInput st;
     isTyping := isTyping st; currentTime := currentTime st;
     COMMANDS := COMMANDS st; awaiting := awaiting st ++ [(input, output)];
     downloadTimers := downloadTimers st |}.

(** [setTimeout(() => { ... link.click() ... }, 1000)] *)
Definition setDownloadTimeout (st : AppState) :=
  {| commands := commands st; currentInput := currentInput st;
     isTyping := isTyping st; currentTime := currentTime st;
     COMMANDS := COMMANDS st; awaiting := awaiting st;
     downloadTimers := S (downloadTimers st) |}.

Definition dropAwaiting (st : AppState) :=
  {| commands := commands st; currentInput := currentInput st;
     isTyping := isTyping st; currentTime := currentTime st;
     COMMANDS := COMMANDS st; awaiting := tl (awaiting st);
     downloadTimers := downloadTimers st |}.

(** ** The program over a host and a data file *)

Section Portfolio.

Context `{Host}.
Variable portfolioData : PortfolioData.

Definition formatFileList : list jsstring :=
  forEach portfolioData.(files)
    (fun file _ result =>
       let typeIndicator :=
         if eqb file.(FileEntry.type) (js "directory") then js "/" else js "" in
       push result
         (file.(FileEntry.permissions) ++ js "  2 "
          ++ portfolioData.(personal).(Personal.username) ++ js " "
          ++ portfolioData.(personal).(Personal.username) ++ js " "
          ++ file.(FileEntry.size) ++ js " " ++ file.(FileEntry.date) ++ js " "
          ++ file.(FileEntry.name) ++ typeIndicator))
    [js "total 8"].

Definition helpOutput : list jsstring :=
  [
    js "Available commands:";
    js "  help          - Show this help message";
    js "  about         - Learn about me";
    js "  skills        - View my technical skills";
    js "  projects      - See my projects";
    js "  education     - See my educational background";
    js "  contact       - Get my contact information";
    js "  resume        - View resume and download link";
    js "  download      - Download resume PDF";
    js "  clear         - Clear the terminal";
    js "  whoami        - Display current user";
    js "  ls            - List directory contents";
    js "  pwd           - Print working directory";
    js "  date          - Show current date and time";
    js "  neofetch      - Display system information"
  ].

Definition aboutOutput : list jsstring :=
  [ portfolioData.(personal).(Personal.name) ++ js " - "
      ++ portfolioData.(personal).(Personal.title);
    js "" ] ++ portfolioData.(about).

(** [generateSkillBar] can throw, and so can building the skills block. *)
Definition skillsOutput : Exc (list jsstring) :=
  forEach portfolioData.(skills)
    (fun '(category, skills) _ acc =>
       result <- acc ;;
       let result := push result (category ++ js ":") in
       result <- forEach skills
         (fun skill index acc =>
            result <- acc ;;
            let isLast := isLastIndex index skills in
            let prefix := if isLast then js "  â””â”€â”€" else js "  â”œâ”€â”€" in
            bar <- generateSkillBar skill.(Skill.level) ;;
            Return (push result
                      (prefix ++ js " " ++ padEnd 20 skill.(Skill.name) ++ js " "
                       ++ bar ++ js " " ++ Number_toString skill.(Skill.level)
                       ++ js "%")))
         (Return result) ;;
       Return (push result (js "")))
    (Return [js "Technical Skills:"; js ""]).

Definition projectsOutput : list jsstring :=
  forEach portfolioData.(projects)
    (fun project index result =>
       let result :=
         push result (Number_toString (Z.of_nat index + 1) ++ js ". "
                      ++ project.(Project.name)) in
       let result := formatDescription project.(Project.description) result in
       let result :=
         push result (baseIndent ++ firstLineItemPrefix ++ js "Tech Stack: "
                      ++ project.(Project.techStack)) in
       let result :=
         push result (baseIndent ++ firstLineItemPrefix ++ js "GitHub: "
                      ++ makeClickableLink project.(Project.github) None) in
       let result :=
         push result (baseIndent ++ lastLineItemPrefix ++ js "Status: "
                      ++ project.(Project.status)) in
       push result (js ""))
    [js "Projects Portfolio:"; js ""].

Definition educationOutput : list jsstring :=
  let edu := portfolioData.(education) in
  let result :=
    [ js "Education:";
      js "";
      edu.(Education.period) ++ js " | " ++ edu.(Education.degree);
      js "â”œâ”€â”€ University: " ++ edu.(Education.university);
      js "â”œâ”€â”€ GPA: " ++ edu.(Education.gpa);
      js "â”œâ”€â”€ Relevant Coursework:" ] in
  let result :=
    forEach edu.(Education.coursework)
      (fun course index result =>
         let isLast := isLastIndex index edu.(Education.coursework) in
         let prefix := if isLast then js "â”‚   â””â”€â”€" else js "â”‚   â”œâ”€â”€" in
         push result (prefix ++ js " " ++ course))
      result in
  let result := push result (js "â””â”€â”€ Expected Graduation: " ++ edu.(Education.expectedGraduation)) in
  push result (js "").

Definition contactOutput : list jsstring :=
  [
    js "Contact Information:";
    js "";
    js "ğŸ“§ Email:    " ++ makeClickableLink portfolioData.(contact).(Contact.email) None;
    js "ğŸ”— LinkedIn: " ++ makeClickableLink portfolioData.(contact).(Contact.linkedin) None;
    js "ğŸ™ GitHub:   " ++ makeClickableLink portfolioData.(contact).(Contact.github) None;
    js "ğŸŒ Website:  " ++ makeClickableLink portfolioData.(personal).(Personal.website) None;
    js "ğŸ“± Phone:    " ++ portfolioData.(contact).(Contact.phone);
    js "ğŸ“ Location: " ++ portfolioData.(personal).(Personal.location);
    js "";
    js "Feel free to reach out for opportunities, collaborations,";
    js "or just to have a chat about technology!"
  ].

Definition resumeOutput : list jsstring :=
  [
    js "â•â•â•â•â•â•â•â•â•â•â•â•â•â•â•â•â•â•â•â•â•â•â•â•â•â•â•â•â•â•â•â•â•â•â•â•â•â•â•â•â•â•â•â•â•â•â•â•â•â•â•â•â•â•â•â•â•â•â•";
    js "                        " ++ toUpperCase portfolioData.(personal).(Personal.name) ++ js "                          ";
    js "                " ++ portfolioData.(personal).(Personal.title) ++ js "                   ";
    js "â•â•â•â•â•â•â•â•â•â•â•â•â•â•â•â•â•â•â•â•â•â•â•â•â•â•â•â•â•â•â•â•â•â•â•â•â•â•â•â•â•â•â•â•â•â•â•â•â•â•â•â•â•â•â•â•â•â•â•";
    js "";
    js "ğŸ“§ " ++ makeClickableLink portfolioData.(contact).(Contact.email) None ++ js "  ğŸ“± " ++ portfolioData.(contact).(Contact.phone);
    js "ğŸ”— " ++ makeClickableLink portfolioData.(contact).(Contact.linkedin) None ++ js "  ğŸ™ " ++ makeClickableLink portfolioData.(contact).(Contact.github) None;
    js "";
    js "ğŸ“ " ++ portfolioData.(education).(Education.degree) ++ js " (" ++ portfolioData.(education).(Education.period) ++ js ") - GPA: " ++ portfolioData.(education).(Education.gpa);
    js "ğŸ› ï¸ " ++ portfolioData.(system).(SystemInfo.primaryLanguages);
    js "";
    js "ğŸ“„ Download PDF: " ++ makeClickableLink portfolioData.(personal).(Personal.resumeUrl) None;
    js "";
    js "Use " ++ dq ++ js "education" ++ dq ++ js ", " ++ dq ++ js "skills" ++ dq ++ js " for details!"
  ].

Definition neofetchOutput : list jsstring :=
  [
    js "<pre class=" ++ dq ++ js "terminal-ascii-art" ++ dq ++ js ">" ++ nl
    ++ js "                   -`                     <span class=" ++ dq ++ js "text-green-400" ++ dq ++ js ">" ++ portfolioData.(personal).(Personal.username) ++ js "</span><span class=" ++ dq ++ js "text-white" ++ dq ++ js ">@</span><span class=" ++ dq ++ js "text-green-400" ++ dq ++ js ">portfolio</span>" ++ nl
    ++ js "                  .o+`                    <span class=" ++ dq ++ js "text-white" ++ dq ++ js ">-----------------</span>" ++ nl
    ++ js "                 `ooo/                    <span class=" ++ dq ++ js "text-blue-400" ++ dq ++ js ">OS:</span> " ++ portfolioData.(system).(SystemInfo.os) ++ nl
    ++ js "                `+oooo:                   <span class=" ++ dq ++ js "text-blue-400" ++ dq ++ js ">Host:</span> " ++ portfolioData.(system).(SystemInfo.host) ++ nl
    ++ js "               `+oooooo:                  <span class=" ++ dq ++ js "text-blue-400" ++ dq ++ js ">Kernel:</span> " ++ portfolioData.(system).(SystemInfo.kernel) ++ nl
    ++ js "               -+oooooo+:                 <span class=" ++ dq ++ js "text-blue-400" ++ dq ++ js ">Uptime:</span> " ++ portfolioData.(system).(SystemInfo.uptime) ++ nl
    ++ js "             `/:-:++oooo+:                <span class=" ++ dq ++ js "text-blue-400" ++ dq ++ js ">Shell:</span> " ++ portfolioData.(system).(SystemInfo.shell) ++ nl
    ++ js "            `/++++/+++++++:               <span class=" ++ dq ++ js "text-blue-400" ++ dq ++ js ">Resolution:</span> " ++ portfolioData.(system).(SystemInfo.resolution) ++ nl
    ++ js "           `/++++++++++++++:              <span class=" ++ dq ++ js "text-blue-400" ++ dq ++ js ">Terminal:</span> " ++ portfolioData.(system).(SystemInfo.terminal) ++ nl
    ++ js "          `/+++ooooooooo+++/              <span class=" ++ dq ++ js "text-blue-400" ++ dq ++ js ">CPU:</span> " ++ portfolioData.(system).(SystemInfo.cpu) ++ nl
    ++ js "         ./ooosssso++osssssso+`           <span class=" ++ dq ++ js "text-blue-400" ++ dq ++ js ">Memory:</span> " ++ portfolioData.(system).(SystemInfo.memory) ++ nl
    ++ js "        .oossssso-````/ossssss+`          <span class=" ++ dq ++ js "text-blue-400" ++ dq ++ js ">Disk:</span> " ++ portfolioData.(system).(SystemInfo.disk) ++ nl
    ++ js "       -osssssso.      :ssssssso.         <span class=" ++ dq ++ js "text-blue-400" ++ dq ++ js ">Skills:</span> <span class=" ++ dq ++ js "text-red-400" ++ dq ++ js ">â–ˆ</span><span class=" ++ dq ++ js "text-yellow-400" ++ dq ++ js ">â–ˆ</span><span class=" ++ dq ++ js "text-green-400" ++ dq ++ js ">â–ˆ</span><span class=" ++ dq ++ js "text-cyan-400" ++ dq ++ js ">â–ˆ</span><span class=" ++ dq ++ js "text-blue-400" ++ dq ++ js ">â–ˆ</span><span class=" ++ dq ++ js "text-purple-400" ++ dq ++ js ">â–ˆ</span><span class=" ++ dq ++ js "text-pink-400" ++ dq ++ js ">â–ˆ</span><span class=" ++ dq ++ js "text-white" ++ dq ++ js ">â–ˆ</span>" ++ nl
    ++ js "      :osssssss/        osssso+++.        <span class=" ++ dq ++ js "text-blue-400" ++ dq ++ js ">Projects:</span> <span class=" ++ dq ++ js "text-green-400" ++ dq ++ js ">" ++ portfolioData.(system).(SystemInfo.projectsCompleted) ++ js " completed</span>" ++ nl
    ++ js "     /ossssssss/        +ssssooo/-        <span class=" ++ dq ++ js "text-blue-400" ++ dq ++ js ">Languages:</span> " ++ portfolioData.(system).(SystemInfo.primaryLanguages) ++ nl
    ++ js "   `/ossssso+/:-        -:/+osssso+-      <span class=" ++ dq ++ js "text-blue-400" ++ dq ++ js ">Frameworks:</span> " ++ portfolioData.(system).(SystemInfo.frameworks) ++ nl
    ++ js "  `+sso+:-`                 `.-/+oso:     <span class=" ++ dq ++ js "text-blue-400" ++ dq ++ js ">Database:</span> " ++ portfolioData.(system).(SystemInfo.databases) ++ nl
    ++ js " `++:.                           `-/+/    <span class=" ++ dq ++ js "text-blue-400" ++ dq ++ js ">Tools:</span> " ++ portfolioData.(system).(SystemInfo.tools) ++ nl
    ++ js " .`                                 `/    " ++ nl
    ++ js "</pre>"
  ].

(** [generateCommands()], evaluated at time [now]: the [date] entry holds
    [new Date().toString()] of that moment. *)
Definition generateCommands (now : Z) : Exc Commands.t :=
  skills <- skillsOutput ;;
  Return
    {| Commands.help := entry (js "Show available commands") helpOutput;
       Commands.about := entry (js "Learn about me") aboutOutput;
       Commands.skills := entry (js "View technical skills") skills;
       Commands.projects := entry (js "See my projects") projectsOutput;
       Commands.education := entry (js "See educational background") educationOutput;
       Commands.contact := entry (js "Get contact information") contactOutput;
       Commands.resume := entry (js "View resume and download link") resumeOutput;
       Commands.whoami := entry (js "Display current user")
                            [portfolioData.(personal).(Personal.username)];
       Commands.pwd := entry (js "Print working directory")
                         [js "/home/" ++ portfolioData.(personal).(Personal.username)
                          ++ js "/portfolio"];
       Commands.ls := entry (js "List directory contents") formatFileList;
       Commands.date := entry (js "Show current date and time") [Date_toString now];
       Commands.neofetch := entry (js "Display system information") neofetchOutput |}.

(** ** The App component: handlers and renders *)

Definition welcomeCommand (now : Z) : Command.t :=
  {| Command.input := js "";
     Command.output :=
       Lines
         [ js "Welcome to " ++ portfolioData.(personal).(Personal.name) ++ js "'s Portfolio Terminal";
           js "";
           js "<pre class=" ++ dq ++ js "terminal-ascii-art" ++ dq ++ js ">" ++ nl
           ++ js "â–ˆâ–ˆâ–ˆâ–ˆâ–ˆâ–ˆâ–ˆâ–ˆâ•—â–ˆâ–ˆâ–ˆâ–ˆâ–ˆâ–ˆâ–ˆâ•—â–ˆâ–ˆâ–ˆâ–ˆâ–ˆâ–ˆâ•— â–ˆâ–ˆâ–ˆâ•—   â–ˆâ–ˆâ–ˆâ•—â–ˆâ–ˆâ•—â–ˆâ–ˆâ–ˆâ•—   â–ˆâ–ˆâ•— â–ˆâ–ˆâ–ˆâ–ˆâ–ˆâ•— â–ˆâ–ˆâ•—      " ++ nl
           ++ js "â•šâ•â•â–ˆâ–ˆâ•”â•â•â•â–ˆâ–ˆâ•”â•â•â•â•â•â–ˆâ–ˆâ•”â•â•â–ˆâ–ˆâ•—â–ˆâ–ˆâ–ˆâ–ˆâ•— â–ˆâ–ˆâ–ˆâ–ˆâ•‘â–ˆâ–ˆâ•‘â–ˆâ–ˆâ–ˆâ–ˆâ•—  â–ˆâ–ˆâ•‘â–ˆâ–ˆâ•”â•â•â–ˆâ–ˆâ•—â–ˆâ–ˆâ•‘      " ++ nl
           ++ js "   â–ˆâ–ˆâ•‘   â–ˆâ–ˆâ–ˆâ–ˆâ–ˆâ•—  â–ˆâ–ˆâ–ˆâ–ˆâ–ˆâ–ˆâ•”â•â–ˆâ–ˆâ•”â–ˆâ–ˆâ–ˆâ–ˆâ•”â–ˆâ–ˆâ•‘â–ˆâ–ˆâ•‘â–ˆâ–ˆâ•”â–ˆâ–ˆâ•— â–ˆâ–ˆâ•‘â–ˆâ–ˆâ–ˆâ–ˆâ–ˆâ–ˆâ–ˆâ•‘â–ˆâ–ˆâ•‘      " ++ nl
           ++ js "   â–ˆâ–ˆâ•‘   â–ˆâ–ˆâ•”â•â•â•  â–ˆâ–ˆâ•”â•â•â–ˆâ–ˆâ•—â–ˆâ–ˆâ•‘â•šâ–ˆâ–ˆâ•”â•â–ˆâ–ˆâ•‘â–ˆâ–ˆâ•‘â–ˆâ–ˆâ•‘â•šâ–ˆâ–ˆâ•—â–ˆâ–ˆâ•‘â–ˆâ–ˆâ•”â•â•â–ˆâ–ˆâ•‘â–ˆâ–ˆâ•‘      " ++ nl
           ++ js "   â–ˆâ–ˆâ•‘   â–ˆâ–ˆâ–ˆâ–ˆâ–ˆâ–ˆâ–ˆâ•—â–ˆâ–ˆâ•‘  â–ˆâ–ˆâ•‘â–ˆâ–ˆâ•‘ â•šâ•â• â–ˆâ–ˆâ•‘â–ˆâ–ˆâ•‘â–ˆâ–ˆâ•‘ â•šâ–ˆâ–ˆâ–ˆâ–ˆâ•‘â–ˆâ–ˆâ•‘  â–ˆâ–ˆâ•‘â–ˆâ–ˆâ–ˆâ–ˆâ–ˆâ–ˆâ–ˆâ•— " ++ nl
           ++ js "   â•šâ•â•   â•šâ•â•â•â•â•â•â•â•šâ•â•  â•šâ•â•â•šâ•â•     â•šâ•â•â•šâ•â•â•šâ•â•  â•šâ•â•â•â•â•šâ•â•  â•šâ•â•â•šâ•â•â•â•â•â•â• " ++ nl
           ++ js "</pre>";
           js "";
           js "Type " ++ dq ++ js "help" ++ dq ++ js " to get started or " ++ dq ++ js "about" ++ dq ++ js " to learn more about me." ];
     Command.timestamp := now |}.

Definition downloadOutput : list jsstring :=
  [
    js "Initiating download...";
    js "";
    js "ğŸ“„ Downloading: " ++ replace (js " ") (js "_") portfolioData.(personal).(Personal.name) ++ js "_Resume.pdf";
    js "ğŸ”— Source: " ++ makeClickableLink portfolioData.(personal).(Personal.resumeUrl) None;
    js "";
    js "If download doesn't start automatically, click the link above."
  ].

(** [const [command, ...args] = trimmedInput.split(' ')] *)
Definition commandOf (input : jsstring) : jsstring :=
  let trimmedInput := toLowerCase (trim input) in
  hd (js "") (split (js " ") trimmedInput).

Definition notFound (command : jsstring) : list jsstring :=
  [ js "Command not found: " ++ command;
    js "Type " ++ dq ++ js "help" ++ dq ++ js " to see available commands." ].

(** [executeCommand(input)] up to its [await] (or its [return], for
    [clear]). *)
Definition executeCommand (input : jsstring) (st : AppState) : AppState :=
  let command := commandOf input in
  let st := setIsTyping true st in
  if eqb command (js "") then await input (Lines [js ""]) st
  else if eqb command (js "clear") then
    setIsTyping false (setCurrentInput (js "") (setCommands (fun _ => []) st))
  else if eqb command (js "resume") then
    await input (Lines (COMMANDS st).(Commands.resume).(CommandEntry.output)) st
  else if eqb command (js "download") then
    await input (Lines downloadOutput) (setDownloadTimeout st)
  else
    match getProperty (COMMANDS st) command with
    | Own c => await input (Lines c.(CommandEntry.output)) st
    | Inherited => await input Undefined st
    | Absent => await input (Lines (notFound command)) st
    end.

(** The rest of [executeCommand], run at time [now] when the 300 ms timer of
    the oldest suspended call fires. *)
Definition resumeCommand (now : Z) (st : AppState) : AppState :=
  match awaiting st with
  | [] => st
  | (input, output) :: _ =>
      let newCommand :=
        {| Command.input := input; Command.output := output;
           Command.timestamp := now |} in
      setIsTyping false
        (setCurrentInput (js "")
           (setCommands (fun prev => prev ++ [newCommand]) (dropAwaiting st)))
  end.

(** [command.output.map(...)] in the JSX: a [TypeError] on [undefined]. *)
Definition renderCommand (c : Command.t) : Exc unit :=
  match c.(Command.output) with
  | Lines _ => Return tt
  | Undefined => Throw TypeError
  end.

Definition renderCommands (cs : list Command.t) : Exc unit :=
  forEach cs (fun c _ acc => _ <- acc ;; renderCommand c) (Return tt).

(** One evaluation of the component body at time [now]: [COMMANDS] is built
    anew and the history is mapped to elements.  An exception thrown here
    unmounts the component. *)
Definition render (now : Z) (st : AppState) : Exc AppState :=
  COMMANDS <- generateCommands now ;;
  _ <- renderCommands (commands st) ;;
  Return (setCOMMANDS COMMANDS st).

(** The first render, and the one after the effect that shows the welcome
    message. *)
Definition mount (now : Z) : Exc AppState :=
  COMMANDS <- generateCommands now ;;
  render now
    {| commands := [welcomeCommand now]; currentInput := js "";
       isTyping := false; currentTime := now; COMMANDS := COMMANDS;
       awaiting := []; downloadTimers := 0 |}.

(** What can happen to a mounted component, each at the time it happens:
    the clock interval, typing into the input, submitting the form, and the
    two kinds of timer firing. *)
Inductive Event :=
| Tick (now : Z)
| Change (now : Z) (value : jsstring)
| Submit (now : Z)
| Resolved (now : Z)
| DownloadTimer.

(** [handleSubmit]: [None] when the guard rejects the submission. *)
Definition handleSubmit (st : AppState) : option AppState :=
  if negb (isEmpty (trim (currentInput st))) && negb (isTyping st)
  then Some (executeCommand (currentInput st) st)
  else None.

(** Each handler runs on the state of the latest render and is followed by
    a render when it has set state. *)
Definition handle (e : Event) (st : AppState) : Exc AppState :=
  match e with
  | Tick now => render now (setCurrentTime now st)
  | Change now value =>
      if isTyping st then Return st (* the input is disabled *)
      else render now (setCurrentInput value st)
  | Submit now =>
      match handleSubmit st with
      | Some st' => render now st'
      | None => Return st
      end
  | Resolved now =>
      match awaiting st with
      | [] => Return st
      | _ :: _ => render now (resumeCommand now st)
      end
  | DownloadTimer =>
      Return {| commands := commands st; currentInput := currentInput st;
                isTyping := isTyping st; currentTime := currentTime st;
                COMMANDS := COMMANDS st; awaiting := awaiting st;
                downloadTimers := pred (downloadTimers st) |}
  end.

Definition step (app : Exc AppState) (e : Event) : Exc AppState :=
  st <- app ;; handle e st.

Definition run (app : Exc AppState) (events : list Event) : Exc AppState :=
  fold_left step events app.

End Portfolio.

(** ** A host and a data file to run the program on *)

Definition lowerUnit (c : char) : char :=
  if ((65 <=? c) && (c <=? 90) || (192 <=? c) && (c <=? 222) && negb (c =? 215))%N
  then (c + 32)%N else c.

Definition upperUnit (c : char) : jsstring :=
  if ((97 <=? c) && (c <=? 122) || (224 <=? c) && (c <=? 254) && negb (c =? 247))%N
  then [(c - 32)%N]
  else if (c =? 223)%N then [83; 83]%N
  else if (c =? 255)%N then [376%N]
  else if (c =? 181)%N then [924%N]
  else [c].

Local Open Scope Z_scope.

(** Days since 1970-01-01 to (year, month, day) of the proleptic Gregorian
    calendar. *)
Definition civilFromDays (days : Z) : Z * Z * Z :=
  let z := days + 719468 in
  let era := z / 146097 in
  let doe := z - era * 146097 in
  let yoe := (doe - doe / 1460 + doe / 36524 - doe / 146096) / 365 in
  let doy := doe - (365 * yoe + yoe / 4 - yoe / 100) in
  let mp := (5 * doy + 2) / 153 in
  let d := doy - (153 * mp + 2) / 5 + 1 in
  let m := if mp <? 10 then mp + 3 else mp - 9 in
  let y := yoe + era * 400 in
  (if m <=? 2 then y + 1 else y, m, d).

Definition padStart0 (n : nat) (s : jsstring) : jsstring :=
  List.repeat 48%N (n - List.length s)%nat ++ s.

Definition dayNames : list jsstring :=
  [js "Sun"; js "Mon"; js "Tue"; js "Wed"; js "Thu"; js "Fri"; js "Sat"].

Definition monthNames : list jsstring :=
  [js "Jan"; js "Feb"; js "Mar"; js "Apr"; js "May"; js "Jun";
   js "Jul"; js "Aug"; js "Sep"; js "Oct"; js "Nov"; js "Dec"].

(** [Date.prototype.toString] of the time value [ms] in the UTC time zone. *)
Definition utcString (ms : Z) : jsstring :=
  let secs := ms / 1000 in
  let days := secs / 86400 in
  let sod := secs mod 86400 in
  let '(y, m, d) := civilFromDays days in
  nth (Z.to_nat ((days + 4) mod 7)) dayNames [] ++ js " "
  ++ nth (Z.to_nat (m - 1)) monthNames [] ++ js " "
  ++ padStart0 2 (Number_toString d) ++ js " "
  ++ (if y <? 0 then js "-" else js "")
  ++ padStart0 4 (Number_toString (Z.abs y)) ++ js " "
  ++ padStart0 2 (Number_toString (sod / 3600)) ++ js ":"
  ++ padStart0 2 (Number_toString (sod / 60 mod 60)) ++ js ":"
  ++ padStart0 2 (Number_toString (sod mod 60))
  ++ js " GMT+0000 (Coordinated Universal Time)".

Local Close Scope Z_scope.

(** A host in the UTC time zone.  The case mappings are those of the code
    units below U+0100; other code units are left as they are. *)
#[export] Instance utcHost : Host.
Proof.
  refine {| toLowerCase := map lowerUnit;
            toUpperCase := flat_map upperUnit;
            Date_toString := utcString |}.
  - induction s as [|c s IH]; simpl; [reflexivity|].
    intros Hs. apply andb_prop in Hs. destruct Hs as [Hc Hs].
    rewrite (IH Hs). f_equal. unfold lowerUnit.
    apply andb_prop in Hc. destruct Hc as [H1 H2].
    apply N.ltb_lt in H1.
    destruct ((65 <=? c)%N && (c <=? 90)%N) eqn:E; [discriminate|].
    destruct ((192 <=? c)%N) eqn:E2; [apply N.leb_le in E2; unfold char in *; lia|].
    reflexivity.
  - intros c s. exists (lowerUnit c), (map lowerUnit s).
    split; [reflexivity|]. unfold lowerUnit, space.
    unfold char in *. destruct (_ || _)%bool eqn:E; [|lia].
    intros Hc. assert (c = 0%N) by lia. subst c. discriminate E.
Defined.

Definition sampleData : PortfolioData :=
  {| personal :=
       {| Personal.name := js "Ada Lovelace";
          Personal.title := js "Software Engineer";
          Personal.username := js "ada";
          Personal.website := js "ada.example.org";
          Personal.location := js "London";
          Personal.resumeUrl := js "/resume.pdf" |};
     about := [js "I build things."; js "I also verify them."];
     skills :=
       [ (js "Languages",
          [ {| Skill.name := js "TypeScript"; Skill.level := 90 |};
            {| Skill.name := js "Rust"; Skill.level := 50 |} ]);
         (js "Tools",
          [ {| Skill.name := js "Git"; Skill.level := 0 |} ]) ];
     projects :=
       [ {| Project.name := js "Terminal";
            Project.description :=
              js "A terminal styled portfolio that answers typed commands with blocks of text and wraps long descriptions.\n\nSecond paragraph.";
            Project.techStack := js "React, TypeScript";
            Project.github := js "github.com/ada/terminal";
            Project.status := js "Done" |};
         {| Project.name := js "Untitled";
            Project.description := js "";
            Project.techStack := js "";
            Project.github := js "#";
            Project.status := js "Planned" |} ];
     education :=
       {| Education.period := js "1832 - 1836";
          Education.degree := js "Mathematics";
          Education.university := js "Private tuition";
          Education.gpa := js "4.0";
          Education.coursework := [js "Analysis"; js "Logic"];
          Education.expectedGraduation := js "1836" |};
     contact :=
       {| Contact.email := js "ada@example.org";
          Contact.linkedin := js "https://linkedin.example/ada";
          Contact.github := js "github.com/ada";
          Contact.phone := js "+44 20 0000 0000" |};
     files :=
       [ {| FileEntry.name := js "projects"; FileEntry.type := js "directory";
            FileEntry.permissions := js "drwxr-xr-x"; FileEntry.size := js "4096";
            FileEntry.date := js "Jan 1 12:00" |};
         {| FileEntry.name := js "resume.pdf"; FileEntry.type := js "file";
            FileEntry.permissions := js "-rw-r--r--"; FileEntry.size := js "2048";
            FileEntry.date := js "Jan 1 12:00" |} ];
     system :=
       {| SystemInfo.os := js "Linux"; SystemInfo.host := js "example";
          SystemInfo.kernel := js "6.1"; SystemInfo.uptime := js "1 day";
          SystemInfo.shell := js "zsh"; SystemInfo.resolution := js "1920x1080";
          SystemInfo.terminal := js "xterm"; SystemInfo.cpu := js "x86";
          SystemInfo.memory := js "16GB"; SystemInfo.disk := js "512GB";
          SystemInfo.projectsCompleted := js "2";
          SystemInfo.primaryLanguages := js "TypeScript, Rust";
          SystemInfo.frameworks := js "React";
          SystemInfo.databases := js "SQLite"; SystemInfo.tools := js "Git" |} |}.

(** ** Vocabulary of the specification *)

(** The skill bar never throws, as the specification asks of it. *)
Definition generateSkillBar_total : Prop :=
  forall level : Z, exists bar, generateSkillBar level = Return bar.

(** A bar as the specification describes it: a row of cells, filled or
    blank. *)
Definition renderCells (cells : list bool) : jsstring :=
  flat_map (fun filled : bool => if filled then filledCell else blankCell) cells.

(** An url that is empty, blank, or the placeholder. *)
Definition placeholderUrl (url : jsstring) : Prop :=
  url = js "" \/ trim url = js "" \/ trim url = js "#".

(** The words of a text: what stands between its spaces. *)
Definition words (s : jsstring) : list jsstring :=
  filter (fun w => negb (isEmpty w)) (split (js " ") s).

(** The words of a description, paragraph by paragraph (the paragraphs are
    the segments the program splits the description into). *)
Definition descriptionWords (description : jsstring) : list jsstring :=
  flat_map words (split (js "\n") description).

(** A produced description line without the tree prefix, the label and the
    continuation indent. *)
Definition textContent (line : jsstring) : jsstring :=
  let first := baseIndent ++ firstLineItemPrefix ++ descriptionLabel in
  let continuation :=
    baseIndent ++ subsequentLineItemPrefix ++ descriptionContinuationIndent in
  let blank := baseIndent ++ subsequentLineItemPrefix in
  if startsWith first line then skipn (List.length first) line
  else if startsWith continuation line then skipn (List.length continuation) line
  else if startsWith blank line then skipn (List.length blank) line
  else line.

(** The text of the lines produced for a description. *)
Definition wrappedText (description : jsstring) : list jsstring :=
  map textContent (formatDescription description []).

(** The two halves of the word-wrap property. *)
Definition wrapKeepsWords (description : jsstring) : Prop :=
  words (join (js " ") (wrappedText description)) = descriptionWords description.

Definition wrapWithinWidth (description : jsstring) : Prop :=
  Forall (fun text =>
            List.length text <= 75
            \/ In text (descriptionWords description))
         (wrappedText description).

(** At most one call of [executeCommand] is suspended, and [isTyping] is set
    exactly while one is. *)
Definition singleFlight (st : AppState) : Prop :=
  (isTyping st = true /\ List.length (awaiting st) = 1)
  \/ (isTyping st = false /\ awaiting st = []).

(** Every entry of the history other than the welcome message, and every
    suspended call, carries an input with a character that is not white
    space. *)
Definition submittedInputs (welcome : Command.t) (st : AppState) : Prop :=
  (forall c, In c (commands st) ->
     c = welcome \/ trim c.(Command.input) <> js "")
  /\ (forall input output, In (input, output) (awaiting st) ->
        trim input <> js "").

(** [date] reflecting the time of the call: a dispatch at time [td] hands
    over the timestamp of [td], whenever the registry in use was built. *)
Definition dateShowsDispatchTime : Prop :=
  forall (H : Host) (data : PortfolioData) (tb td : Z) (st st' : AppState),
    generateCommands data tb = Return (COMMANDS st) ->
    currentInput st = js "date" -> isTyping st = false -> awaiting st = [] ->
    handle data (Submit td) st = Return st' ->
    awaiting st' = [(js "date", Lines [Date_toString td])].

(** The words of a text when any white space delimits them, not the space
    alone; [word] is the word being read. *)
Fixpoint whiteSpaceWords_from (word s : jsstring) : list jsstring :=
  match s with
  | [] => if isEmpty word then [] else [word]
  | c :: rest =>
      if isWhiteSpace c
      then (if isEmpty word then [] else [word]) ++ whiteSpaceWords_from [] rest
      else whiteSpaceWords_from (word ++ [c]) rest
  end.

Definition whiteSpaceWords (s : jsstring) : list jsstring :=
  whiteSpaceWords_from [] s.

(** The words of a text when spaces delimit them and a word has to hold a
    character that is not white space. *)
Definition visibleWords (s : jsstring) : list jsstring :=
  filter (fun w => negb (isEmpty (trim w))) (split (js " ") s).

(** The word-wrap property, for every description, with a notion of word:
    the words of the produced texts are those of the paragraphs, and a text
    longer than 75 characters is a word. *)
Definition wrapPropertyOf (wordsOf : jsstring -> list jsstring) : Prop :=
  forall description,
    wordsOf (join (js " ") (wrappedText description))
    = flat_map wordsOf (split (js "\n") description)
    /\ Forall (fun text =>
                 List.length text <= 75
                 \/ In text (flat_map wordsOf (split (js "\n") description)))
              (wrappedText description).

(** No word is rendered as a blank line: a description that is all white
    space holds nothing but spaces, and so does every paragraph that is all
    white space and comes after a paragraph with a word. *)
Definition blankLinesHoldNoWord (description : jsstring) : Prop :=
  (trim description = js "" -> words description = [])
  /\ (forall before segment after,
        split (js "\n") description = before ++ segment :: after ->
        flat_map words before <> [] ->
        trim segment = js "" -> words segment = []).

(** The paragraph holds a word. *)
Definition hasWord (segment : jsstring) : bool :=
  match words segment with
  | [] => false
  | _ :: _ => true
  end.

(** The words the loop over the segments keeps and the words it renders as
    blank lines; [seen] tells that a line has been pushed. *)
Fixpoint keptWords (seen : bool) (segments : list jsstring) : list jsstring :=
  match segments with
  | [] => []
  | segment :: rest =>
      (if isEmpty (trim segment) && seen then [] else words segment)
      ++ keptWords (seen || hasWord segment) rest
  end.

Fixpoint blankedWords (seen : bool) (segments : list jsstring) : list jsstring :=
  match segments with
  | [] => []
  | segment :: rest =>
      (if isEmpty (trim segment) && seen then words segment else [])
      ++ blankedWords (seen || hasWord segment) rest
  end.

(** A word holds no space. *)
Definition noSpace (w : jsstring) : Prop :=
  forallb (fun c => negb (c =? 32)%N) w = true.

(** The text of the lines pushed so far. *)
Definition contents (st : WrapState) : list jsstring :=
  map textContent (result st).

(** A letter or a digit, a character of a host name, and a character of the
    part of an e-mail address before the [@]. *)
Definition isLetterOrDigit (c : char) : bool :=
  ((48 <=? c) && (c <=? 57) || (65 <=? c) && (c <=? 90)
   || (97 <=? c) && (c <=? 122))%N.

Definition isHostChar (c : char) : bool :=
  isLetterOrDigit c || (c =? 45)%N || (c =? 46)%N.

Definition isLocalChar (c : char) : bool :=
  isHostChar c || (c =? 95)%N || (c =? 43)%N || (c =? 37)%N.

(** The longest prefix of characters of a kind, and what follows it. *)
Fixpoint span (p : char -> bool) (s : jsstring) : jsstring * jsstring :=
  match s with
  | [] => ([], [])
  | c :: rest =>
      if p c then let (a, b) := span p rest in (c :: a, b) else ([], s)
  end.

(** A bare e-mail address: a local part, an [@] and a host name. *)
Definition isBareEmail (url : jsstring) : bool :=
  let (localPart, rest) := span isLocalChar url in
  negb (isEmpty localPart)
  && match rest with
     | [] => false
     | c :: domain =>
         (c =? 64)%N && negb (isEmpty domain) && forallb isHostChar domain
     end.

(** A bare host: a host name, alone or followed by a path. *)
Definition isBareHost (url : jsstring) : bool :=
  let (host, rest) := span isHostChar url in
  negb (isEmpty host) && (isEmpty rest || startsWith (js "/") rest).

(** The fragment embeds the href: it holds [href=], the href between double
    quotes. *)
Definition embedsHref (href fragment : jsstring) : bool :=
  includes (js "href=" ++ [34%N] ++ href ++ [34%N]) fragment.

(** The link helper as the specification describes it: on an url that is
    not a placeholder, the href is the url itself when it has a scheme,
    [mailto:] and the url for a bare e-mail address, [https://] and the url
    for a bare host. *)
Definition makeHyperlinkProperty : Prop :=
  forall (url : jsstring) (text : option jsstring),
    ~ placeholderUrl url ->
    (hasScheme url = true -> embedsHref url (makeClickableLink url text) = true)
    /\ (isBareEmail url = true ->
        embedsHref (js "mailto:" ++ url) (makeClickableLink url text) = true)
    /\ (isBareHost url = true ->
        embedsHref (js "https://" ++ url) (makeClickableLink url text) = true).


(** ** Vocabulary for the further properties *)

(** The levels [generateSkillBar] accepts. *)
Definition levelInRange (level : Z) : Prop := (-2 <= level <= 102)%Z.

(** The doubles of the program round a level to the fill count of the exact
    computation. *)
Definition sameRounding (level : Z) : bool :=
  match filledBarsDouble level with
  | Some filled => (filled =? filledBarsOf level)%Z
  | None => false
  end.

(** Every skill of the data file has a level the bar accepts. *)
Definition levelsInRange (data : PortfolioData) : Prop :=
  forall category group skill,
    In (category, group) data.(skills) -> In skill group ->
    levelInRange skill.(Skill.level).

(** What a loop that only pushes [f x index] builds. *)
Fixpoint mapIndexed {A B} (f : A -> nat -> B) (index : nat) (l : list A) : list B :=
  match l with
  | [] => []
  | x :: rest => f x index :: mapIndexed f (S index) rest
  end.

(** The entry of the history is shown: its output is an array. *)
Definition hasLines (output : OutputValue) : Prop :=
  exists l, output = Lines l.

(** The input names no member of [Object.prototype]. *)
Definition namesNoPrototypeMember `{Host} (input : jsstring) : Prop :=
  ~ In (commandOf input) objectPrototypeKeys.

Definition typesNoPrototypeMember `{Host} (e : Event) : Prop :=
  match e with
  | Change _ value => namesNoPrototypeMember value
  | _ => True
  end.

(** The number of lines of the skills block: the title and a blank line,
    and for each category its heading, a line per skill and a blank line. *)
Definition skillsLineCount (data : PortfolioData) : nat :=
  2 + list_sum (map (fun group : jsstring * list Skill.t =>
                       2 + List.length (snd group)) data.(skills)).

(** The sample data with a single skill of the given level. *)
Definition sampleDataWithLevel (level : Z) : PortfolioData :=
  {| personal := sampleData.(personal);
     about := sampleData.(about);
     skills := [ (js "Languages",
                  [ {| Skill.name := js "Rust"; Skill.level := level |} ]) ];
     projects := sampleData.(projects);
     education := sampleData.(education);
     contact := sampleData.(contact);
     files := sampleData.(files);
     system := sampleData.(system) |}.

(** The times at which the events of a sequence happen. *)
Definition eventTimes (events : list Event) : list Z :=
  flat_map (fun e => match e with
                     | Tick now | Change now _ | Submit now | Resolved now => [now]
                     | DownloadTimer => []
                     end) events.

(** Nothing in the state is [undefined], and the input field names no
    member of [Object.prototype]. *)
Definition renderable `{Host} (st : AppState) : Prop :=
  Forall (fun c => hasLines c.(Command.output)) (commands st)
  /\ Forall (fun call : jsstring * OutputValue => hasLines (snd call))
            (awaiting st)
  /\ namesNoPrototypeMember (currentInput st).


(** The block of one project: its numbered heading, the lines of its
    description, the three fixed lines and a blank line. *)
Definition projectBlock (project : Project.t) (index : nat) : list jsstring :=
  [ Number_toString (Z.of_nat index + 1) ++ js ". " ++ project.(Project.name) ]
  ++ formatDescription project.(Project.description) []
  ++ [ baseIndent ++ firstLineItemPrefix ++ js "Tech Stack: "
       ++ project.(Project.techStack);
       baseIndent ++ firstLineItemPrefix ++ js "GitHub: "
       ++ makeClickableLink project.(Project.github) None;
       baseIndent ++ lastLineItemPrefix ++ js "Status: "
       ++ project.(Project.status);
       js "" ].

(** The wrap state with lines put in front of its result. *)
Definition prepend (lines : list jsstring) (st : WrapState) : WrapState :=
  {| result := lines ++ result st;
     isFirstLineOfOverallDescriptionOutput :=
       isFirstLineOfOverallDescriptionOutput st |}.

(** The lines pushed for a description so far: none yet, or the line with
    the label and a text followed by lines with the continuation prefix. *)
Definition shaped (st : WrapState) : Prop :=
  (isFirstLineOfOverallDescriptionOutput st = true /\ result st = [])
  \/ (isFirstLineOfOverallDescriptionOutput st = false
      /\ exists b rest,
           result st
           = (baseIndent ++ firstLineItemPrefix ++ descriptionLabel ++ b) :: rest
           /\ b <> []
           /\ Forall (fun line =>
                        startsWith (baseIndent ++ subsequentLineItemPrefix) line
                        = true) rest).

(** The first word of a text. *)
Definition firstWord (text : jsstring) : jsstring :=
  hd [] (split (js " ") text).

(** A run of lines is greedy when the first word of each line after the
    first would not have fit at the end of the line before it. *)
Fixpoint greedy (texts : list jsstring) : Prop :=
  match texts with
  | [] => True
  | a :: rest =>
      match rest with
      | [] => True
      | b :: _ => 75 < List.length a + 1 + List.length (firstWord b)
      end
      /\ greedy rest
  end.

(** The runs of lines are those of the paragraphs, one run for each
    paragraph in order: a single empty line for a paragraph that is all
    white space and comes after a paragraph with a word ([seen]), and for
    any other paragraph a greedy run that holds exactly its words. *)
Fixpoint wrapsParagraphs (seen : bool) (segments : list jsstring)
    (runs : list (list jsstring)) : Prop :=
  match segments, runs with
  | [], [] => True
  | segment :: segments', run :: runs' =>
      (if isEmpty (trim segment) && seen
       then run = [js ""]
       else greedy run /\ flat_map words run = words segment)
      /\ wrapsParagraphs (seen || hasWord segment) segments' runs'
  | _, _ => False
  end.

(** The line buffer as the flush after the loop pushes it. *)
Definition flushed (lineBuffer : jsstring) : list jsstring :=
  if isEmpty lineBuffer then [] else [lineBuffer].

(** * Properties *)

(** ** Facts about the string primitives *)

Lemma eqb_eq (a b : jsstring) : eqb a b = true <-> a = b.
Proof.
  revert b. induction a as [|x a IH]; intros [|y b]; simpl; split;
    try congruence; try reflexivity.
  - intros E. apply andb_prop in E. destruct E as [E1 E2].
    apply N.eqb_eq in E1. apply IH in E2. congruence.
  - intros E. injection E as -> ->. rewrite N.eqb_refl. simpl.
    apply IH. reflexivity.
Qed.

Lemma eqb_refl (a : jsstring) : eqb a a = true.
Proof. apply eqb_eq. reflexivity. Qed.

Lemma eqb_neq (a b : jsstring) : eqb a b = false <-> a <> b.
Proof.
  split.
  - intros E Heq. apply eqb_eq in Heq. congruence.
  - intros Hne. destruct (eqb a b) eqn:E; [|reflexivity].
    apply eqb_eq in E. contradiction.
Qed.

Lemma eqb_nil (a : jsstring) : eqb a (js "") = isEmpty a.
Proof. destruct a; reflexivity. Qed.

Lemma isEmpty_true (a : jsstring) : isEmpty a = true <-> a = [].
Proof. destruct a; simpl; split; congruence. Qed.

Lemma isEmpty_false (a : jsstring) : isEmpty a = false <-> a <> [].
Proof. destruct a; simpl; split; congruence. Qed.

Lemma startsWith_app (p s : jsstring) : startsWith p (p ++ s) = true.
Proof.
  induction p as [|x p IH]; simpl; [reflexivity|].
  rewrite N.eqb_refl. exact IH.
Qed.

Lemma startsWith_skipn (p s : jsstring) :
  startsWith p s = true -> s = p ++ skipn (List.length p) s.
Proof.
  revert s. induction p as [|x p IH]; intros s E; [reflexivity|].
  destruct s as [|y s]; simpl in E; [discriminate|].
  apply andb_prop in E. destruct E as [E1 E2].
  apply N.eqb_eq in E1. subst y. simpl. f_equal. apply IH. exact E2.
Qed.

Lemma split_space_nil : split (js " ") [] = [[]].
Proof. reflexivity. Qed.

Lemma split_space_cons (c : char) (s : jsstring) :
  split (js " ") (c :: s)
  = if (c =? 32)%N then [] :: split (js " ") s
    else match split (js " ") s with
         | p :: ps => (c :: p) :: ps
         | [] => [[c]]
         end.
Proof.
  unfold split. change (js " ") with [32%N].
  cbn [split_go startsWith List.length Nat.sub].
  rewrite andb_true_r, N.eqb_sym.
  destruct (c =? 32)%N; destruct (split_go [32%N] s 0); reflexivity.
Qed.

Lemma split_space_nonempty (s : jsstring) : split (js " ") s <> [].
Proof. unfold split. destruct (split_go (js " ") s 0). discriminate. Qed.

(** ** The rounding of a skill level *)

Lemma filledBarsOf_div (level : Z) : filledBarsOf level = ((2 * level + 5) / 10)%Z.
Proof.
  set (r := ((2 * level + 5) / 10)%Z).
  unfold filledBarsOf, Math_round, totalBars, Qfloor. simpl. subst r.
  replace (level * 1 * 20 * 2 + 100)%Z with ((2 * level + 5) * 20)%Z by ring.
  change (Z.pos 200) with (10 * 20)%Z.
  apply Z.div_mul_cancel_r; lia.
Qed.

Lemma filledBarsOf_nearest (level : Z) :
  (10 * filledBarsOf level - 5 <= 2 * level < 10 * filledBarsOf level + 5)%Z.
Proof. rewrite filledBarsOf_div. Z.div_mod_to_equations. lia. Qed.

Lemma generateSkillBar_unfold (level : Z) :
  generateSkillBar level =
    if ((filledBarsOf level <? 0) || (totalBars - filledBarsOf level <? 0))%Z
    then Throw RangeError
    else Return (List.concat (List.repeat filledCell (Z.to_nat (filledBarsOf level)))
                 ++ List.concat (List.repeat blankCell
                                   (Z.to_nat (totalBars - filledBarsOf level)))).
Proof.
  unfold generateSkillBar, JS.repeat, bind.
  destruct (filledBarsOf level <? 0)%Z; [reflexivity|].
  destruct (totalBars - filledBarsOf level <? 0)%Z; reflexivity.
Qed.

(** ** makeClickableLink *)

Lemma orElse_label (label url : jsstring) :
  label <> js "" -> orElse (Some label) url = label.
Proof.
  intros Hl. destruct label; [exfalso; apply Hl; reflexivity | reflexivity].
Qed.

Lemma isPlaceholder_spec (url : jsstring) :
  isPlaceholder url = true <-> placeholderUrl url.
Proof.
  unfold isPlaceholder, placeholderUrl. rewrite !orb_true_iff.
  rewrite isEmpty_true, !eqb_eq. change (js "") with (@nil char). tauto.
Qed.

Lemma hrefOf_cases (url : jsstring) :
  (hasScheme url = true -> hrefOf url = url)
  /\ (hasScheme url = false -> includes (js "@") url = true ->
      hrefOf url = js "mailto:" ++ url)
  /\ (hasScheme url = false -> includes (js "@") url = false ->
      hrefOf url = js "https://" ++ url).
Proof.
  unfold hasScheme, hrefOf.
  destruct (startsWith (js "http://") url), (startsWith (js "https://") url),
    (startsWith (js "mailto:") url), (includes (js "@") url);
    simpl; repeat split; intros; congruence.
Qed.

Lemma span_app (p : char -> bool) (s : jsstring) :
  fst (span p s) ++ snd (span p s) = s.
Proof.
  induction s as [|c s IH]; [reflexivity|].
  simpl. destruct (p c); [|reflexivity].
  destruct (span p s) as [a b]. simpl in *. rewrite IH. reflexivity.
Qed.

Lemma includes_app (sub a b : jsstring) :
  includes sub b = true -> includes sub (a ++ b) = true.
Proof.
  intros Hb. induction a as [|c a IH]; [exact Hb|].
  simpl app. cbn [includes]. rewrite IH. apply orb_true_r.
Qed.

Lemma isBareEmail_at (url : jsstring) :
  isBareEmail url = true -> includes (js "@") url = true.
Proof.
  unfold isBareEmail. pose proof (span_app isLocalChar url) as Hs.
  destruct (span isLocalChar url) as [localPart rest]. simpl in Hs.
  intros E. apply andb_prop in E. destruct E as [_ E].
  destruct rest as [|c domain]; [discriminate E|].
  apply andb_prop in E. destruct E as [E _].
  apply andb_prop in E. destruct E as [E _].
  apply N.eqb_eq in E. subst c. rewrite <- Hs.
  apply includes_app. reflexivity.
Qed.

Lemma hasScheme_prefix (url : jsstring) :
  hasScheme url = true ->
  exists rest, url = js "http" ++ 58%N :: rest
               \/ url = js "https" ++ 58%N :: rest
               \/ url = js "mailto" ++ 58%N :: rest.
Proof.
  unfold hasScheme. rewrite !orb_true_iff.
  intros [[E|E]|E]; apply startsWith_skipn in E; eexists;
    [left | right; left | right; right]; exact E.
Qed.

Lemma isBareEmail_noScheme (url : jsstring) :
  isBareEmail url = true -> hasScheme url = false.
Proof.
  intros E. destruct (hasScheme url) eqn:Es; [|reflexivity].
  destruct (hasScheme_prefix url Es) as (rest & [->|[->| ->]]);
    vm_compute in E; discriminate E.
Qed.

Lemma isBareHost_noScheme (url : jsstring) :
  isBareHost url = true -> hasScheme url = false.
Proof.
  intros E. destruct (hasScheme url) eqn:Es; [|reflexivity].
  destruct (hasScheme_prefix url Es) as (rest & [->|[->| ->]]);
    vm_compute in E; discriminate E.
Qed.

(** C3, counterexample: [medium.com/@ada] is a host followed by a path and
    not an e-mail address, and it has no scheme; the [@] in its path makes
    the helper build a [mailto:] href, so the fragment does not embed
    [https://medium.com/@ada]. *)
Lemma makeClickableLink_bare_host_counterexample :
  isBareHost (js "medium.com/@ada") = true
  /\ isBareEmail (js "medium.com/@ada") = false
  /\ makeClickableLink (js "medium.com/@ada") None
     = js "<a href=" ++ [34%N] ++ js "mailto:medium.com/@ada" ++ [34%N]
       ++ js " target=" ++ [34%N] ++ js "_blank" ++ [34%N]
       ++ js " class=" ++ [34%N] ++ js "text-cyan-400 hover:underline"
       ++ [34%N] ++ js ">medium.com/@ada</a>"
  /\ embedsHref (js "https://medium.com/@ada")
       (makeClickableLink (js "medium.com/@ada") None) = false
  /\ ~ makeHyperlinkProperty.
Proof.
  split; [reflexivity|]. split; [reflexivity|]. split; [reflexivity|].
  split; [reflexivity|].
  intros Hp.
  destruct (Hp (js "medium.com/@ada") None) as (_ & _ & Hhost).
  - intros [Hu|[Hu|Hu]]; vm_compute in Hu; discriminate Hu.
  - specialize (Hhost eq_refl). vm_compute in Hhost. discriminate Hhost.
Qed.

(** C3, amended: on an empty, blank or ["#"] url, [makeClickableLink]
    returns the label (the url itself when no label is given, an empty label
    counting as none) and no markup.  On any other url it returns the anchor
    fragment, written out below, around the same label and an href that is
    the url as it is when it starts with [http://], [https://] or
    [mailto:], [mailto:] and the url when it has no such scheme and holds an
    [@] anywhere, and [https://] and the url otherwise.  So every bare
    e-mail address gets [mailto:], and a bare host gets [https://] when it
    holds no [@]. *)
Theorem makeClickableLink_spec (url : jsstring) (text : option jsstring) :
  (placeholderUrl url ->
     (forall label, text = Some label -> label <> js "" ->
        makeClickableLink url text = label)
     /\ (text = None \/ text = Some (js "") -> makeClickableLink url text = url))
  /\ (~ placeholderUrl url ->
      exists href displayText,
        makeClickableLink url text
        = js "<a href=" ++ [34%N] ++ href ++ [34%N]
          ++ js " target=" ++ [34%N] ++ js "_blank" ++ [34%N]
          ++ js " class=" ++ [34%N] ++ js "text-cyan-400 hover:underline"
          ++ [34%N] ++ js ">" ++ displayText ++ js "</a>"
        /\ (forall label, text = Some label -> label <> js "" ->
              displayText = label)
        /\ (text = None \/ text = Some (js "") -> displayText = url)
        /\ (hasScheme url = true -> href = url)
        /\ (hasScheme url = false -> includes (js "@") url = true ->
            href = js "mailto:" ++ url)
        /\ (hasScheme url = false -> includes (js "@") url = false ->
            href = js "https://" ++ url)
        /\ (isBareEmail url = true -> href = js "mailto:" ++ url)
        /\ (isBareHost url = true -> includes (js "@") url = false ->
            href = js "https://" ++ url)).
Proof.
  unfold makeClickableLink. split.
  - intros Hp. apply isPlaceholder_spec in Hp. rewrite Hp. split.
    + intros label -> Hl. apply orElse_label. exact Hl.
    + intros [->| ->]; reflexivity.
  - intros Hn. destruct (isPlaceholder url) eqn:E.
    + apply isPlaceholder_spec in E. contradiction.
    + exists (hrefOf url), (orElse text url).
      destruct (hrefOf_cases url) as (H1 & H2 & H3).
      split; [reflexivity|].
      split; [intros label -> Hl; apply orElse_label; exact Hl|].
      split; [intros [->| ->]; reflexivity|].
      split; [exact H1|]. split; [exact H2|]. split; [exact H3|]. split.
      * intros He. apply H2; [apply isBareEmail_noScheme | apply isBareEmail_at];
          exact He.
      * intros Hh Ha. apply H3; [apply isBareHost_noScheme; exact Hh | exact Ha].
Qed.

Lemma makeClickableLink_spec_witness :
  makeClickableLink (js "") (Some (js "x")) = js "x"
  /\ makeClickableLink (js "ada@example.org") None
     = js "<a href=" ++ [34%N] ++ js "mailto:ada@example.org" ++ [34%N]
       ++ js " target=" ++ [34%N] ++ js "_blank" ++ [34%N]
       ++ js " class=" ++ [34%N] ++ js "text-cyan-400 hover:underline"
       ++ [34%N] ++ js ">ada@example.org</a>".
Proof.
  split.
  - apply (proj1 (makeClickableLink_spec (js "") (Some (js "x")))).
    + left. reflexivity.
    + reflexivity.
    + discriminate.
  - destruct (proj2 (makeClickableLink_spec (js "ada@example.org") None))
      as (href & displayText & E & _ & Hd & _ & _ & _ & Hmail & _).
    + intros [Hp|[Hp|Hp]]; vm_compute in Hp; discriminate Hp.
    + rewrite E, (Hmail eq_refl), (Hd (or_introl eq_refl)). reflexivity.
Defined.

(** ** generateSkillBar *)

Lemma renderCells_bar (f b : nat) :
  renderCells (List.repeat true f ++ List.repeat false b)
  = List.concat (List.repeat filledCell f) ++ List.concat (List.repeat blankCell b).
Proof.
  unfold renderCells. rewrite flat_map_app. f_equal.
  - induction f as [|f IH]; simpl; [reflexivity|]. rewrite IH. reflexivity.
  - induction b as [|b IH]; simpl; [reflexivity|]. now rewrite IH.
Qed.

Lemma generateSkillBar_returns (level : Z) :
  (-2 <= level <= 102)%Z ->
  generateSkillBar level =
    Return (renderCells
              (List.repeat true (Z.to_nat (filledBarsOf level))
               ++ List.repeat false (Z.to_nat (totalBars - filledBarsOf level)))).
Proof.
  intros Hl. rewrite generateSkillBar_unfold, renderCells_bar.
  pose proof (filledBarsOf_nearest level) as Hn. unfold totalBars in *.
  destruct (filledBarsOf level <? 0)%Z eqn:E1; [apply Z.ltb_lt in E1; lia|].
  destruct (20 - filledBarsOf level <? 0)%Z eqn:E2; [apply Z.ltb_lt in E2; lia|].
  reflexivity.
Qed.

Lemma generateSkillBar_throws (level : Z) :
  (level < -2 \/ 102 < level)%Z -> generateSkillBar level = Throw RangeError.
Proof.
  intros Hl. rewrite generateSkillBar_unfold.
  pose proof (filledBarsOf_nearest level) as Hn. unfold totalBars in *.
  destruct (filledBarsOf level <? 0)%Z eqn:E1; [reflexivity|].
  destruct (20 - filledBarsOf level <? 0)%Z eqn:E2; [reflexivity|].
  apply Z.ltb_ge in E1, E2. lia.
Qed.

(** C4, counterexample: at level 103 the blank part is [' '.repeat(-1)], at
    level -3 the filled part is ['...'.repeat(-1)]; both throw. *)
Lemma generateSkillBar_total_counterexample :
  generateSkillBar 103 = Throw RangeError
  /\ generateSkillBar (-3) = Throw RangeError
  /\ ~ generateSkillBar_total.
Proof.
  split; [reflexivity|]. split; [reflexivity|].
  intros Htotal. destruct (Htotal 103%Z) as [bar Hbar]. discriminate Hbar.
Qed.

(** C4, amended: [generateSkillBar] returns a string exactly for the integer
    levels from -2 to 102, those whose rounded fill count lies between 0 and
    20; for every other integer level it throws a [RangeError]. *)
Theorem generateSkillBar_range (level : Z) :
  ((-2 <= level <= 102)%Z -> exists bar, generateSkillBar level = Return bar)
  /\ ((level < -2 \/ 102 < level)%Z -> generateSkillBar level = Throw RangeError).
Proof.
  split.
  - intros Hl. eexists. apply generateSkillBar_returns. exact Hl.
  - apply generateSkillBar_throws.
Qed.

Lemma generateSkillBar_range_witness :
  (exists bar, generateSkillBar 102 = Return bar)
  /\ generateSkillBar (-40) = Throw RangeError.
Proof.
  split.
  - apply (proj1 (generateSkillBar_range 102)). lia.
  - apply (proj2 (generateSkillBar_range (-40))). lia.
Defined.




(** ** trim *)

Lemma trimStart_nil (s : jsstring) :
  trimStart s = [] <-> forallb isWhiteSpace s = true.
Proof.
  induction s as [|c s IH]; simpl; [tauto|].
  destruct (isWhiteSpace c); simpl; [exact IH|].
  split; discriminate.
Qed.

Lemma trimStart_head (s : jsstring) (c : char) (r : jsstring) :
  trimStart s = c :: r -> isWhiteSpace c = false.
Proof.
  induction s as [|x s IH]; simpl; [discriminate|].
  destruct (isWhiteSpace x) eqn:E; [exact IH|].
  intros Heq. injection Heq as -> _. exact E.
Qed.

Lemma trimStart_snoc (l : jsstring) (c : char) :
  isWhiteSpace c = false -> trimStart (l ++ [c]) = trimStart l ++ [c].
Proof.
  intros Hc. induction l as [|x l IH]; simpl.
  - rewrite Hc. reflexivity.
  - destruct (isWhiteSpace x); [exact IH | reflexivity].
Qed.

Lemma trim_blank (s : jsstring) :
  trim s = [] <-> forallb isWhiteSpace s = true.
Proof.
  unfold trim, trimEnd. rewrite <- trimStart_nil. split.
  - intros E. destruct (trimStart s) as [|c r] eqn:Es; [reflexivity|].
    exfalso. pose proof (trimStart_head _ Es) as Hc.
    simpl in E. rewrite trimStart_snoc in E by exact Hc.
    rewrite rev_app_distr in E. discriminate E.
  - intros ->. reflexivity.
Qed.

Lemma trim_head (s : jsstring) :
  trim s <> [] -> exists c r, trim s = c :: r /\ isWhiteSpace c = false.
Proof.
  unfold trim, trimEnd. destruct (trimStart s) as [|c r] eqn:Es.
  - intros Hn. exfalso. apply Hn. reflexivity.
  - intros _. pose proof (trimStart_head _ Es) as Hc.
    simpl. rewrite trimStart_snoc by exact Hc. rewrite rev_app_distr.
    simpl. eauto.
Qed.

(** ** The dispatcher *)

Lemma push_nonempty {A} (l : list A) (x : A) : push l x <> [].
Proof. unfold push. destruct l; discriminate. Qed.

Lemma forEach_from_invariant {A S} (P : S -> Prop) (body : A -> nat -> S -> S)
    (l : list A) :
  (forall x i s, P s -> P (body x i s)) ->
  forall i s, P s -> P (forEach_from i l body s).
Proof.
  intros Hbody. induction l as [|x l IH]; intros i s Hs; simpl; [exact Hs|].
  apply IH. apply Hbody. exact Hs.
Qed.

Lemma forEach_invariant {A S} (P : S -> Prop) (body : A -> nat -> S -> S)
    (l : list A) (s : S) :
  (forall x i s, P s -> P (body x i s)) -> P s -> P (forEach l body s).
Proof.
  intros Hbody Hs. unfold forEach. apply forEach_from_invariant; assumption.
Qed.

Lemma setCOMMANDS_fields (c : Commands.t) (st : AppState) :
  commands (setCOMMANDS c st) = commands st
  /\ isTyping (setCOMMANDS c st) = isTyping st
  /\ awaiting (setCOMMANDS c st) = awaiting st
  /\ currentInput (setCOMMANDS c st) = currentInput st.
Proof. repeat split. Qed.

Section Dispatch.

Context `{Host}.
Variable portfolioData : PortfolioData.

Lemma toLowerCase_nil : toLowerCase (js "") = js "".
Proof. apply toLowerCase_plain. reflexivity. Qed.

Lemma commandOf_blank (input : jsstring) :
  trim input = js "" -> commandOf input = js "".
Proof. unfold commandOf. intros ->. rewrite toLowerCase_nil. reflexivity. Qed.

Lemma commandOf_nonblank (input : jsstring) :
  trim input <> js "" -> commandOf input <> js "".
Proof.
  intros Hn. destruct (trim_head input Hn) as (c & r & Et & Hc).
  unfold commandOf. rewrite Et.
  destruct (toLowerCase_head c r) as (c' & s' & El & Hsp). rewrite El.
  assert (Hc' : (c' =? 32)%N = false).
  { apply N.eqb_neq. intros E. apply Hsp in E. subst c. discriminate Hc. }
  rewrite split_space_cons, Hc'.
  destruct (split (js " ") s'); discriminate.
Qed.

Lemma commandOf_plain (name : jsstring) :
  isPlainLower name = true -> trim name = name ->
  hd (js "") (split (js " ") name) = name -> commandOf name = name.
Proof.
  intros Hp Ht Hs. unfold commandOf. rewrite Ht, (toLowerCase_plain _ Hp).
  exact Hs.
Qed.

(** The three ways [executeCommand] leaves the state. *)
Lemma executeCommand_cases (input : jsstring) (st : AppState) :
  executeCommand portfolioData input st
  = setIsTyping false
      (setCurrentInput (js "") (setCommands (fun _ => []) (setIsTyping true st)))
  \/ (exists output,
        executeCommand portfolioData input st
        = await input output (setIsTyping true st))
  \/ (exists output,
        executeCommand portfolioData input st
        = await input output (setDownloadTimeout (setIsTyping true st))).
Proof.
  unfold executeCommand.
  destruct (eqb (commandOf input) (js "")); [right; left; eauto|].
  destruct (eqb (commandOf input) (js "clear")); [left; reflexivity|].
  destruct (eqb (commandOf input) (js "resume")); [right; left; eauto|].
  destruct (eqb (commandOf input) (js "download")); [right; right; eauto|].
  destruct (getProperty _ _); right; left; eauto.
Qed.

Lemma render_Return (now : Z) (st st' : AppState) :
  render portfolioData now st = Return st' ->
  exists c, st' = setCOMMANDS c st.
Proof.
  unfold render, bind.
  destruct (generateCommands portfolioData now); [|discriminate].
  destruct (renderCommands (commands st)); [|discriminate].
  intros E. injection E as <-. eauto.
Qed.

Lemma run_Throw (e : Error) (events : list Event) :
  run portfolioData (Throw e) events = Throw e.
Proof. induction events as [|ev events IH]; simpl; [reflexivity | exact IH]. Qed.

(** A property of the mounted state that every handler keeps holds after
    every sequence of events the component survives. *)
Lemma run_invariant (P : AppState -> Prop) :
  (forall e st st', P st -> handle portfolioData e st = Return st' -> P st') ->
  forall events app st,
    (forall st0, app = Return st0 -> P st0) ->
    run portfolioData app events = Return st -> P st.
Proof.
  intros Hstep. induction events as [|ev events IH]; intros app st Happ Hrun.
  - apply Happ. exact Hrun.
  - simpl in Hrun. apply (IH (step portfolioData app ev)); [|exact Hrun].
    intros st1 E1. destruct app as [st0|e]; [|discriminate E1].
    simpl in E1. apply (Hstep ev st0 st1); [apply Happ; reflexivity | exact E1].
Qed.

Lemma mount_Return (now : Z) (st : AppState) :
  mount portfolioData now = Return st ->
  commands st = [welcomeCommand portfolioData now]
  /\ isTyping st = false /\ awaiting st = [].
Proof.
  unfold mount, bind.
  destruct (generateCommands portfolioData now); [|discriminate].
  intros E. apply render_Return in E. destruct E as [c ->].
  repeat split.
Qed.

Lemma singleFlight_handle (e : Event) (st st' : AppState) :
  singleFlight st -> handle portfolioData e st = Return st' -> singleFlight st'.
Proof.
  intros Hinv. destruct e as [now|now value|now|now|]; simpl.
  - intros E. apply render_Return in E. destruct E as [c ->]. exact Hinv.
  - destruct (isTyping st) eqn:Et.
    + intros E. injection E as <-. exact Hinv.
    + intros E. apply render_Return in E. destruct E as [c ->].
      destruct Hinv as [[Ht _]|[_ Ha]]; [congruence|].
      right. simpl. rewrite Et. auto.
  - unfold handleSubmit.
    destruct (negb (isEmpty (trim (currentInput st))) && negb (isTyping st))
      eqn:Eg.
    + intros E. apply render_Return in E. destruct E as [c ->].
      apply andb_prop in Eg. destruct Eg as [_ Et].
      apply negb_true_iff in Et.
      destruct Hinv as [[Ht _]|[_ Ha]]; [congruence|].
      destruct (executeCommand_cases (currentInput st) st)
        as [-> | [[output ->] | [output ->]]]; simpl.
      * right. simpl. auto.
      * left. simpl. rewrite Ha. auto.
      * left. simpl. rewrite Ha. auto.
    + intros E. injection E as <-. exact Hinv.
  - destruct (awaiting st) as [|[input output] rest] eqn:Ea.
    + intros E. injection E as <-. exact Hinv.
    + intros E. apply render_Return in E. destruct E as [c ->].
      destruct Hinv as [[_ Hl]|[_ Ha]]; [|congruence].
      rewrite Ea in Hl. destruct rest; [|discriminate Hl].
      right. unfold resumeCommand. rewrite Ea. simpl. rewrite Ea. auto.
  - intros E. injection E as <-. exact Hinv.
Qed.

Lemma submittedInputs_handle (w : Command.t) (e : Event) (st st' : AppState) :
  submittedInputs w st -> handle portfolioData e st = Return st' ->
  submittedInputs w st'.
Proof.
  intros [Hc Ha]. destruct e as [now|now value|now|now|]; simpl.
  - intros E. apply render_Return in E. destruct E as [c ->]. split; assumption.
  - destruct (isTyping st).
    + intros E. injection E as <-. split; assumption.
    + intros E. apply render_Return in E. destruct E as [c ->].
      split; assumption.
  - unfold handleSubmit.
    destruct (negb (isEmpty (trim (currentInput st))) && negb (isTyping st))
      eqn:Eg.
    + intros E. apply render_Return in E. destruct E as [c ->].
      apply andb_prop in Eg. destruct Eg as [En _].
      apply negb_true_iff, isEmpty_false in En.
      destruct (executeCommand_cases (currentInput st) st)
        as [-> | [[output ->] | [output ->]]]; simpl; split; simpl.
      * intros c0 [].
      * exact Ha.
      * exact Hc.
      * intros i o Hin. apply in_app_or in Hin. destruct Hin as [Hin|[Hin|[]]].
        -- exact (Ha _ _ Hin).
        -- injection Hin as <- _. exact En.
      * exact Hc.
      * intros i o Hin. apply in_app_or in Hin. destruct Hin as [Hin|[Hin|[]]].
        -- exact (Ha _ _ Hin).
        -- injection Hin as <- _. exact En.
    + intros E. injection E as <-. split; assumption.
  - destruct (awaiting st) as [|[input output] rest] eqn:Ea.
    + intros E. injection E as <-. split; [exact Hc|]. rewrite Ea. exact Ha.
    + intros E. apply render_Return in E. destruct E as [c ->].
      unfold resumeCommand. rewrite Ea. split; simpl.
      * intros c0 Hin. apply in_app_or in Hin. destruct Hin as [Hin|[Hin|[]]].
        -- exact (Hc _ Hin).
        -- right. subst c0. simpl. apply (Ha input output). left. reflexivity.
      * rewrite Ea. simpl. intros i o Hin. apply (Ha i o). right. exact Hin.
  - intros E. injection E as <-. split; assumption.
Qed.

(** *** Known commands *)

Lemma skillsOutput_nonempty (l : list jsstring) :
  skillsOutput portfolioData = Return l -> l <> [].
Proof.
  unfold skillsOutput. revert l.
  apply (forEach_invariant (fun acc => forall l, acc = Return l -> l <> [])).
  - intros [category skills] i acc _ l. destruct acc as [r|e]; simpl; [|discriminate].
    destruct (forEach skills _ _); simpl; [|discriminate].
    intros E. injection E as <-. apply push_nonempty.
  - intros l E. injection E as <-. discriminate.
Qed.

Lemma projectsOutput_nonempty : projectsOutput portfolioData <> [].
Proof.
  unfold projectsOutput.
  apply (forEach_invariant (fun r : list jsstring => r <> [])).
  - intros. apply push_nonempty.
  - discriminate.
Qed.

Lemma formatFileList_nonempty : formatFileList portfolioData <> [].
Proof.
  unfold formatFileList.
  apply (forEach_invariant (fun r : list jsstring => r <> [])).
  - intros. apply push_nonempty.
  - discriminate.
Qed.

Lemma generateCommands_Return (now : Z) (reg : Commands.t) :
  generateCommands portfolioData now = Return reg ->
  reg.(Commands.help).(CommandEntry.output) = helpOutput
  /\ reg.(Commands.about).(CommandEntry.output) = aboutOutput portfolioData
  /\ skillsOutput portfolioData = Return reg.(Commands.skills).(CommandEntry.output)
  /\ reg.(Commands.projects).(CommandEntry.output) = projectsOutput portfolioData
  /\ reg.(Commands.education).(CommandEntry.output) = educationOutput portfolioData
  /\ reg.(Commands.contact).(CommandEntry.output) = contactOutput portfolioData
  /\ reg.(Commands.resume).(CommandEntry.output) = resumeOutput portfolioData
  /\ reg.(Commands.whoami).(CommandEntry.output)
     = [portfolioData.(personal).(Personal.username)]
  /\ reg.(Commands.pwd).(CommandEntry.output)
     = [js "/home/" ++ portfolioData.(personal).(Personal.username)
        ++ js "/portfolio"]
  /\ reg.(Commands.ls).(CommandEntry.output) = formatFileList portfolioData
  /\ reg.(Commands.date).(CommandEntry.output) = [Date_toString now]
  /\ reg.(Commands.neofetch).(CommandEntry.output) = neofetchOutput portfolioData.
Proof.
  unfold generateCommands, bind.
  destruct (skillsOutput portfolioData) as [skills|e]; [|discriminate].
  intros E. injection E as <-. repeat split.
Qed.

Lemma commandOf_name (name : jsstring) :
  In name commandNames -> commandOf name = name.
Proof.
  intros Hin. apply commandOf_plain;
    repeat (destruct Hin as [<-|Hin]; [reflexivity|]); destruct Hin.
Qed.

(** C1, amended: for every registered command name, [date] included,
    dispatch hands over the non-empty output stored under that name in the
    registry it runs with; the output of [date] is the timestamp taken when
    that registry was built (each render builds one), whatever the time of
    the dispatch. *)
Theorem dispatch_registered (tb : Z) (st : AppState) (name : jsstring) :
  generateCommands portfolioData tb = Return (COMMANDS st) ->
  In name commandNames ->
  exists entry,
    getProperty (COMMANDS st) name = Own entry
    /\ entry.(CommandEntry.output) <> []
    /\ executeCommand portfolioData name st
       = await name (Lines entry.(CommandEntry.output)) (setIsTyping true st)
    /\ (name = js "date" -> entry.(CommandEntry.output) = [Date_toString tb]).
Proof.
  intros Hreg Hin.
  pose proof (commandOf_name Hin) as Hcmd.
  apply generateCommands_Return in Hreg.
  destruct Hreg as (Hhelp & Habout & Hskills & Hprojects & Hedu & Hcontact
                    & Hresume & Hwhoami & Hpwd & Hls & Hdate & Hneo).
  unfold executeCommand. rewrite Hcmd.
  repeat (destruct Hin as [<-|Hin];
          [eexists; split; [reflexivity|]; split; [|split; [reflexivity|]]|]);
    try destruct Hin; try discriminate.
  - rewrite Hhelp. discriminate.
  - rewrite Habout. discriminate.
  - apply skillsOutput_nonempty. exact Hskills.
  - rewrite Hprojects. apply projectsOutput_nonempty.
  - rewrite Hedu. unfold educationOutput. apply push_nonempty.
  - rewrite Hcontact. discriminate.
  - rewrite Hresume. discriminate.
  - rewrite Hwhoami. discriminate.
  - rewrite Hpwd. discriminate.
  - rewrite Hls. apply formatFileList_nonempty.
  - rewrite Hdate. discriminate.
  - intros _. exact Hdate.
  - rewrite Hneo. discriminate.
Qed.

(** *** Unknown commands *)

Lemma executeCommand_notFound (input : jsstring) (st : AppState) :
  commandOf input <> js "" -> commandOf input <> js "clear" ->
  commandOf input <> js "resume" -> commandOf input <> js "download" ->
  getProperty (COMMANDS st) (commandOf input) = Absent ->
  executeCommand portfolioData input st
  = await input
      (Lines [ js "Command not found: " ++ commandOf input;
               js "Type " ++ dq ++ js "help" ++ dq
               ++ js " to see available commands." ])
      (setIsTyping true st).
Proof.
  intros H1 H2 H3 H4 Hp. unfold executeCommand.
  apply eqb_neq in H1, H2, H3, H4. rewrite H1, H2, H3, H4.
  change (COMMANDS (setIsTyping true st)) with (COMMANDS st). rewrite Hp.
  reflexivity.
Qed.

Lemma executeCommand_inherited (input : jsstring) (st : AppState) :
  In (commandOf input) objectPrototypeKeys ->
  executeCommand portfolioData input st
  = await input Undefined (setIsTyping true st).
Proof.
  intros Hin. unfold executeCommand.
  repeat (destruct Hin as [<-|Hin]; [reflexivity|]). destruct Hin.
Qed.

(** *** clear and the empty command *)

(** C7: dispatching an input whose command is [clear] empties the history
    and suspends no call, so no entry is appended for it. *)
Theorem executeCommand_clear (input : jsstring) (st : AppState) :
  commandOf input = js "clear" ->
  commands (executeCommand portfolioData input st) = []
  /\ awaiting (executeCommand portfolioData input st) = awaiting st
  /\ isTyping (executeCommand portfolioData input st) = false
  /\ forall now,
       awaiting st = [] ->
       commands (resumeCommand now (executeCommand portfolioData input st)) = [].
Proof.
  intros Hc. unfold executeCommand. rewrite Hc. simpl.
  repeat split. intros now Ha. unfold resumeCommand. simpl. rewrite Ha.
  reflexivity.
Qed.

(** C8: when the command name is empty, the call waits with the single
    blank line as its output, and when it resumes it appends the entry that
    records the input as given and that output. *)
Theorem executeCommand_empty (input : jsstring) (st : AppState) (now : Z) :
  commandOf input = js "" ->
  awaiting st = [] ->
  awaiting (executeCommand portfolioData input st) = [(input, Lines [js ""])]
  /\ commands (executeCommand portfolioData input st) = commands st
  /\ commands (resumeCommand now (executeCommand portfolioData input st))
     = commands st
       ++ [ {| Command.input := input; Command.output := Lines [js ""];
               Command.timestamp := now |} ].
Proof.
  intros Hc Ha. unfold executeCommand. rewrite Hc. simpl.
  unfold resumeCommand. simpl. rewrite Ha. simpl. repeat split.
Qed.

(** *** One command at a time *)

Lemma singleFlight_run (t0 : Z) (events : list Event) (st : AppState) :
  run portfolioData (mount portfolioData t0) events = Return st ->
  singleFlight st.
Proof.
  apply run_invariant.
  - intros e s s'. apply singleFlight_handle.
  - intros st0 E. apply mount_Return in E. destruct E as (_ & Ht & Ha).
    right. auto.
Qed.

(** C9: in every state the mounted component reaches, at most one call of
    [executeCommand] is suspended, [isTyping] is set exactly while one is,
    and while it is set a submission changes nothing: no second resolution
    starts before the first has appended its entry and reset the flag. *)
Theorem single_flight (t0 : Z) (events : list Event) (st : AppState) :
  run portfolioData (mount portfolioData t0) events = Return st ->
  List.length (awaiting st) <= 1
  /\ (isTyping st = true <-> List.length (awaiting st) = 1)
  /\ (isTyping st = true ->
      forall now, handle portfolioData (Submit now) st = Return st)
  /\ (isTyping st = true ->
      forall now st',
        handle portfolioData (Resolved now) st = Return st' ->
        isTyping st' = false /\ awaiting st' = []
        /\ List.length (commands st') = S (List.length (commands st))).
Proof.
  intros Hrun. apply singleFlight_run in Hrun.
  destruct Hrun as [[Ht Hl]|[Ht Ha]].
  - split; [lia|]. split; [tauto|]. split.
    + intros _ now. simpl. unfold handleSubmit. rewrite Ht.
      rewrite andb_false_r. reflexivity.
    + intros _ now st'. simpl.
      destruct (awaiting st) as [|[input output] rest] eqn:Ea; [discriminate Hl|].
      destruct rest; [|discriminate Hl].
      intros E. apply render_Return in E. destruct E as [c ->].
      unfold resumeCommand. rewrite Ea. simpl. rewrite Ea. simpl.
      rewrite length_app. simpl. repeat split. lia.
  - rewrite Ha, Ht. simpl. split; [lia|]. split; [split; discriminate|].
    split; discriminate.
Qed.

(** C10: a submission whose input is empty or blank is rejected by
    [handleSubmit]: the state, the history included, stays as it is and no
    call starts.  Hence every entry of the history other than the welcome
    message has an input with a character that is not white space, and a
    call that [handleSubmit] does start never takes the empty-command
    branch. *)
Theorem blank_submission_rejected :
  (forall (st : AppState) (now : Z),
     trim (currentInput st) = js "" ->
     handleSubmit portfolioData st = None
     /\ handle portfolioData (Submit now) st = Return st)
  /\ (forall (t0 : Z) (events : list Event) (st : AppState),
        run portfolioData (mount portfolioData t0) events = Return st ->
        forall c, In c (commands st) ->
          c = welcomeCommand portfolioData t0
          \/ trim c.(Command.input) <> js "")
  /\ (forall st st' : AppState,
        handleSubmit portfolioData st = Some st' ->
        commandOf (currentInput st) <> js ""
        /\ st' = executeCommand portfolioData (currentInput st) st).
Proof.
  split; [|split].
  - intros st now Hb. simpl. unfold handleSubmit. rewrite Hb. auto.
  - intros t0 events st Hrun.
    assert (Hinv : submittedInputs (welcomeCommand portfolioData t0) st).
    { revert Hrun. apply run_invariant.
      - intros e s s'. apply submittedInputs_handle.
      - intros st0 E. apply mount_Return in E. destruct E as (Hc & _ & Ha).
        split.
        + rewrite Hc. intros c [<-|[]]. left. reflexivity.
        + rewrite Ha. intros i o []. }
    exact (proj1 Hinv).
  - intros st st'. unfold handleSubmit.
    destruct (negb (isEmpty (trim (currentInput st))) && negb (isTyping st))
      eqn:Eg; [|discriminate].
    intros E. injection E as <-.
    apply andb_prop in Eg. destruct Eg as [En _].
    apply negb_true_iff, isEmpty_false in En.
    split; [|reflexivity]. apply commandOf_nonblank. exact En.
Qed.

End Dispatch.

(** ** The dispatcher on the sample data *)

Lemma dispatch_registered_witness :
  exists st entry,
    mount sampleData 0 = Return st
    /\ getProperty (COMMANDS st) (js "date") = Own entry
    /\ entry.(CommandEntry.output) <> []
    /\ executeCommand sampleData (js "date") st
       = await (js "date") (Lines entry.(CommandEntry.output))
           (setIsTyping true st)
    /\ entry.(CommandEntry.output) = [utcString 0].
Proof.
  destruct (mount sampleData 0) as [st|e] eqn:E;
    [|vm_compute in E; discriminate E].
  destruct (@dispatch_registered utcHost sampleData 0 st (js "date"))
    as (entry & H1 & H2 & H3 & H4).
  - vm_compute in E. injection E as <-. vm_compute. reflexivity.
  - vm_compute. tauto.
  - exists st, entry. repeat split; try assumption. apply H4. reflexivity.
Defined.

(** C1, counterexample: the component is rendered at 900 ms, when "date" is
    typed, and the form is submitted at 1100 ms; the output handed over is
    the timestamp of 900 ms, a second behind that of the dispatch. *)
Lemma date_shows_dispatch_time_counterexample :
  (exists st st',
     run sampleData (mount sampleData 0) [Change 900 (js "date")] = Return st
     /\ generateCommands sampleData 900 = Return (COMMANDS st)
     /\ handle sampleData (Submit 1100) st = Return st'
     /\ awaiting st' = [(js "date", Lines [utcString 900])]
     /\ utcString 900 <> utcString 1100)
  /\ ~ dateShowsDispatchTime.
Proof.
  assert (Hex : exists st st',
             run sampleData (mount sampleData 0) [Change 900 (js "date")]
             = Return st
             /\ generateCommands sampleData 900 = Return (COMMANDS st)
             /\ handle sampleData (Submit 1100) st = Return st'
             /\ awaiting st' = [(js "date", Lines [utcString 900])]
             /\ utcString 900 <> utcString 1100
             /\ currentInput st = js "date" /\ isTyping st = false
             /\ awaiting st = []).
  { eexists. eexists.
    split; [vm_compute; reflexivity|].
    split; [vm_compute; reflexivity|].
    split; [vm_compute; reflexivity|].
    split; [vm_compute; reflexivity|].
    split; [intros E; vm_compute in E; discriminate E|].
    repeat split. }
  destruct Hex as (st & st' & Hrun & Hreg & Hsub & Haw & Hne & Hin & Hty & Hidle).
  split.
  - exists st, st'. auto.
  - intros Hclaim.
    pose proof (Hclaim utcHost sampleData 900%Z 1100%Z st st'
                  Hreg Hin Hty Hidle Hsub) as Hnow.
    rewrite Haw in Hnow. vm_compute in Hnow. discriminate Hnow.
Qed.

(** C6, at the input "constructor": the name is not a command, yet
    [COMMANDS["constructor"]] is the inherited [Object] function, so the
    output is [undefined] instead of the two-line message, and the render
    that follows the append throws. *)
Theorem constructor_command_crashes :
  commandOf (js "constructor") = js "constructor"
  /\ ~ In (js "constructor") commandNames
  /\ (forall st,
        executeCommand sampleData (js "constructor") st
        = await (js "constructor") Undefined (setIsTyping true st))
  /\ run sampleData (mount sampleData 0)
       [Change 10 (js "constructor"); Submit 20; Resolved 320]
     = Throw TypeError.
Proof.
  split; [reflexivity|]. split.
  - intros Hin. vm_compute in Hin.
    repeat (destruct Hin as [Hin|Hin]; [discriminate Hin|]). exact Hin.
  - split; [|vm_compute; reflexivity].
    intros st. apply executeCommand_inherited. vm_compute. tauto.
Qed.

(** What the claim says does hold for "bogus", on any host. *)
Lemma executeCommand_bogus `{Host} (data : PortfolioData) (st : AppState) :
  executeCommand data (js "bogus") st
  = await (js "bogus")
      (Lines [ js "Command not found: bogus";
               js "Type " ++ dq ++ js "help" ++ dq
               ++ js " to see available commands." ])
      (setIsTyping true st).
Proof.
  assert (Hc : commandOf (js "bogus") = js "bogus")
    by (apply commandOf_plain; reflexivity).
  rewrite executeCommand_notFound; rewrite Hc;
    try reflexivity; discriminate.
Qed.

Lemma executeCommand_clear_witness :
  exists st,
    mount sampleData 0 = Return st
    /\ commands (executeCommand sampleData (js "  Clear ") st) = []
    /\ awaiting (executeCommand sampleData (js "  Clear ") st) = awaiting st
    /\ isTyping (executeCommand sampleData (js "  Clear ") st) = false.
Proof.
  destruct (mount sampleData 0) as [st|e] eqn:E;
    [|vm_compute in E; discriminate E].
  destruct (@executeCommand_clear utcHost sampleData (js "  Clear ") st)
    as (H1 & H2 & H3 & _); [reflexivity|].
  exists st. auto.
Defined.

Lemma executeCommand_empty_witness :
  exists st,
    mount sampleData 0 = Return st
    /\ awaiting (executeCommand sampleData (js "   ") st)
       = [(js "   ", Lines [js ""])]
    /\ commands (resumeCommand 300 (executeCommand sampleData (js "   ") st))
       = commands st
         ++ [ {| Command.input := js "   "; Command.output := Lines [js ""];
                 Command.timestamp := 300 |} ].
Proof.
  destruct (mount sampleData 0) as [st|e] eqn:E;
    [|vm_compute in E; discriminate E].
  destruct (@executeCommand_empty utcHost sampleData (js "   ") st 300%Z)
    as (H1 & _ & H3).
  - reflexivity.
  - apply (mount_Return sampleData 0 E).
  - exists st. auto.
Defined.

Lemma single_flight_witness :
  exists st,
    run sampleData (mount sampleData 0) [Change 10 (js "help"); Submit 20]
    = Return st
    /\ isTyping st = true
    /\ List.length (awaiting st) <= 1
    /\ (forall now, handle sampleData (Submit now) st = Return st).
Proof.
  destruct (run sampleData (mount sampleData 0)
              [Change 10 (js "help"); Submit 20]) as [st|e] eqn:E;
    [|vm_compute in E; discriminate E].
  destruct (@single_flight utcHost sampleData 0
              [Change 10 (js "help"); Submit 20] st E)
    as (Hle & Hiff & Hrej & _).
  assert (Ht : isTyping st = true).
  { vm_compute in E. injection E as <-. reflexivity. }
  exists st. repeat split; auto.
Defined.

Lemma blank_submission_rejected_witness :
  (exists st,
     run sampleData (mount sampleData 0) [Change 10 (js "   ")] = Return st
     /\ handle sampleData (Submit 20) st = Return st)
  /\ exists st,
       run sampleData (mount sampleData 0)
         [Change 10 (js "   "); Submit 20; Change 30 (js "pwd"); Submit 40;
          Resolved 340]
       = Return st
       /\ forall c, In c (commands st) ->
            c = welcomeCommand sampleData 0 \/ trim c.(Command.input) <> js "".
Proof.
  destruct (@blank_submission_rejected utcHost sampleData) as (Hrej & Hhist & _).
  split.
  - destruct (run sampleData (mount sampleData 0) [Change 10 (js "   ")])
      as [st|e] eqn:E; [|vm_compute in E; discriminate E].
    exists st. split; [reflexivity|]. apply Hrej.
    vm_compute in E. injection E as <-. reflexivity.
  - destruct (run sampleData (mount sampleData 0)
                [Change 10 (js "   "); Submit 20; Change 30 (js "pwd");
                 Submit 40; Resolved 340]) as [st|e] eqn:E;
      [|vm_compute in E; discriminate E].
    exists st. split; [reflexivity|]. apply (Hhist 0%Z _ st E).
Defined.

(** ** The wrap loop *)

Lemma split_space_app (a b : jsstring) :
  split (js " ") (a ++ 32%N :: b) = split (js " ") a ++ split (js " ") b.
Proof.
  induction a as [|c a IH].
  - simpl app. rewrite split_space_cons. reflexivity.
  - change ((c :: a) ++ 32%N :: b) with (c :: (a ++ 32%N :: b)).
    rewrite !split_space_cons, IH.
    destruct (c =? 32)%N; [reflexivity|].
    destruct (split (js " ") a) as [|p ps] eqn:E; [|reflexivity].
    exfalso. apply (split_space_nonempty a). exact E.
Qed.

Lemma words_app_space (a b : jsstring) :
  words (a ++ 32%N :: b) = words a ++ words b.
Proof. unfold words. rewrite split_space_app, filter_app. reflexivity. Qed.

Lemma split_space_noSpace (w : jsstring) :
  noSpace w -> split (js " ") w = [w].
Proof.
  unfold noSpace. induction w as [|c w IH]; intros Hn; [reflexivity|].
  simpl in Hn. apply andb_prop in Hn. destruct Hn as [H1 H2].
  apply negb_true_iff in H1.
  rewrite split_space_cons, H1, (IH H2). reflexivity.
Qed.

Lemma words_noSpace (w : jsstring) :
  noSpace w -> words w = filter (fun w => negb (isEmpty w)) [w].
Proof. intros Hn. unfold words. rewrite (split_space_noSpace Hn). reflexivity. Qed.

Lemma split_space_pieces (s : jsstring) : Forall noSpace (split (js " ") s).
Proof.
  induction s as [|c s IH].
  - repeat constructor.
  - rewrite split_space_cons. destruct (c =? 32)%N eqn:E.
    + constructor; [reflexivity | exact IH].
    + destruct (split (js " ") s) as [|p ps].
      * repeat constructor. unfold noSpace. simpl. rewrite E. reflexivity.
      * inversion IH as [|? ? Hp Hps]; subst. constructor; [|exact Hps].
        unfold noSpace in *. simpl. rewrite E. exact Hp.
Qed.

Lemma words_join (ls : list jsstring) :
  words (join (js " ") ls) = flat_map words ls.
Proof.
  induction ls as [|x ls IH]; [reflexivity|].
  destruct ls as [|y r].
  - simpl. rewrite app_nil_r. reflexivity.
  - change (join (js " ") (x :: y :: r))
      with (x ++ 32%N :: join (js " ") (y :: r)).
    rewrite words_app_space, IH. reflexivity.
Qed.

Lemma skipn_length_app {A} (p b : list A) : skipn (List.length p) (p ++ b) = b.
Proof. induction p as [|x p IH]; simpl; [reflexivity | exact IH]. Qed.

Lemma textContent_first (b : jsstring) :
  textContent (baseIndent ++ firstLineItemPrefix ++ descriptionLabel ++ b) = b.
Proof.
  unfold textContent. cbv zeta.
  replace (baseIndent ++ firstLineItemPrefix ++ descriptionLabel ++ b)
    with ((baseIndent ++ firstLineItemPrefix ++ descriptionLabel) ++ b)
    by (rewrite <- !app_assoc; reflexivity).
  rewrite startsWith_app, skipn_length_app. reflexivity.
Qed.

Lemma textContent_continuation (b : jsstring) :
  textContent (baseIndent ++ subsequentLineItemPrefix
               ++ descriptionContinuationIndent ++ b) = b.
Proof.
  unfold textContent. cbv zeta.
  replace (baseIndent ++ subsequentLineItemPrefix
           ++ descriptionContinuationIndent ++ b)
    with ((baseIndent ++ subsequentLineItemPrefix
           ++ descriptionContinuationIndent) ++ b)
    by (rewrite <- !app_assoc; reflexivity).
  assert (E : startsWith (baseIndent ++ firstLineItemPrefix ++ descriptionLabel)
                ((baseIndent ++ subsequentLineItemPrefix
                  ++ descriptionContinuationIndent) ++ b) = false)
    by (vm_compute; reflexivity).
  rewrite E, startsWith_app, skipn_length_app. reflexivity.
Qed.

Lemma contents_push (st : WrapState) (line : jsstring) (first : bool) :
  contents {| result := push (result st) line;
              isFirstLineOfOverallDescriptionOutput := first |}
  = contents st ++ [textContent line].
Proof. unfold contents, push. simpl. rewrite map_app. reflexivity. Qed.

Lemma contents_pushLine (b : jsstring) (st : WrapState) :
  contents (pushLine b st) = contents st ++ [b].
Proof.
  unfold pushLine. destruct (isFirstLineOfOverallDescriptionOutput st);
    rewrite contents_push.
  - rewrite textContent_first. reflexivity.
  - rewrite textContent_continuation. reflexivity.
Qed.

(** What one run of the loop over the words of a segment pushes, and what
    it leaves in the line buffer. *)
Lemma wrapWords_spec (ws : list jsstring) :
  Forall noSpace ws ->
  forall (buf : jsstring) (st : WrapState) (buf' : jsstring) (st' : WrapState),
    List.length buf <= textContentWidth ->
    wrapWords ws buf st = (buf', st') ->
    exists pushed,
      contents st' = contents st ++ pushed
      /\ flat_map words pushed ++ words buf'
         = words buf ++ filter (fun w => negb (isEmpty w)) ws
      /\ List.length buf' <= textContentWidth
      /\ Forall (fun t => List.length t <= textContentWidth
                          \/ In t (filter (fun w => negb (isEmpty w)) ws))
                pushed.
Proof.
  induction 1 as [|word rest Hword Hrest IH]; intros buf st buf' st' Hbuf Hrun.
  - simpl in Hrun. injection Hrun as <- <-. exists [].
    rewrite !app_nil_r. simpl. auto.
  - cbn [wrapWords] in Hrun. rewrite !eqb_nil in Hrun.
    match type of Hrun with
    | context [wrapWords rest ?pl st] => remember pl as potentialLine eqn:Epl
    end.
    match type of Hrun with
    | context [wrapWords rest word ?s] => remember s as st1 eqn:Est1
    end.
    assert (Hpot : words potentialLine = words buf ++ words word).
    { subst potentialLine. destruct buf as [|c buf]; [reflexivity|].
      change (isEmpty (c :: buf)) with false. cbv iota.
      change ((c :: buf) ++ js " " ++ word) with ((c :: buf) ++ 32%N :: word).
      apply words_app_space. }
    assert (Hkeep : forall (P : jsstring -> Prop) l,
               Forall (fun t => P t \/ In t (filter (fun w => negb (isEmpty w)) rest)) l ->
               Forall (fun t => P t
                         \/ In t (filter (fun w => negb (isEmpty w)) (word :: rest))) l).
    { intros P l. apply Forall_impl. intros t [Ht|Ht]; [left; exact Ht|].
      right. simpl. destruct (negb (isEmpty word)); [right|]; exact Ht. }
    assert (Hfilter : filter (fun w => negb (isEmpty w)) (word :: rest)
                      = words word ++ filter (fun w => negb (isEmpty w)) rest).
    { rewrite (words_noSpace Hword). simpl.
      destruct (negb (isEmpty word)); reflexivity. }
    destruct (List.length potentialLine <=? textContentWidth) eqn:Efit.
    + apply Nat.leb_le in Efit.
      destruct (IH _ _ _ _ Efit Hrun) as (pushed & Hc & Hw & Hl & Hf).
      exists pushed. split; [exact Hc|]. split; [|split; [exact Hl|]].
      * rewrite Hw, Hpot, Hfilter, app_assoc. reflexivity.
      * apply Hkeep. exact Hf.
    + assert (H1 : exists p1, contents st1 = contents st ++ p1
                              /\ flat_map words p1 = words buf
                              /\ Forall (fun t => List.length t <= textContentWidth) p1).
      { subst st1. destruct buf as [|c buf].
        - exists []. rewrite app_nil_r. simpl. auto.
        - exists [c :: buf]. simpl negb. cbv iota. rewrite contents_pushLine.
          simpl. rewrite app_nil_r. auto. }
      destruct H1 as (p1 & Hc1 & Hw1 & Hf1).
      destruct ((textContentWidth <? List.length word) && negb (isEmpty word))
        eqn:Elong.
      * destruct (IH (js "") (pushLine word st1) buf' st') as (pushed & Hc & Hw & Hl & Hf).
        { simpl. unfold textContentWidth. lia. }
        { exact Hrun. }
        apply andb_prop in Elong. destruct Elong as [_ Hne].
        exists (p1 ++ [word] ++ pushed).
        split; [|split; [|split; [exact Hl|]]].
        -- rewrite Hc, contents_pushLine, Hc1, <- !app_assoc. reflexivity.
        -- rewrite !flat_map_app, Hw1. simpl flat_map.
           rewrite app_nil_r, <- !app_assoc, Hw, Hfilter. reflexivity.
        -- apply Forall_app. split; [|apply Forall_app; split].
           ++ revert Hf1. apply Forall_impl. intros t Ht. left. exact Ht.
           ++ constructor; [|constructor]. right. simpl. rewrite Hne.
              left. reflexivity.
           ++ apply Hkeep. exact Hf.
      * destruct (IH word st1 buf' st') as (pushed & Hc & Hw & Hl & Hf).
        { apply andb_false_iff in Elong. destruct Elong as [E|E].
          - apply Nat.ltb_ge in E. exact E.
          - apply negb_false_iff, isEmpty_true in E. subst word.
            simpl. unfold textContentWidth. lia. }
        { exact Hrun. }
        exists (p1 ++ pushed).
        split; [|split; [|split; [exact Hl|]]].
        -- rewrite Hc, Hc1, <- app_assoc. reflexivity.
        -- rewrite flat_map_app, Hw1, <- app_assoc, Hw, Hfilter. reflexivity.
        -- apply Forall_app. split.
           ++ revert Hf1. apply Forall_impl. intros t Ht. left. exact Ht.
           ++ apply Hkeep. exact Hf.
Qed.

(** *** The first line and the later ones *)

Lemma wrapWords_cons (word : jsstring) (rest : list jsstring) (buf : jsstring)
    (st : WrapState) :
  wrapWords (word :: rest) buf st
  = if List.length (if isEmpty buf then word else buf ++ 32%N :: word)
       <=? textContentWidth
    then wrapWords rest (if isEmpty buf then word else buf ++ 32%N :: word) st
    else if (textContentWidth <? List.length word) && negb (isEmpty word)
         then wrapWords rest []
                (pushLine word (if isEmpty buf then st else pushLine buf st))
         else wrapWords rest word (if isEmpty buf then st else pushLine buf st).
Proof.
  cbn [wrapWords]. rewrite !eqb_nil. destruct (isEmpty buf); reflexivity.
Qed.

Lemma pushLine_notFirst (b : jsstring) (st : WrapState) :
  isFirstLineOfOverallDescriptionOutput (pushLine b st) = false.
Proof.
  unfold pushLine. destruct (isFirstLineOfOverallDescriptionOutput st);
    reflexivity.
Qed.

Lemma pushLine_shaped (b : jsstring) (st : WrapState) :
  b <> [] -> shaped st -> shaped (pushLine b st).
Proof.
  intros Hb [[Hf Hr]|(Hf & b0 & rest & Hr & Hb0 & Hrest)];
    unfold pushLine; rewrite Hf, Hr; right;
    cbn [isFirstLineOfOverallDescriptionOutput result];
    (split; [reflexivity|]).
  - exists b, []. unfold push. cbn [app]. auto.
  - exists b0, (rest ++ [baseIndent ++ subsequentLineItemPrefix
                         ++ descriptionContinuationIndent ++ b]).
    unfold push. split; [reflexivity|]. split; [exact Hb0|].
    apply Forall_app. split; [exact Hrest|]. constructor; [|constructor].
    rewrite app_assoc. apply startsWith_app.
Qed.

Lemma wrapWords_shaped (ws : list jsstring) :
  forall buf st, shaped st -> shaped (snd (wrapWords ws buf st)).
Proof.
  induction ws as [|word rest IH]; intros buf st Hst; [exact Hst|].
  rewrite wrapWords_cons.
  destruct (List.length (if isEmpty buf then word else buf ++ 32%N :: word)
            <=? textContentWidth); [apply IH; exact Hst|].
  assert (H1 : shaped (if isEmpty buf then st else pushLine buf st)).
  { destruct buf; [exact Hst|]. apply pushLine_shaped; [discriminate | exact Hst]. }
  destruct ((textContentWidth <? List.length word) && negb (isEmpty word)) eqn:E.
  - apply IH. apply pushLine_shaped; [|exact H1].
    apply andb_prop in E. destruct E as [_ E].
    apply negb_true_iff, isEmpty_false in E. exact E.
  - apply IH. exact H1.
Qed.

Lemma wrapWords_notFirst (ws : list jsstring) :
  forall buf st,
    isFirstLineOfOverallDescriptionOutput st = false ->
    isFirstLineOfOverallDescriptionOutput (snd (wrapWords ws buf st)) = false.
Proof.
  induction ws as [|word rest IH]; intros buf st Hst; [exact Hst|].
  rewrite wrapWords_cons.
  destruct (List.length (if isEmpty buf then word else buf ++ 32%N :: word)
            <=? textContentWidth); [apply IH; exact Hst|].
  assert (H1 : isFirstLineOfOverallDescriptionOutput
                 (if isEmpty buf then st else pushLine buf st) = false).
  { destruct (isEmpty buf); [exact Hst | apply pushLine_notFirst]. }
  destruct ((textContentWidth <? List.length word) && negb (isEmpty word)).
  - apply IH. apply pushLine_notFirst.
  - apply IH. exact H1.
Qed.

(** With a word to place, the loop ends with a line pushed or a buffer to
    flush. *)
Lemma wrapWords_progress (ws : list jsstring) :
  forall buf st,
    buf <> [] \/ Exists (fun w => w <> []) ws ->
    fst (wrapWords ws buf st) <> []
    \/ isFirstLineOfOverallDescriptionOutput (snd (wrapWords ws buf st)) = false.
Proof.
  induction ws as [|word rest IH]; intros buf st Hw.
  - destruct Hw as [Hb|Hex]; [left; exact Hb | inversion Hex].
  - rewrite wrapWords_cons.
    assert (Hcases : buf <> [] \/ word <> []
                     \/ (buf = [] /\ word = [] /\ Exists (fun w => w <> []) rest)).
    { destruct buf as [|c buf]; [|left; discriminate].
      destruct word as [|c word]; [|right; left; discriminate].
      right. right. destruct Hw as [Hb|Hex]; [contradiction|].
      inversion Hex as [? ? Hx|? ? Hx]; subst; [contradiction|]. auto. }
    destruct (List.length (if isEmpty buf then word else buf ++ 32%N :: word)
              <=? textContentWidth).
    + apply IH. destruct Hcases as [Hb|[Hwd|(-> & -> & Hex)]].
      * left. destruct buf; [contradiction | discriminate].
      * left. destruct buf; [exact Hwd | discriminate].
      * right. exact Hex.
    + destruct ((textContentWidth <? List.length word) && negb (isEmpty word)).
      * right. apply wrapWords_notFirst. apply pushLine_notFirst.
      * destruct Hcases as [Hb|[Hwd|(-> & -> & Hex)]].
        -- right. apply wrapWords_notFirst.
           destruct buf; [contradiction | apply pushLine_notFirst].
        -- apply IH. left. exact Hwd.
        -- apply IH. right. exact Hex.
Qed.

Lemma wrapWords_empty (ws : list jsstring) (st : WrapState) :
  Forall (fun w => w = []) ws -> wrapWords ws [] st = ([], st).
Proof.
  induction 1 as [|word rest -> _ IH]; [reflexivity|].
  rewrite wrapWords_cons. exact IH.
Qed.

Lemma filter_nonempty_nil (l : list jsstring) :
  filter (fun w => negb (isEmpty w)) l = [] -> Forall (fun w => w = []) l.
Proof.
  induction l as [|w l IH]; [constructor|].
  simpl. destruct w; simpl; [|discriminate].
  intros E. constructor; [reflexivity | apply IH; exact E].
Qed.

Lemma filter_nonempty_Exists (l : list jsstring) :
  filter (fun w => negb (isEmpty w)) l <> [] -> Exists (fun w => w <> []) l.
Proof.
  induction l as [|w l IH]; [intros Hn; contradiction Hn; reflexivity|].
  simpl. destruct w; simpl.
  - intros Hn. right. apply IH. exact Hn.
  - intros _. left. discriminate.
Qed.

Lemma wrapSegment_shaped (segment : jsstring) (st : WrapState) :
  shaped st -> shaped (wrapSegment segment st).
Proof.
  intros Hst. unfold wrapSegment.
  destruct (eqb (trim segment) (js "")
            && negb (isFirstLineOfOverallDescriptionOutput st)) eqn:Eb.
  - apply andb_prop in Eb. destruct Eb as [_ Ef]. apply negb_true_iff in Ef.
    destruct Hst as [[Hf _]|(_ & b0 & rest & Hr & Hb0 & Hrest)]; [congruence|].
    right. cbn [isFirstLineOfOverallDescriptionOutput result].
    split; [exact Ef|].
    exists b0, (rest ++ [baseIndent ++ subsequentLineItemPrefix]).
    rewrite Hr. unfold push. split; [reflexivity|]. split; [exact Hb0|].
    apply Forall_app. split; [exact Hrest|]. constructor; [|constructor].
    vm_compute. reflexivity.
  - pose proof (wrapWords_shaped (split (js " ") segment) (js "") Hst) as Hw.
    destruct (wrapWords (split (js " ") segment) (js "") st) as [buf st'].
    simpl in Hw. rewrite eqb_nil.
    destruct buf; simpl; [exact Hw|].
    apply pushLine_shaped; [discriminate | exact Hw].
Qed.

Lemma wrapSegment_notFirst (segment : jsstring) (st : WrapState) :
  isFirstLineOfOverallDescriptionOutput st = false ->
  isFirstLineOfOverallDescriptionOutput (wrapSegment segment st) = false.
Proof.
  intros Hst. unfold wrapSegment. rewrite Hst.
  destruct (eqb (trim segment) (js "") && negb false); [reflexivity|].
  pose proof (wrapWords_notFirst (split (js " ") segment) (js "") st Hst) as Hw.
  destruct (wrapWords (split (js " ") segment) (js "") st) as [buf st'].
  simpl in Hw. destruct (negb (eqb buf (js "")));
    [apply pushLine_notFirst | exact Hw].
Qed.

Lemma wrapSegment_words (segment : jsstring) (st : WrapState) :
  words segment <> [] ->
  isFirstLineOfOverallDescriptionOutput (wrapSegment segment st) = false.
Proof.
  intros Hw.
  destruct (isFirstLineOfOverallDescriptionOutput st) eqn:Hf;
    [|apply wrapSegment_notFirst; exact Hf].
  unfold wrapSegment. rewrite Hf, andb_false_r.
  pose proof (@wrapWords_progress (split (js " ") segment) (js "") st
                (or_intror (@filter_nonempty_Exists _ Hw))) as Hp.
  destruct (wrapWords (split (js " ") segment) (js "") st) as [buf st'].
  simpl in Hp. rewrite eqb_nil.
  destruct buf; simpl; [|apply pushLine_notFirst].
  destruct Hp as [Hp|Hp]; [contradiction Hp; reflexivity | exact Hp].
Qed.

Lemma wrapSegment_nowords (segment : jsstring) (st : WrapState) :
  words segment = [] ->
  isFirstLineOfOverallDescriptionOutput st = true ->
  wrapSegment segment st = st.
Proof.
  intros Hw Hf. unfold wrapSegment. rewrite Hf, andb_false_r.
  change (js "") with (@nil char).
  rewrite (@wrapWords_empty _ st (@filter_nonempty_nil _ Hw)). reflexivity.
Qed.

Lemma wrapSegments_shaped (segments : list jsstring) :
  forall i st,
    shaped st ->
    shaped (forEach_from i segments
              (fun segment (_ : nat) st => wrapSegment segment st) st).
Proof.
  induction segments as [|segment segments IH]; intros i st Hst; [exact Hst|].
  simpl. apply IH. apply wrapSegment_shaped. exact Hst.
Qed.

Lemma wrapSegments_notFirst (segments : list jsstring) :
  forall i st,
    isFirstLineOfOverallDescriptionOutput st = false ->
    isFirstLineOfOverallDescriptionOutput
      (forEach_from i segments
         (fun segment (_ : nat) st => wrapSegment segment st) st) = false.
Proof.
  induction segments as [|segment segments IH]; intros i st Hst; [exact Hst|].
  simpl. apply IH. apply wrapSegment_notFirst. exact Hst.
Qed.

Lemma wrapSegments_words (segments : list jsstring) :
  forall i st,
    flat_map words segments <> [] ->
    isFirstLineOfOverallDescriptionOutput
      (forEach_from i segments
         (fun segment (_ : nat) st => wrapSegment segment st) st) = false.
Proof.
  induction segments as [|segment segments IH]; intros i st Hw.
  - contradiction Hw. reflexivity.
  - simpl. destruct (words segment) as [|w ws] eqn:Es.
    + apply IH. simpl in Hw. rewrite Es in Hw. exact Hw.
    + apply wrapSegments_notFirst. apply wrapSegment_words.
      rewrite Es. discriminate.
Qed.

Lemma wrapSegments_nowords (segments : list jsstring) :
  forall i st,
    flat_map words segments = [] ->
    isFirstLineOfOverallDescriptionOutput st = true ->
    forEach_from i segments
      (fun segment (_ : nat) st => wrapSegment segment st) st = st.
Proof.
  induction segments as [|segment segments IH]; intros i st Hw Hf; [reflexivity|].
  simpl in Hw. apply app_eq_nil in Hw. destruct Hw as [Hw1 Hw2].
  simpl. rewrite (@wrapSegment_nowords segment st Hw1 Hf). apply IH; assumption.
Qed.

(** *** The segments *)

(** What the loop pushes for one segment. *)
Lemma wrapSegment_spec (segment : jsstring) (st : WrapState) :
  exists pushed,
    contents (wrapSegment segment st) = contents st ++ pushed
    /\ flat_map words pushed
       = (if isEmpty (trim segment)
             && negb (isFirstLineOfOverallDescriptionOutput st)
          then [] else words segment)
    /\ (isEmpty (trim segment)
        && negb (isFirstLineOfOverallDescriptionOutput st) = true ->
        pushed = [js ""])
    /\ Forall (fun t => List.length t <= textContentWidth
                        \/ In t (words segment)) pushed.
Proof.
  unfold wrapSegment. rewrite eqb_nil.
  destruct (isEmpty (trim segment)
            && negb (isFirstLineOfOverallDescriptionOutput st)) eqn:Eb.
  - exists [js ""]. rewrite contents_push. split; [reflexivity|].
    split; [reflexivity|]. split; [reflexivity|].
    constructor; [|constructor]. left. simpl. unfold textContentWidth. lia.
  - destruct (wrapWords (split (js " ") segment) (js "") st) as [buf' st'] eqn:Ew.
    destruct (wrapWords_spec (split_space_pieces segment) (js "") st
                ltac:(simpl; unfold textContentWidth; lia) Ew)
      as (pushed & Hc & Hw & Hl & Hf).
    change (words (js "") ++ filter (fun w => negb (isEmpty w))
                               (split (js " ") segment))
      with (words segment) in Hw.
    fold (words segment) in Hf.
    rewrite eqb_nil. destruct buf' as [|c b].
    + exists pushed. simpl. rewrite app_nil_r in Hw.
      split; [exact Hc|]. split; [exact Hw|]. split; [discriminate | exact Hf].
    + exists (pushed ++ [c :: b]). simpl negb. cbv iota.
      rewrite contents_pushLine, Hc, <- app_assoc.
      split; [reflexivity|]. split; [|split; [discriminate|]].
      * rewrite flat_map_app. simpl. rewrite app_nil_r. exact Hw.
      * apply Forall_app. split; [exact Hf|]. constructor; [|constructor].
        left. exact Hl.
Qed.

(** A line has been pushed after a segment when one had been before it or
    the segment holds a word. *)
Lemma wrapSegment_seen (segment : jsstring) (st : WrapState) :
  negb (isFirstLineOfOverallDescriptionOutput (wrapSegment segment st))
  = negb (isFirstLineOfOverallDescriptionOutput st)
    || hasWord segment.
Proof.
  unfold hasWord. destruct (isFirstLineOfOverallDescriptionOutput st) eqn:Hf.
  - destruct (words segment) as [|w ws] eqn:Ew.
    + rewrite (wrapSegment_nowords segment st Ew Hf), Hf. reflexivity.
    + rewrite (@wrapSegment_words segment st); [reflexivity|].
      rewrite Ew. discriminate.
  - rewrite (wrapSegment_notFirst segment st Hf). reflexivity.
Qed.

Lemma wrapSegments_spec (segments : list jsstring) :
  forall (i : nat) (st : WrapState),
  exists pushed,
    contents (forEach_from i segments
                (fun segment _ st => wrapSegment segment st) st)
    = contents st ++ pushed
    /\ flat_map words pushed
       = keptWords (negb (isFirstLineOfOverallDescriptionOutput st)) segments
    /\ Forall (fun t => List.length t <= textContentWidth
                        \/ In t (flat_map words segments)) pushed.
Proof.
  induction segments as [|segment segments IH]; intros i st.
  - exists []. simpl. rewrite app_nil_r. auto.
  - simpl forEach_from.
    destruct (wrapSegment_spec segment st) as (p1 & Hc1 & Hw1 & _ & Hf1).
    destruct (IH (S i) (wrapSegment segment st)) as (p2 & Hc2 & Hw2 & Hf2).
    exists (p1 ++ p2). split; [|split].
    + rewrite Hc2, Hc1, <- app_assoc. reflexivity.
    + rewrite flat_map_app, Hw1, Hw2, wrapSegment_seen. reflexivity.
    + simpl. apply Forall_app. split.
      * revert Hf1. apply Forall_impl. intros t [Ht|Ht]; [left; exact Ht|].
        right. apply in_or_app. left. exact Ht.
      * revert Hf2. apply Forall_impl. intros t [Ht|Ht]; [left; exact Ht|].
        right. apply in_or_app. right. exact Ht.
Qed.

Lemma keptWords_length (segments : list jsstring) :
  forall seen,
    List.length (keptWords seen segments)
    + List.length (blankedWords seen segments)
    = List.length (flat_map words segments).
Proof.
  induction segments as [|segment segments IH]; intros seen; [reflexivity|].
  simpl. rewrite !length_app, <- (IH (seen || hasWord segment)).
  destruct (isEmpty (trim segment) && seen); simpl; lia.
Qed.

Lemma keptWords_all (segments : list jsstring) :
  forall seen,
    keptWords seen segments = flat_map words segments
    <-> blankedWords seen segments = [].
Proof.
  intros seen. split.
  - intros E. pose proof (keptWords_length segments seen) as Hl.
    rewrite E in Hl. apply length_zero_iff_nil. lia.
  - revert seen. induction segments as [|segment segments IH]; intros seen E;
      [reflexivity|].
    simpl in *. apply app_eq_nil in E. destruct E as [E1 E2].
    rewrite (IH _ E2). f_equal.
    destruct (isEmpty (trim segment) && seen); [symmetry; exact E1 | reflexivity].
Qed.

Lemma blankedWords_nil (segments : list jsstring) :
  forall seen,
    blankedWords seen segments = []
    <-> (forall before segment after,
           segments = before ++ segment :: after ->
           seen = true \/ flat_map words before <> [] ->
           trim segment = js "" -> words segment = []).
Proof.
  induction segments as [|s segments IH]; intros seen.
  - split; [|reflexivity].
    intros _ before segment after E. destruct before; discriminate E.
  - simpl. split.
    + intros E. apply app_eq_nil in E. destruct E as [E1 E2].
      intros before segment after Hs Hseen Ht.
      destruct before as [|b before]; simpl in Hs; injection Hs as <- Hs.
      * destruct Hseen as [->|Hn]; [|contradiction Hn; reflexivity].
        rewrite Ht in E1. exact E1.
      * apply (proj1 (IH _) E2 before segment after Hs); [|exact Ht].
        destruct Hseen as [->|Hn]; [left; reflexivity|].
        simpl in Hn. unfold hasWord. destruct (words s); [right; exact Hn|].
        left. apply orb_true_r.
    + intros Hall.
      assert (Hnil : forall a b : list jsstring, a = [] -> b = [] -> a ++ b = [])
        by (intros a b -> ->; reflexivity).
      apply Hnil.
      * destruct (isEmpty (trim s) && seen) eqn:Eb; [|reflexivity].
        apply andb_prop in Eb. destruct Eb as [Et ->].
        apply (Hall [] s segments eq_refl); [left; reflexivity|].
        apply isEmpty_true. exact Et.
      * apply IH. intros before segment after -> Hseen Ht.
        apply (Hall (s :: before) segment after eq_refl); [|exact Ht].
        destruct Hseen as [Hseen|Hn]; [|right; simpl; intros E;
          apply app_eq_nil in E; destruct E as [_ E]; contradiction].
        apply orb_true_iff in Hseen. destruct Hseen as [->|Hw];
          [left; reflexivity|].
        right. simpl. unfold hasWord in Hw.
        destruct (words s); [discriminate Hw | discriminate].
Qed.

(** White space holds no backslash: a blank description is one segment. *)
Lemma split_segments_blank (d : jsstring) :
  forallb isWhiteSpace d = true -> split (js "\n") d = [d].
Proof.
  intros Hd. unfold split.
  assert (E : split_go (js "\n") d 0 = (d, [])).
  { change (js "\n") with [92%N; 110%N].
    induction d as [|c d IH]; [reflexivity|].
    simpl in Hd. apply andb_prop in Hd. destruct Hd as [Hc Hd].
    cbn [split_go startsWith].
    destruct (N.eqb_spec 92 c) as [<-|Hne]; [discriminate Hc|].
    cbn [andb]. rewrite (IH Hd). reflexivity. }
  rewrite E. reflexivity.
Qed.

(** C2, counterexample, whatever a word is.  With the words the loop splits
    at, those between spaces: in the description [a], the two characters
    [\n], and a tab, the second paragraph is all white space, so an empty
    line is pushed for it and its word, the tab, is not in the produced
    text.  With words delimited by any white space: forty [a], a tab and
    forty [b] are two words and come out as one line of 81 characters.
    With words between spaces that hold a character other than white
    space: 76 tabs, a space and [a] give a line of 76 characters that is
    not a word. *)
Lemma wrap_keeps_words_counterexample :
  (wrappedText (js "a\n" ++ [9%N]) = [js "a"; js ""]
   /\ descriptionWords (js "a\n" ++ [9%N]) = [js "a"; [9%N]]
   /\ ~ wrapKeepsWords (js "a\n" ++ [9%N])
   /\ ~ wrapPropertyOf words)
  /\ (wrappedText (List.repeat 97%N 40 ++ [9%N] ++ List.repeat 98%N 40)
      = [List.repeat 97%N 40 ++ [9%N] ++ List.repeat 98%N 40]
      /\ whiteSpaceWords (List.repeat 97%N 40 ++ [9%N] ++ List.repeat 98%N 40)
         = [List.repeat 97%N 40; List.repeat 98%N 40]
      /\ List.length (List.repeat 97%N 40 ++ [9%N] ++ List.repeat 98%N 40) = 81
      /\ ~ wrapPropertyOf whiteSpaceWords)
  /\ (wrappedText (List.repeat 9%N 76 ++ js " a") = [List.repeat 9%N 76; js "a"]
      /\ visibleWords (List.repeat 9%N 76 ++ js " a") = [js "a"]
      /\ ~ wrapPropertyOf visibleWords).
Proof.
  split; [|split].
  - split; [reflexivity|]. split; [reflexivity|].
    assert (Hn : ~ wrapKeepsWords (js "a\n" ++ [9%N])).
    { intros Hk. vm_compute in Hk. discriminate Hk. }
    split; [exact Hn|].
    intros Hp. apply Hn. apply Hp.
  - split; [reflexivity|]. split; [reflexivity|]. split; [reflexivity|].
    intros Hp.
    destruct (Hp (List.repeat 97%N 40 ++ [9%N] ++ List.repeat 98%N 40))
      as [_ Hw].
    vm_compute in Hw. inversion Hw as [|text texts [Hlen|Hin] _]; subst.
    + lia.
    + destruct Hin as [Hin|[Hin|[]]]; discriminate Hin.
  - split; [reflexivity|]. split; [reflexivity|].
    intros Hp.
    destruct (Hp (List.repeat 9%N 76 ++ js " a")) as [_ Hw].
    vm_compute in Hw. inversion Hw as [|text texts [Hlen|Hin] _]; subst.
    + lia.
    + destruct Hin as [Hin|[]]. discriminate Hin.
Qed.

(** C2, amended: for any description, no produced line's text is longer
    than 75 characters unless it is, alone, a word of the description
    longer than that; and joining the produced texts with single spaces
    gives back the words of the description, in order, exactly when no
    word is rendered as a blank line: when the description, if it is all
    white space, holds nothing but spaces, and so does every paragraph that
    is all white space and comes after a paragraph with a word.  (Such a
    paragraph is rendered as an empty line whatever it holds; before the
    first word a paragraph goes through the loop over its words like any
    other.) *)
Theorem wrap_words_and_width (description : jsstring) :
  wrapWithinWidth description
  /\ (wrapKeepsWords description <-> blankLinesHoldNoWord description).
Proof.
  unfold wrapWithinWidth, wrapKeepsWords, blankLinesHoldNoWord,
    wrappedText, formatDescription, descriptionWords.
  destruct (negb (isEmpty description)
            && negb (eqb (trim description) (js ""))) eqn:E.
  - unfold forEach.
    match goal with
    | |- context [map textContent (result ?s)] =>
        change (map textContent (result s)) with (contents s)
    end.
    destruct (wrapSegments_spec (split (js "\n") description) 0
                {| result := [];
                   isFirstLineOfOverallDescriptionOutput := true |})
      as (pushed & Hc & Hw & Hf).
    change (contents {| result := [];
                        isFirstLineOfOverallDescriptionOutput := true |}
            ++ pushed) with pushed in Hc.
    cbn [isFirstLineOfOverallDescriptionOutput negb] in Hw.
    rewrite Hc. split; [exact Hf|].
    rewrite words_join, Hw, keptWords_all, blankedWords_nil.
    apply andb_prop in E. destruct E as [_ E].
    apply negb_true_iff, eqb_neq in E.
    split.
    + intros Hall. split; [intros Ht; contradiction|].
      intros before segment after Hs Hb. apply (Hall _ _ _ Hs). right. exact Hb.
    + intros [_ Hall] before segment after Hs [Hseen|Hb];
        [discriminate Hseen|].
      apply (Hall _ _ _ Hs Hb).
  - change (map textContent
              (push [] (baseIndent ++ firstLineItemPrefix ++ descriptionLabel)))
      with [js ""].
    split.
    + constructor; [|constructor]. left. simpl. lia.
    + change (words (join (js " ") [js ""])) with (@nil jsstring).
      assert (Ht : trim description = js "").
      { apply andb_false_iff in E. destruct E as [E|E].
        - apply negb_false_iff, isEmpty_true in E. subst description.
          reflexivity.
        - apply negb_false_iff, eqb_eq in E. exact E. }
      pose proof (split_segments_blank description
                    (proj1 (trim_blank description) Ht)) as Hs.
      rewrite Hs. simpl. rewrite app_nil_r. split.
      * intros Hw. split; [intros _; symmetry; exact Hw|].
        intros before segment after Hsplit Hb.
        destruct before as [|b before]; [contradiction Hb; reflexivity|].
        destruct before; discriminate Hsplit.
      * intros [Hw _]. symmetry. apply Hw. exact Ht.
Qed.

Lemma wrap_words_and_width_witness :
  wrapWithinWidth
    (js "A terminal styled portfolio that answers typed commands with blocks of text and wraps long descriptions.\n\nSecond paragraph.")
  /\ wrapKeepsWords
       (js "A terminal styled portfolio that answers typed commands with blocks of text and wraps long descriptions.\n\nSecond paragraph.")
  /\ wrapKeepsWords ([9%N] ++ js "\nb")
  /\ ~ blankLinesHoldNoWord (js "a\n" ++ [9%N]).
Proof.
  destruct (wrap_words_and_width
              (js "A terminal styled portfolio that answers typed commands with blocks of text and wraps long descriptions.\n\nSecond paragraph."))
    as [Hw Hk].
  split; [exact Hw|]. split; [|split].
  - apply Hk. split.
    + intros Ht. vm_compute in Ht. discriminate Ht.
    + intros before segment after Hs Hb Ht. vm_compute in Hs.
      destruct before as [|b1 before]; [contradiction Hb; reflexivity|].
      destruct before as [|b2 before].
      * injection Hs as _ <- _. reflexivity.
      * destruct before as [|b3 before].
        -- injection Hs as _ _ <- _. vm_compute in Ht. discriminate Ht.
        -- destruct before; discriminate Hs.
  - apply (proj2 (wrap_words_and_width ([9%N] ++ js "\nb"))). split.
    + intros Ht. vm_compute in Ht. discriminate Ht.
    + intros before segment after Hs Hb Ht. vm_compute in Hs.
      destruct before as [|b1 before]; [contradiction Hb; reflexivity|].
      destruct before as [|b2 before].
      * injection Hs as _ <- _. vm_compute in Ht. discriminate Ht.
      * destruct before; discriminate Hs.
  - intros Hb.
    apply (proj2 (wrap_words_and_width (js "a\n" ++ [9%N]))) in Hb.
    vm_compute in Hb. discriminate Hb.
Defined.

(** * Further properties *)

(** ** Links *)

(** X1: the href [makeClickableLink] builds always starts with one of the
    three schemes, and building the href of an href changes nothing: a
    scheme is never added twice. *)
Theorem hrefOf_idempotent (url : jsstring) :
  hasScheme (hrefOf url) = true /\ hrefOf (hrefOf url) = hrefOf url.
Proof.
  assert (Hs : hasScheme (hrefOf url) = true).
  { destruct (hasScheme url) eqn:E.
    - rewrite (proj1 (hrefOf_cases url) E). exact E.
    - destruct (includes (js "@") url) eqn:Ei.
      + rewrite (proj1 (proj2 (hrefOf_cases url)) E Ei).
        unfold hasScheme. rewrite (startsWith_app (js "mailto:") url).
        rewrite !orb_true_r. reflexivity.
      + rewrite (proj2 (proj2 (hrefOf_cases url)) E Ei).
        unfold hasScheme. rewrite (startsWith_app (js "https://") url).
        rewrite orb_true_r. reflexivity. }
  split; [exact Hs|]. apply (proj1 (hrefOf_cases (hrefOf url))). exact Hs.
Qed.

(** ** Skill bars *)

Lemma Z_range_forallb (p : Z -> bool) (lo : Z) (n : nat) :
  forallb (fun k => p (lo + Z.of_nat k)%Z) (seq 0 n) = true ->
  forall z, (lo <= z < lo + Z.of_nat n)%Z -> p z = true.
Proof.
  intros Hall z Hz. rewrite forallb_forall in Hall.
  replace z with (lo + Z.of_nat (Z.to_nat (z - lo)))%Z by lia.
  apply Hall. apply in_seq. lia.
Qed.

(** For every level from -1000 to 1000 the doubles of the program round to
    the fill count of the exact computation. *)
Lemma filledBarsOf_double (level : Z) :
  (-1000 <= level <= 1000)%Z ->
  filledBarsDouble level = Some (filledBarsOf level).
Proof.
  intros Hl.
  assert (Hs : sameRounding level = true).
  { apply (@Z_range_forallb sameRounding (-1000) 2001);
      [vm_compute; reflexivity | lia]. }
  unfold sameRounding in Hs.
  destruct (filledBarsDouble level) as [filled|]; [|discriminate Hs].
  apply Z.eqb_eq in Hs. rewrite Hs. reflexivity.
Qed.

(** Near 2^52 they part: the double of [level / 100 * 20] falls on a tie. *)
Lemma filledBarsOf_double_limit :
  filledBarsDouble (-4503599627370498) = Some (-900719925474099)%Z
  /\ filledBarsOf (-4503599627370498) = (-900719925474100)%Z
  /\ filledBarsDouble (-4503599627370498 + 5) = Some (-900719925474099)%Z.
Proof. repeat split; vm_compute; reflexivity. Qed.

(** X2: between levels for which a bar is produced (from -2 to 102), the
    fill count the program computes in doubles is the one of the exact
    rounding, a higher level never fills fewer cells, and five more points
    fill exactly one more cell. *)
Theorem filledBarsOf_monotone (level1 level2 : Z) :
  levelInRange level1 -> levelInRange level2 ->
  filledBarsDouble level1 = Some (filledBarsOf level1)
  /\ filledBarsDouble level2 = Some (filledBarsOf level2)
  /\ ((level1 <= level2)%Z -> (filledBarsOf level1 <= filledBarsOf level2)%Z)
  /\ (level2 = (level1 + 5)%Z -> filledBarsOf level2 = (filledBarsOf level1 + 1)%Z).
Proof.
  unfold levelInRange. intros H1 H2.
  split; [apply filledBarsOf_double; lia|].
  split; [apply filledBarsOf_double; lia|].
  rewrite !filledBarsOf_div. split.
  - intros Hle. apply Z.div_le_mono; lia.
  - intros ->.
    replace (2 * (level1 + 5) + 5)%Z with (2 * level1 + 5 + 1 * 10)%Z by ring.
    rewrite Z.div_add by lia. reflexivity.
Qed.

Lemma filledBarsOf_monotone_witness :
  filledBarsDouble 37 = Some (filledBarsOf 37)
  /\ filledBarsDouble 42 = Some (filledBarsOf 42)
  /\ (filledBarsOf 37 <= filledBarsOf 42)%Z
  /\ filledBarsOf 42 = (filledBarsOf 37 + 1)%Z.
Proof.
  destruct (@filledBarsOf_monotone 37 42) as (Hd1 & Hd2 & Hm & Hs).
  - unfold levelInRange. lia.
  - unfold levelInRange. lia.
  - split; [exact Hd1|]. split; [exact Hd2|].
    split; [apply Hm; lia | apply Hs; reflexivity].
Defined.

(** ** The skills block and the registry *)

Lemma levelInRange_dec (level : Z) : {levelInRange level} + {~ levelInRange level}.
Proof.
  unfold levelInRange.
  destruct (Z_le_dec (-2) level); destruct (Z_le_dec level 102);
    (left; lia) || (right; lia).
Qed.

Section SkillLoops.

(** The loop over the skills of a category, for any body that asks
    [generateSkillBar] for the bar of the skill and pushes one line. *)
Variable body : Skill.t -> nat -> Exc (list jsstring) -> Exc (list jsstring).
Hypothesis body_Return : forall skill index result,
  exists line : jsstring -> jsstring,
    body skill index (Return result)
    = bind (generateSkillBar skill.(Skill.level))
        (fun bar => Return (push result (line bar))).
Hypothesis body_Throw : forall skill index e,
  body skill index (Throw e) = Throw e.

Lemma skillLoop_Throw (e : Error) (group : list Skill.t) :
  forall i, forEach_from i group body (Throw e) = Throw e.
Proof.
  induction group as [|skill group IH]; intros i; simpl; [reflexivity|].
  rewrite body_Throw. apply IH.
Qed.

Lemma skillLoop_spec (group : list Skill.t) :
  forall i r,
    (Forall (fun skill => levelInRange skill.(Skill.level)) group ->
     exists r', forEach_from i group body (Return r) = Return r'
                /\ List.length r' = List.length r + List.length group)
    /\ (~ Forall (fun skill => levelInRange skill.(Skill.level)) group ->
        forEach_from i group body (Return r) = Throw RangeError).
Proof.
  induction group as [|skill group IH]; intros i r.
  - split.
    + intros _. exists r. simpl. split; [reflexivity | lia].
    + intros Hn. exfalso. apply Hn. constructor.
  - simpl forEach_from. destruct (body_Return skill i r) as [line ->].
    destruct (levelInRange_dec skill.(Skill.level)) as [Hin|Hout].
    + rewrite (generateSkillBar_returns Hin). simpl bind.
      match goal with
      | |- context [forEach_from (S i) group body (Return ?r1)] =>
          destruct (IH (S i) r1) as [IH1 IH2];
          assert (Hlen1 : List.length r1 = S (List.length r))
            by (unfold push; rewrite length_app; simpl; lia)
      end.
      split.
      * intros Hall. inversion Hall as [|? ? _ Hrest]; subst.
        destruct (IH1 Hrest) as (r' & Hr' & Hlen). exists r'.
        split; [exact Hr'|]. rewrite Hlen, Hlen1. simpl. lia.
      * intros Hn. apply IH2. intros Hrest. apply Hn. constructor; assumption.
    + assert (Hthrow : generateSkillBar (Skill.level skill) = Throw RangeError).
      { apply generateSkillBar_throws. unfold levelInRange in Hout. lia. }
      rewrite Hthrow. simpl bind. split.
      * intros Hall. inversion Hall; subst. contradiction.
      * intros _. apply skillLoop_Throw.
Qed.

End SkillLoops.

Section CategoryLoops.

(** The loop over the categories, for any body that pushes a heading, runs
    the loop over the skills and pushes a blank line. *)
Variable outer : jsstring * list Skill.t -> nat -> Exc (list jsstring)
                 -> Exc (list jsstring).
Variable inner : list Skill.t -> Skill.t -> nat -> Exc (list jsstring)
                 -> Exc (list jsstring).
Hypothesis outer_Return : forall category group index result,
  exists heading : jsstring,
    outer (category, group) index (Return result)
    = bind (forEach_from 0 group (inner group) (Return (push result heading)))
        (fun result1 => Return (push result1 (js ""))).
Hypothesis outer_Throw : forall group index e,
  outer group index (Throw e) = Throw e.
Hypothesis inner_Return : forall group skill index result,
  exists line : jsstring -> jsstring,
    inner group skill index (Return result)
    = bind (generateSkillBar skill.(Skill.level))
        (fun bar => Return (push result (line bar))).
Hypothesis inner_Throw : forall group skill index e,
  inner group skill index (Throw e) = Throw e.

Lemma categoryLoop_Throw (e : Error) (groups : list (jsstring * list Skill.t)) :
  forall i, forEach_from i groups outer (Throw e) = Throw e.
Proof.
  induction groups as [|g groups IH]; intros i; simpl; [reflexivity|].
  rewrite outer_Throw. apply IH.
Qed.

Lemma categoryLoop_spec (groups : list (jsstring * list Skill.t)) :
  forall i r,
    (Forall (fun g => Forall (fun skill => levelInRange skill.(Skill.level))
                        (snd g)) groups ->
     exists r', forEach_from i groups outer (Return r) = Return r'
                /\ List.length r'
                   = List.length r
                     + list_sum (map (fun g : jsstring * list Skill.t =>
                                        2 + List.length (snd g)) groups))
    /\ (~ Forall (fun g => Forall (fun skill => levelInRange skill.(Skill.level))
                          (snd g)) groups ->
        forEach_from i groups outer (Return r) = Throw RangeError).
Proof.
  induction groups as [|[category group] groups IH]; intros i r.
  - split.
    + intros _. exists r. simpl. split; [reflexivity | lia].
    + intros Hn. exfalso. apply Hn. constructor.
  - simpl forEach_from.
    destruct (outer_Return category group i r) as [heading ->].
    destruct (skillLoop_spec (inner group) (inner_Return group)
                (inner_Throw group) group 0 (push r heading)) as [Hin1 Hin2].
    assert (Hdec : {Forall (fun skill => levelInRange skill.(Skill.level)) group}
                   + {~ Forall (fun skill => levelInRange skill.(Skill.level)) group}).
    { apply Forall_dec. intros skill. apply levelInRange_dec. }
    destruct Hdec as [Hok|Hbad].
    + destruct (Hin1 Hok) as (r1 & -> & Hlen1). simpl bind.
      destruct (IH (S i) (push r1 (js ""))) as [IH1 IH2].
      split.
      * intros Hall. inversion Hall as [|? ? _ Hrest]; subst.
        destruct (IH1 Hrest) as (r' & Hr' & Hlen). exists r'.
        split; [exact Hr'|]. rewrite Hlen. unfold push in *.
        rewrite !length_app in *. simpl in *. lia.
      * intros Hn. apply IH2. intros Hrest. apply Hn. constructor; assumption.
    + rewrite (Hin2 Hbad). simpl bind. split.
      * intros Hall. inversion Hall; subst. contradiction.
      * intros _. apply categoryLoop_Throw.
Qed.

End CategoryLoops.

Lemma levelsInRange_Forall (data : PortfolioData) :
  levelsInRange data
  <-> Forall (fun g : jsstring * list Skill.t =>
                Forall (fun skill => levelInRange skill.(Skill.level)) (snd g))
             data.(skills).
Proof.
  unfold levelsInRange. rewrite Forall_forall. split.
  - intros Hall [category group] Hin. apply Forall_forall. intros skill Hs.
    exact (Hall category group skill Hin Hs).
  - intros Hall category group skill Hin Hs.
    specialize (Hall (category, group) Hin). simpl in Hall.
    rewrite Forall_forall in Hall. apply Hall. exact Hs.
Qed.

Lemma skillsOutput_spec (data : PortfolioData) :
  (levelsInRange data ->
   exists lines, skillsOutput data = Return lines
                 /\ List.length lines = skillsLineCount data)
  /\ (~ levelsInRange data -> skillsOutput data = Throw RangeError).
Proof.
  rewrite levelsInRange_Forall. unfold skillsOutput, skillsLineCount, forEach.
  eapply categoryLoop_spec.
  - intros category group index result. eexists. reflexivity.
  - intros [category group] index e. reflexivity.
  - intros group skill index result. eexists. reflexivity.
  - intros group skill index e. reflexivity.
Qed.

Section Registry.

Context `{Host}.
Variable portfolioData : PortfolioData.

Lemma generateCommands_skills (now : Z) :
  generateCommands portfolioData now
  = bind (skillsOutput portfolioData) (fun skills =>
      Return
        {| Commands.help := entry (js "Show available commands") helpOutput;
           Commands.about := entry (js "Learn about me") (aboutOutput portfolioData);
           Commands.skills := entry (js "View technical skills") skills;
           Commands.projects := entry (js "See my projects")
                                  (projectsOutput portfolioData);
           Commands.education := entry (js "See educational background")
                                   (educationOutput portfolioData);
           Commands.contact := entry (js "Get contact information")
                                 (contactOutput portfolioData);
           Commands.resume := entry (js "View resume and download link")
                                (resumeOutput portfolioData);
           Commands.whoami := entry (js "Display current user")
                                [portfolioData.(personal).(Personal.username)];
           Commands.pwd := entry (js "Print working directory")
                             [js "/home/"
                              ++ portfolioData.(personal).(Personal.username)
                              ++ js "/portfolio"];
           Commands.ls := entry (js "List directory contents")
                            (formatFileList portfolioData);
           Commands.date := entry (js "Show current date and time")
                              [Date_toString now];
           Commands.neofetch := entry (js "Display system information")
                                  (neofetchOutput portfolioData) |}).
Proof. reflexivity. Qed.

Lemma renderCommands_welcome (now : Z) :
  renderCommands [welcomeCommand portfolioData now] = Return tt.
Proof. reflexivity. Qed.

(** X3: the registry can be built, and the component mounts, exactly when
    every skill level of the data file lies between -2 and 102; then the
    skills block has its title, a blank line and, per category, a heading, a
    line per skill and a blank line.  With any level outside that range the
    first render throws a [RangeError]. *)
Theorem mount_levels (now : Z) :
  (levelsInRange portfolioData ->
   exists st,
     mount portfolioData now = Return st
     /\ generateCommands portfolioData now = Return (COMMANDS st)
     /\ List.length (COMMANDS st).(Commands.skills).(CommandEntry.output)
        = skillsLineCount portfolioData)
  /\ (~ levelsInRange portfolioData ->
      generateCommands portfolioData now = Throw RangeError
      /\ mount portfolioData now = Throw RangeError).
Proof.
  destruct (skillsOutput_spec portfolioData) as [Hok Hbad]. split.
  - intros Hl. destruct (Hok Hl) as (lines & Hs & Hlen).
    unfold mount, render. rewrite generateCommands_skills, Hs. simpl bind.
    eexists. split; [reflexivity|]. split; [reflexivity|]. exact Hlen.
  - intros Hl. unfold mount. rewrite generateCommands_skills, (Hbad Hl).
    split; reflexivity.
Qed.

(** X4: a registry built at another time exists as soon as one does, and
    differs from it at most in the entry of [date], which holds the
    timestamp of its own build. *)
Theorem registry_time_invariant (t1 t2 : Z) (r1 : Commands.t) :
  generateCommands portfolioData t1 = Return r1 ->
  exists r2,
    generateCommands portfolioData t2 = Return r2
    /\ (forall name, name <> js "date" -> getProperty r1 name = getProperty r2 name)
    /\ r1.(Commands.date).(CommandEntry.output) = [Date_toString t1]
    /\ r2.(Commands.date).(CommandEntry.output) = [Date_toString t2].
Proof.
  rewrite !generateCommands_skills.
  destruct (skillsOutput portfolioData) as [skills|e]; simpl bind;
    [|discriminate].
  intros E. injection E as <-. eexists. split; [reflexivity|].
  split; [|split; reflexivity].
  intros name Hn. unfold getProperty. simpl.
  apply eqb_neq in Hn. rewrite Hn. reflexivity.
Qed.

End Registry.

Lemma levelsInRange_sampleData : levelsInRange sampleData.
Proof.
  apply levelsInRange_Forall.
  repeat constructor; unfold levelInRange; simpl; lia.
Qed.

Lemma mount_levels_witness :
  (exists st, mount sampleData 0 = Return st
              /\ generateCommands sampleData 0 = Return (COMMANDS st)
              /\ List.length (COMMANDS st).(Commands.skills).(CommandEntry.output)
                 = skillsLineCount sampleData)
  /\ generateCommands (sampleDataWithLevel 150) 0 = Throw RangeError
  /\ mount (sampleDataWithLevel 150) 0 = Throw RangeError.
Proof.
  destruct (@mount_levels utcHost sampleData 0) as [Hok _].
  destruct (@mount_levels utcHost (sampleDataWithLevel 150) 0) as [_ Hbad].
  split.
  - apply Hok. exact levelsInRange_sampleData.
  - apply Hbad. intros Hl.
    specialize (Hl (js "Languages")
                  [ {| Skill.name := js "Rust"; Skill.level := 150 |} ]
                  {| Skill.name := js "Rust"; Skill.level := 150 |}
                  (or_introl eq_refl) (or_introl eq_refl)).
    unfold levelInRange in Hl. simpl in Hl. lia.
Defined.

Lemma registry_time_invariant_witness :
  exists r1 r2,
    generateCommands sampleData 0 = Return r1
    /\ generateCommands sampleData 86400000 = Return r2
    /\ (forall name, name <> js "date" -> getProperty r1 name = getProperty r2 name)
    /\ r1.(Commands.date).(CommandEntry.output) = [utcString 0]
    /\ r2.(Commands.date).(CommandEntry.output) = [utcString 86400000].
Proof.
  destruct (generateCommands sampleData 0) as [r1|e] eqn:E;
    [|vm_compute in E; discriminate E].
  destruct (@registry_time_invariant utcHost sampleData 0 86400000 r1 E)
    as (r2 & H2 & Hsame & Hd1 & Hd2).
  exists r1, r2. auto.
Defined.

(** ** More on the dispatcher *)

Lemma existsb_eqb_In (key : jsstring) (l : list jsstring) :
  existsb (eqb key) l = true <-> In key l.
Proof.
  rewrite existsb_exists. split.
  - intros (x & Hin & E). apply eqb_eq in E. subst x. exact Hin.
  - intros Hin. exists key. split; [exact Hin | apply eqb_refl].
Qed.

Lemma getProperty_other (registry : Commands.t) (key : jsstring) :
  ~ In key commandNames ->
  getProperty registry key
  = if existsb (eqb key) objectPrototypeKeys then Inherited else Absent.
Proof.
  intros Hn. unfold getProperty.
  repeat match goal with
         | |- context [if eqb key (js ?n) then _ else _] =>
             let E := fresh "E" in
             destruct (eqb key (js n)) eqn:E;
             [apply eqb_eq in E; exfalso; apply Hn; rewrite E;
              vm_compute; tauto|]
         end.
  reflexivity.
Qed.

Lemma renderCommands_lines (cs : list Command.t) :
  Forall (fun c => hasLines c.(Command.output)) cs ->
  renderCommands cs = Return tt.
Proof.
  unfold renderCommands, forEach. generalize 0.
  induction cs as [|c cs IH]; intros i Hall; [reflexivity|].
  inversion Hall as [|? ? [l Hl] Hrest]; subst.
  simpl. unfold renderCommand. rewrite Hl. apply IH. exact Hrest.
Qed.

Section Dispatcher.

Context `{Host}.
Variable portfolioData : PortfolioData.

(** X5: an input whose command is not empty, not [clear] or [download],
    not a registered name and not the name of a member of
    [Object.prototype] gets the two-line message, whose first line ends
    with the command as normalized. *)
Theorem unknown_command_message (input : jsstring) (st : AppState) :
  commandOf input <> js "" ->
  commandOf input <> js "clear" ->
  commandOf input <> js "download" ->
  ~ In (commandOf input) commandNames ->
  ~ In (commandOf input) objectPrototypeKeys ->
  executeCommand portfolioData input st
  = await input
      (Lines [ js "Command not found: " ++ commandOf input;
               js "Type " ++ dq ++ js "help" ++ dq
               ++ js " to see available commands." ])
      (setIsTyping true st).
Proof.
  intros H1 H2 H3 Hname Hproto.
  apply executeCommand_notFound; try assumption.
  - intros E. apply Hname. rewrite E. vm_compute. tauto.
  - rewrite (getProperty_other _ Hname).
    destruct (existsb (eqb (commandOf input)) objectPrototypeKeys) eqn:E;
      [|reflexivity].
    apply existsb_eqb_In in E. contradiction.
Qed.

Lemma executeCommand_downloadTimers (input : jsstring) (st : AppState) :
  downloadTimers (executeCommand portfolioData input st)
  = if eqb (commandOf input) (js "download")
    then S (downloadTimers st) else downloadTimers st.
Proof.
  destruct (eqb (commandOf input) (js "download")) eqn:Ed.
  - apply eqb_eq in Ed. unfold executeCommand. rewrite Ed. reflexivity.
  - unfold executeCommand. rewrite Ed.
    destruct (eqb (commandOf input) (js "")); [reflexivity|].
    destruct (eqb (commandOf input) (js "clear")); [reflexivity|].
    destruct (eqb (commandOf input) (js "resume")); [reflexivity|].
    destruct (getProperty _ _); reflexivity.
Qed.

Lemma executeCommand_commands (input : jsstring) (st : AppState) :
  commands (executeCommand portfolioData input st)
  = if eqb (commandOf input) (js "clear") then [] else commands st.
Proof.
  destruct (eqb (commandOf input) (js "clear")) eqn:Ec.
  - apply eqb_eq in Ec. unfold executeCommand. rewrite Ec. reflexivity.
  - unfold executeCommand. rewrite Ec.
    destruct (eqb (commandOf input) (js "")); [reflexivity|].
    destruct (eqb (commandOf input) (js "resume")); [reflexivity|].
    destruct (eqb (commandOf input) (js "download")); [reflexivity|].
    destruct (getProperty _ _); reflexivity.
Qed.

Lemma render_Return_registry (now : Z) (st st' : AppState) :
  render portfolioData now st = Return st' ->
  exists c, generateCommands portfolioData now = Return c
            /\ st' = setCOMMANDS c st.
Proof.
  unfold render, bind.
  destruct (generateCommands portfolioData now) as [c|e]; [|discriminate].
  destruct (renderCommands (commands st)); [|discriminate].
  intros E. injection E as <-. eauto.
Qed.

(** X6: the download timer is started by an accepted submission of
    [download], once, and by nothing else. *)
Theorem download_only_on_download (e : Event) (st st' : AppState) :
  handle portfolioData e st = Return st' ->
  (downloadTimers st' = S (downloadTimers st)
   <-> exists now,
         e = Submit now /\ isTyping st = false
         /\ trim (currentInput st) <> js ""
         /\ commandOf (currentInput st) = js "download").
Proof.
  destruct e as [now|now value|now|now|]; simpl.
  - intros E. apply render_Return in E. destruct E as [c ->]. simpl.
    split; [lia|]. intros (n & Hn & _). discriminate Hn.
  - destruct (isTyping st).
    + intros E. injection E as <-. split; [lia|].
      intros (n & Hn & _). discriminate Hn.
    + intros E. apply render_Return in E. destruct E as [c ->]. simpl.
      split; [lia|]. intros (n & Hn & _). discriminate Hn.
  - unfold handleSubmit.
    destruct (negb (isEmpty (trim (currentInput st)))) eqn:En;
      destruct (isTyping st) eqn:Et; simpl.
    + intros E. injection E as <-. split; [lia|].
      intros (n & _ & Hf & _). discriminate Hf.
    + intros E. apply render_Return in E. destruct E as [c ->].
      change (downloadTimers (setCOMMANDS c
                (executeCommand portfolioData (currentInput st) st)))
        with (downloadTimers (executeCommand portfolioData (currentInput st) st)).
      rewrite executeCommand_downloadTimers.
      apply negb_true_iff, isEmpty_false in En.
      destruct (eqb (commandOf (currentInput st)) (js "download")) eqn:Ed.
      * apply eqb_eq in Ed. split; [|reflexivity].
        intros _. exists now. auto.
      * apply eqb_neq in Ed. split; [lia|].
        intros (n & _ & _ & _ & Hd). contradiction.
    + intros E. injection E as <-. split; [lia|].
      intros (n & _ & Hf & _). discriminate Hf.
    + intros E. injection E as <-. split; [lia|].
      intros (n & _ & _ & Hb & _). apply negb_false_iff, isEmpty_true in En.
      contradiction.
  - destruct (awaiting st) as [|[input output] rest] eqn:Ea.
    + intros E. injection E as <-. split; [lia|].
      intros (n & Hn & _). discriminate Hn.
    + intros E. apply render_Return in E. destruct E as [c ->].
      unfold resumeCommand. rewrite Ea. simpl. split; [lia|].
      intros (n & Hn & _). discriminate Hn.
  - intros E. injection E as <-. simpl. split; [lia|].
    intros (n & Hn & _). discriminate Hn.
Qed.

(** X7: an event leaves the history as it is, empties it (an accepted
    submission of [clear]), or appends one entry (the oldest suspended call
    resuming, with its input, its output and the time of resuming); nothing
    ever rewrites or removes a single entry. *)
Theorem history_append_only (e : Event) (st st' : AppState) :
  handle portfolioData e st = Return st' ->
  commands st' = commands st
  \/ (commands st' = []
      /\ exists now, e = Submit now
                     /\ commandOf (currentInput st) = js "clear")
  \/ (exists now input output rest,
        e = Resolved now /\ awaiting st = (input, output) :: rest
        /\ commands st'
           = commands st
             ++ [ {| Command.input := input; Command.output := output;
                     Command.timestamp := now |} ]).
Proof.
  destruct e as [now|now value|now|now|]; simpl.
  - intros E. apply render_Return in E. destruct E as [c ->]. left. reflexivity.
  - destruct (isTyping st).
    + intros E. injection E as <-. left. reflexivity.
    + intros E. apply render_Return in E. destruct E as [c ->].
      left. reflexivity.
  - unfold handleSubmit.
    destruct (negb (isEmpty (trim (currentInput st))) && negb (isTyping st)).
    + intros E. apply render_Return in E. destruct E as [c ->].
      change (commands (setCOMMANDS c
                (executeCommand portfolioData (currentInput st) st)))
        with (commands (executeCommand portfolioData (currentInput st) st)).
      rewrite executeCommand_commands.
      destruct (eqb (commandOf (currentInput st)) (js "clear")) eqn:Ec.
      * apply eqb_eq in Ec. right. left. split; [reflexivity|]. eauto.
      * left. reflexivity.
    + intros E. injection E as <-. left. reflexivity.
  - destruct (awaiting st) as [|[input output] rest] eqn:Ea.
    + intros E. injection E as <-. left. reflexivity.
    + intros E. apply render_Return in E. destruct E as [c ->].
      right. right. exists now, input, output, rest.
      split; [reflexivity|]. split; [reflexivity|].
      unfold resumeCommand. rewrite Ea. reflexivity.
  - intros E. injection E as <-. left. reflexivity.
Qed.


End Dispatcher.

(** ** Renders: the registry in use and the errors *)

Lemma renderCommands_Throw (cs : list Command.t) (e : Error) :
  renderCommands cs = Throw e -> e = TypeError.
Proof.
  unfold renderCommands, forEach. generalize 0.
  assert (Hthrow : forall cs i, forEach_from i cs
            (fun c (_ : nat) acc => _ <- acc ;; renderCommand c)
            (Throw TypeError) = Throw TypeError).
  { intros l. induction l as [|c l IH]; intros i; simpl; [reflexivity|].
    apply IH. }
  induction cs as [|c cs IH]; intros i; simpl; [discriminate|].
  unfold renderCommand at 2. destruct (Command.output c).
  - apply IH.
  - rewrite Hthrow. intros E. injection E as <-. reflexivity.
Qed.

Lemma getProperty_Inherited (registry : Commands.t) (key : jsstring) :
  getProperty registry key = Inherited -> In key objectPrototypeKeys.
Proof.
  unfold getProperty.
  repeat match goal with
         | |- context [if eqb key (js ?n) then _ else _] =>
             destruct (eqb key (js n)); [discriminate|]
         end.
  destruct (existsb (eqb key) objectPrototypeKeys) eqn:E; [|discriminate].
  intros _. apply existsb_eqb_In. exact E.
Qed.

Lemma eventTimes_cons (e : Event) (events : list Event) :
  eventTimes (e :: events) = eventTimes [e] ++ eventTimes events.
Proof. unfold eventTimes. simpl. rewrite app_nil_r. reflexivity. Qed.

Section Renders.

Context `{Host}.
Variable portfolioData : PortfolioData.

Lemma generateCommands_any_time (t1 t2 : Z) (r1 : Commands.t) :
  generateCommands portfolioData t1 = Return r1 ->
  exists r2, generateCommands portfolioData t2 = Return r2.
Proof.
  rewrite !generateCommands_skills.
  destruct (skillsOutput portfolioData); simpl; [eauto | discriminate].
Qed.

Lemma run_cons (st0 : AppState) (e : Event) (events : list Event) :
  run portfolioData (Return st0) (e :: events)
  = run portfolioData (handle portfolioData e st0) events.
Proof. reflexivity. Qed.

Lemma mount_registry (t0 : Z) (st0 : AppState) :
  mount portfolioData t0 = Return st0 ->
  generateCommands portfolioData t0 = Return (COMMANDS st0).
Proof.
  unfold mount, bind.
  destruct (generateCommands portfolioData t0) as [c0|e] eqn:E0; [|discriminate].
  intros E. apply render_Return_registry in E. destruct E as (c & Hc & ->).
  rewrite E0 in Hc. injection Hc as ->. reflexivity.
Qed.

Lemma handle_registry (e : Event) (st st' : AppState) :
  handle portfolioData e st = Return st' ->
  COMMANDS st' = COMMANDS st
  \/ exists now, In now (eventTimes [e])
                 /\ generateCommands portfolioData now = Return (COMMANDS st').
Proof.
  destruct e as [now|now value|now|now|]; simpl.
  - intros E. apply render_Return_registry in E. destruct E as (c & Hc & ->).
    right. exists now. simpl. auto.
  - destruct (isTyping st).
    + intros E. injection E as <-. left. reflexivity.
    + intros E. apply render_Return_registry in E. destruct E as (c & Hc & ->).
      right. exists now. simpl. auto.
  - destruct (handleSubmit portfolioData st).
    + intros E. apply render_Return_registry in E. destruct E as (c & Hc & ->).
      right. exists now. simpl. auto.
    + intros E. injection E as <-. left. reflexivity.
  - destruct (awaiting st).
    + intros E. injection E as <-. left. reflexivity.
    + intros E. apply render_Return_registry in E. destruct E as (c & Hc & ->).
      right. exists now. simpl. auto.
  - intros E. injection E as <-. left. reflexivity.
Qed.

Lemma run_registry (events : list Event) :
  forall (st0 st : AppState) (times : list Z),
    (exists tb, In tb times
                /\ generateCommands portfolioData tb = Return (COMMANDS st0)) ->
    run portfolioData (Return st0) events = Return st ->
    exists tb, In tb (times ++ eventTimes events)
               /\ generateCommands portfolioData tb = Return (COMMANDS st).
Proof.
  induction events as [|e events IH]; intros st0 st times (tb & Hin & Hreg) Hrun.
  - simpl in Hrun. injection Hrun as <-. exists tb. rewrite app_nil_r. auto.
  - rewrite run_cons in Hrun.
    destruct (handle portfolioData e st0) as [st1|err] eqn:E1;
      [|rewrite run_Throw in Hrun; discriminate Hrun].
    rewrite eventTimes_cons, app_assoc. apply (IH st1 st); [|exact Hrun].
    destruct (handle_registry e st0 E1) as [Hsame|(now & Hnow & Hreg1)].
    + exists tb. rewrite Hsame. split; [apply in_or_app; left; exact Hin|].
      exact Hreg.
    + exists now. split; [apply in_or_app; right; exact Hnow | exact Hreg1].
Qed.

(** X9: the registry a handler reads is always one that [generateCommands]
    built at the time of the mount or of an earlier event, and after a
    clock tick it is the one built at the time of that tick: the output of
    [date] is never older than the latest tick. *)
Theorem registry_of_a_render :
  (forall (t0 : Z) (events : list Event) (st : AppState),
     run portfolioData (mount portfolioData t0) events = Return st ->
     exists tb, In tb (t0 :: eventTimes events)
                /\ generateCommands portfolioData tb = Return (COMMANDS st)
                /\ (COMMANDS st).(Commands.date).(CommandEntry.output)
                   = [Date_toString tb])
  /\ (forall (now : Z) (st st' : AppState),
        handle portfolioData (Tick now) st = Return st' ->
        generateCommands portfolioData now = Return (COMMANDS st')).
Proof.
  split.
  - intros t0 events st Hrun.
    destruct (mount portfolioData t0) as [st0|err] eqn:E0;
      [|rewrite run_Throw in Hrun; discriminate Hrun].
    assert (H0 : exists tb, In tb [t0]
                 /\ generateCommands portfolioData tb = Return (COMMANDS st0)).
    { exists t0. split; [left; reflexivity | apply mount_registry; exact E0]. }
    destruct (@run_registry events st0 st [t0] H0 Hrun) as (tb & Hin & Hreg).
    + exists tb. split; [exact Hin|]. split; [exact Hreg|].
      rewrite generateCommands_skills in Hreg.
      destruct (skillsOutput portfolioData); simpl in Hreg; [|discriminate Hreg].
      injection Hreg as <-. reflexivity.
  - intros now st st' E. simpl in E. apply render_Return_registry in E.
    destruct E as (c & Hc & ->). exact Hc.
Qed.

Lemma namesNoPrototypeMember_empty : namesNoPrototypeMember (js "").
Proof.
  unfold namesNoPrototypeMember. rewrite commandOf_blank by reflexivity.
  intros Hin. vm_compute in Hin.
  repeat (destruct Hin as [Hin|Hin]; [discriminate Hin|]). exact Hin.
Qed.

Lemma executeCommand_renderable (st : AppState) :
  renderable st -> renderable (executeCommand portfolioData (currentInput st) st).
Proof.
  intros (Hc & Ha & Hi). unfold executeCommand.
  assert (Hawait : forall l st1,
             commands st1 = commands st -> awaiting st1 = awaiting st ->
             currentInput st1 = currentInput st ->
             renderable (await (currentInput st) (Lines l) st1)).
  { intros l st1 E1 E2 E3. unfold renderable. simpl. rewrite E1, E2, E3.
    split; [exact Hc|]. split; [|exact Hi].
    apply Forall_app. split; [exact Ha|]. constructor; [|constructor].
    simpl. exists l. reflexivity. }
  destruct (eqb (commandOf (currentInput st)) (js "")); [apply Hawait; reflexivity|].
  destruct (eqb (commandOf (currentInput st)) (js "clear")).
  { unfold renderable. simpl. split; [constructor|]. split; [exact Ha|].
    exact namesNoPrototypeMember_empty. }
  destruct (eqb (commandOf (currentInput st)) (js "resume")); [apply Hawait; reflexivity|].
  destruct (eqb (commandOf (currentInput st)) (js "download")); [apply Hawait; reflexivity|].
  destruct (getProperty _ _) eqn:Ep; try (apply Hawait; reflexivity).
  exfalso. apply Hi. apply (getProperty_Inherited _ _ Ep).
Qed.

Lemma handle_renderable (e : Event) (st : AppState) :
  (forall now, exists c, generateCommands portfolioData now = Return c) ->
  renderable st -> typesNoPrototypeMember e ->
  exists st', handle portfolioData e st = Return st' /\ renderable st'.
Proof.
  intros Hgen Hst He.
  assert (Hrender : forall now st1, renderable st1 ->
             exists st', render portfolioData now st1 = Return st'
                         /\ renderable st').
  { intros now st1 (Hc & Ha & Hi). unfold render.
    destruct (Hgen now) as [c ->]. simpl bind.
    rewrite (renderCommands_lines Hc). simpl bind.
    eexists. split; [reflexivity|]. repeat split; assumption. }
  destruct Hst as (Hc & Ha & Hi).
  destruct e as [now|now value|now|now|]; simpl.
  - apply Hrender. repeat split; assumption.
  - destruct (isTyping st).
    + eexists. split; [reflexivity|]. repeat split; assumption.
    + apply Hrender. repeat split; assumption.
  - unfold handleSubmit.
    destruct (negb (isEmpty (trim (currentInput st))) && negb (isTyping st)).
    + apply Hrender. apply executeCommand_renderable. repeat split; assumption.
    + eexists. split; [reflexivity|]. repeat split; assumption.
  - destruct (awaiting st) as [|[input output] rest] eqn:Ea.
    + eexists. split; [reflexivity|]. unfold renderable. rewrite Ea.
      repeat split; try assumption.
    + apply Hrender. unfold resumeCommand. rewrite Ea. unfold renderable. simpl.
      rewrite Ea. inversion Ha as [|? ? Hout Hrest]; subst. simpl in Hout.
      split; [|split].
      * apply Forall_app. split; [exact Hc|]. constructor; [exact Hout|constructor].
      * exact Hrest.
      * exact namesNoPrototypeMember_empty.
  - eexists. split; [reflexivity|]. repeat split; assumption.
Qed.

Lemma handle_Throw (e : Event) (st : AppState) (err : Error) :
  (forall now, exists c, generateCommands portfolioData now = Return c) ->
  handle portfolioData e st = Throw err -> err = TypeError.
Proof.
  intros Hgen.
  assert (Hrender : forall now st1,
             render portfolioData now st1 = Throw err -> err = TypeError).
  { intros now st1. unfold render. destruct (Hgen now) as [c ->]. simpl bind.
    destruct (renderCommands (commands st1)) as [[]|e1] eqn:Er; simpl.
    - discriminate.
    - intros E. injection E as <-. apply (renderCommands_Throw _ Er). }
  destruct e as [now|now value|now|now|]; simpl.
  - apply Hrender.
  - destruct (isTyping st); [discriminate | apply Hrender].
  - destruct (handleSubmit portfolioData st); [apply Hrender | discriminate].
  - destruct (awaiting st); [discriminate | apply Hrender].
  - discriminate.
Qed.

(** X10: once the component has mounted, no sequence of events in which
    no typed input names a member of [Object.prototype] makes a render
    throw; and whatever the events, the only error a render can throw after
    the mount is the [TypeError] of an [undefined] output. *)
Theorem crash_only_by_prototype_member (t0 : Z) (st0 : AppState) (events : list Event) :
  mount portfolioData t0 = Return st0 ->
  (Forall typesNoPrototypeMember events ->
   exists st, run portfolioData (mount portfolioData t0) events = Return st)
  /\ (forall err, run portfolioData (mount portfolioData t0) events = Throw err ->
                  err = TypeError).
Proof.
  intros Hmount. rewrite Hmount.
  assert (Hgen : forall now, exists c, generateCommands portfolioData now = Return c).
  { intros now. apply (generateCommands_any_time t0 now (mount_registry _ Hmount)). }
  assert (Hst0 : renderable st0).
  { destruct (mount_Return _ _ Hmount) as (Hc & _ & Ha).
    unfold renderable. rewrite Hc, Ha. split; [|split].
    - constructor; [|constructor]. simpl. eexists. reflexivity.
    - constructor.
    - revert Hmount. unfold mount, bind.
      destruct (generateCommands portfolioData t0); [|discriminate].
      intros E. apply render_Return in E. destruct E as [c ->]. simpl.
      exact namesNoPrototypeMember_empty. }
  split.
  - clear Hmount. revert st0 Hst0.
    induction events as [|e events IH]; intros st0 Hst0 Hall.
    + exists st0. reflexivity.
    + inversion Hall as [|? ? He Hrest]; subst.
      destruct (handle_renderable e Hgen Hst0 He) as (st1 & E1 & Hst1).
      rewrite run_cons, E1. apply IH; assumption.
  - clear Hmount Hst0. revert st0.
    induction events as [|e events IH]; intros st0 err; [discriminate|].
    rewrite run_cons.
    destruct (handle portfolioData e st0) as [st1|e1] eqn:E1.
    + apply IH.
    + rewrite run_Throw. intros E. injection E as <-.
      apply (handle_Throw _ _ Hgen E1).
Qed.

End Renders.

(** ** The further properties on the sample data *)

Ltac not_in_list :=
  let Hin := fresh "Hin" in
  intros Hin; vm_compute in Hin;
  repeat (destruct Hin as [Hin|Hin]; [discriminate Hin|]); exact Hin.

Ltac not_equal :=
  let Heq := fresh "Heq" in
  intros Heq; vm_compute in Heq; discriminate Heq.

Lemma unknown_command_message_witness :
  exists st,
    mount sampleData 0 = Return st
    /\ executeCommand sampleData (js "  Bogus  x") st
       = await (js "  Bogus  x")
           (Lines [ js "Command not found: " ++ commandOf (js "  Bogus  x");
                    js "Type " ++ dq ++ js "help" ++ dq
                    ++ js " to see available commands." ])
           (setIsTyping true st).
Proof.
  destruct (mount sampleData 0) as [st|e] eqn:E;
    [|vm_compute in E; discriminate E].
  exists st. split; [reflexivity|].
  apply (@unknown_command_message utcHost sampleData (js "  Bogus  x") st);
    first [not_equal | not_in_list].
Defined.

Lemma download_only_on_download_witness :
  exists st st',
    run sampleData (mount sampleData 0) [Change 5 (js "Download")] = Return st
    /\ handle sampleData (Submit 10) st = Return st'
    /\ downloadTimers st' = S (downloadTimers st).
Proof.
  destruct (run sampleData (mount sampleData 0) [Change 5 (js "Download")])
    as [st|e] eqn:E; [|vm_compute in E; discriminate E].
  destruct (handle sampleData (Submit 10) st) as [st'|e] eqn:E2.
  - exists st, st'. split; [reflexivity|]. split; [exact E2|].
    apply (proj2 (@download_only_on_download utcHost sampleData
                    (Submit 10) st st' E2)).
    vm_compute in E. injection E as <-. exists 10%Z.
    split; [reflexivity|]. split; [reflexivity|].
    split; [not_equal | reflexivity].
  - vm_compute in E. injection E as <-. vm_compute in E2. discriminate E2.
Defined.

Lemma history_append_only_witness :
  exists st st',
    run sampleData (mount sampleData 0) [Change 5 (js "pwd"); Submit 10]
    = Return st
    /\ handle sampleData (Resolved 310) st = Return st'
    /\ (commands st' = commands st
        \/ (commands st' = []
            /\ exists now, Resolved 310 = Submit now
                           /\ commandOf (currentInput st) = js "clear")
        \/ (exists now input output rest,
              Resolved 310 = Resolved now
              /\ awaiting st = (input, output) :: rest
              /\ commands st'
                 = commands st
                   ++ [ {| Command.input := input; Command.output := output;
                           Command.timestamp := now |} ])).
Proof.
  destruct (run sampleData (mount sampleData 0) [Change 5 (js "pwd"); Submit 10])
    as [st|e] eqn:E; [|vm_compute in E; discriminate E].
  destruct (handle sampleData (Resolved 310) st) as [st'|e] eqn:E2.
  - exists st, st'. split; [reflexivity|]. split; [exact E2|].
    apply (@history_append_only utcHost sampleData (Resolved 310) st st' E2).
  - vm_compute in E. injection E as <-. vm_compute in E2. discriminate E2.
Defined.


Lemma registry_of_a_render_witness :
  exists st tb,
    run sampleData (mount sampleData 0) [Tick 1000; Change 1500 (js "date")]
    = Return st
    /\ In tb (0%Z :: eventTimes [Tick 1000; Change 1500 (js "date")])
    /\ generateCommands sampleData tb = Return (COMMANDS st)
    /\ (COMMANDS st).(Commands.date).(CommandEntry.output) = [utcString tb].
Proof.
  destruct (run sampleData (mount sampleData 0)
              [Tick 1000; Change 1500 (js "date")]) as [st|e] eqn:E;
    [|vm_compute in E; discriminate E].
  destruct (proj1 (@registry_of_a_render utcHost sampleData) 0%Z _ st E)
    as (tb & Hin & Hreg & Hdate).
  exists st, tb. auto.
Defined.

Lemma crash_only_by_prototype_member_witness :
  exists st,
    run sampleData (mount sampleData 0)
      [Change 10 (js "help"); Submit 20; Resolved 320; Change 400 (js "tostring")]
    = Return st.
Proof.
  destruct (mount sampleData 0) as [st0|e] eqn:E0;
    [|vm_compute in E0; discriminate E0].
  rewrite <- E0.
  apply (proj1 (@crash_only_by_prototype_member utcHost sampleData 0 st0
                  [Change 10 (js "help"); Submit 20; Resolved 320;
                   Change 400 (js "tostring")] E0)).
  repeat constructor; not_in_list.
Defined.

(** ** Loops that push *)

Lemma forEach_from_push {A} (f : A -> nat -> jsstring) (l : list A) :
  forall i r,
    forEach_from i l (fun x index result => push result (f x index)) r
    = r ++ mapIndexed f i l.
Proof.
  induction l as [|x l IH]; intros i r; simpl.
  - rewrite app_nil_r. reflexivity.
  - rewrite IH. unfold push. rewrite <- app_assoc. reflexivity.
Qed.

Lemma forEach_from_append {A} (body : A -> nat -> list jsstring -> list jsstring)
    (block : A -> nat -> list jsstring) (l : list A) :
  (forall x index result, body x index result = result ++ block x index) ->
  forall i r,
    forEach_from i l body r = r ++ List.concat (mapIndexed block i l).
Proof.
  intros Hbody. induction l as [|x l IH]; intros i r; simpl.
  - rewrite app_nil_r. reflexivity.
  - rewrite IH, Hbody, <- app_assoc. reflexivity.
Qed.

Lemma mapIndexed_map {A B} (f : A -> B) (l : list A) :
  forall i, mapIndexed (fun x (_ : nat) => f x) i l = map f l.
Proof. induction l as [|x l IH]; intros i; simpl; [|rewrite IH]; reflexivity. Qed.

(** X11: the listing is the header followed by one row per file, in the
    order of the data file; the row of a directory ends with a slash. *)
Theorem formatFileList_rows (data : PortfolioData) :
  formatFileList data
  = js "total 8"
    :: map (fun file =>
              file.(FileEntry.permissions) ++ js "  2 "
              ++ data.(personal).(Personal.username) ++ js " "
              ++ data.(personal).(Personal.username) ++ js " "
              ++ file.(FileEntry.size) ++ js " " ++ file.(FileEntry.date)
              ++ js " " ++ file.(FileEntry.name)
              ++ (if eqb file.(FileEntry.type) (js "directory")
                  then js "/" else js ""))
           data.(files).
Proof.
  unfold formatFileList, forEach.
  rewrite <- (mapIndexed_map _ data.(files) 0).
  exact (forEach_from_push _ data.(files) 0 [js "total 8"]).
Qed.

(** ** The description lines do not depend on what was pushed before *)

Lemma pushLine_prepend (lines : list jsstring) (b : jsstring) (st : WrapState) :
  pushLine b (prepend lines st) = prepend lines (pushLine b st).
Proof.
  unfold pushLine, prepend, push. simpl.
  destruct (isFirstLineOfOverallDescriptionOutput st); simpl;
    rewrite <- app_assoc; reflexivity.
Qed.

Lemma wrapWords_prepend (lines : list jsstring) (ws : list jsstring) :
  forall buf st,
    wrapWords ws buf (prepend lines st)
    = (fst (wrapWords ws buf st), prepend lines (snd (wrapWords ws buf st))).
Proof.
  induction ws as [|word rest IH]; intros buf st; [reflexivity|].
  cbn [wrapWords].
  repeat match goal with
         | |- context [if ?c then _ else _] => destruct c
         end;
    rewrite ?pushLine_prepend; apply IH.
Qed.

Lemma wrapSegment_prepend (lines : list jsstring) (segment : jsstring)
    (st : WrapState) :
  wrapSegment segment (prepend lines st) = prepend lines (wrapSegment segment st).
Proof.
  unfold wrapSegment. rewrite wrapWords_prepend.
  change (isFirstLineOfOverallDescriptionOutput (prepend lines st))
    with (isFirstLineOfOverallDescriptionOutput st).
  destruct (eqb (trim segment) (js "")
            && negb (isFirstLineOfOverallDescriptionOutput st)).
  - unfold prepend, push. simpl. rewrite <- app_assoc. reflexivity.
  - destruct (wrapWords (split (js " ") segment) (js "") st) as [buf st'].
    simpl. destruct (negb (eqb buf (js ""))); [apply pushLine_prepend|reflexivity].
Qed.

Lemma wrapSegments_prepend (lines : list jsstring) (segments : list jsstring) :
  forall i st,
    forEach_from i segments (fun segment (_ : nat) st => wrapSegment segment st)
      (prepend lines st)
    = prepend lines
        (forEach_from i segments
           (fun segment (_ : nat) st => wrapSegment segment st) st).
Proof.
  induction segments as [|segment segments IH]; intros i st; [reflexivity|].
  simpl. rewrite wrapSegment_prepend. apply IH.
Qed.

Lemma formatDescription_append (description : jsstring) (lines : list jsstring) :
  formatDescription description lines
  = lines ++ formatDescription description [].
Proof.
  unfold formatDescription.
  destruct (negb (isEmpty description)
            && negb (eqb (trim description) (js ""))); [|reflexivity].
  unfold forEach.
  assert (E : {| result := lines; isFirstLineOfOverallDescriptionOutput := true |}
              = prepend lines
                  {| result := [];
                     isFirstLineOfOverallDescriptionOutput := true |}).
  { unfold prepend. simpl. rewrite app_nil_r. reflexivity. }
  rewrite E, wrapSegments_prepend. reflexivity.
Qed.

(** X12: the projects block is the title, a blank line and then one block
    per project in the order of the data file; the block of a project
    depends on that project and its position only: the heading numbered
    from 1, the description lines, the tech stack, the repository link, the
    status and a blank line. *)
Theorem projectsOutput_blocks (data : PortfolioData) :
  projectsOutput data
  = [js "Projects Portfolio:"; js ""]
    ++ List.concat (mapIndexed projectBlock 0 data.(projects)).
Proof.
  unfold projectsOutput, forEach. apply forEach_from_append.
  intros project index result. unfold projectBlock, push.
  rewrite formatDescription_append, <- !app_assoc. reflexivity.
Qed.

(** ** The shape of the description lines *)

Lemma eqb_neq_nil_trim :
  eqb (trim []) (js "") = false -> False.
Proof. discriminate. Qed.

(** X13: the lines of a description.  A blank description gives the bare
    label line.  A description that is not blank but holds no word (only
    paragraph separators and spaces) gives no line at all, not even the
    label.  Any other description gives a first line that carries the label
    and a non-empty text, and after it only lines that start with the
    continuation prefix. *)
Theorem formatDescription_shape (description : jsstring) :
  (trim description = js "" ->
   formatDescription description []
   = [baseIndent ++ firstLineItemPrefix ++ descriptionLabel])
  /\ (trim description <> js "" -> descriptionWords description = [] ->
      formatDescription description [] = [])
  /\ (trim description <> js "" -> descriptionWords description <> [] ->
      exists text rest,
        formatDescription description []
        = (baseIndent ++ firstLineItemPrefix ++ descriptionLabel ++ text) :: rest
        /\ text <> []
        /\ Forall (fun line =>
                     startsWith (baseIndent ++ subsequentLineItemPrefix) line
                     = true) rest).
Proof.
  unfold formatDescription, descriptionWords, forEach.
  split; [|split].
  - intros Ht. rewrite Ht. simpl. rewrite andb_false_r. reflexivity.
  - intros Ht Hw. apply eqb_neq in Ht. rewrite Ht.
    destruct description as [|c d]; [contradiction (eqb_neq_nil_trim Ht)|].
    simpl negb. cbv iota. simpl andb. cbv iota.
    rewrite wrapSegments_nowords; [reflexivity | exact Hw | reflexivity].
  - intros Ht Hw. apply eqb_neq in Ht. rewrite Ht.
    destruct description as [|c d]; [contradiction (eqb_neq_nil_trim Ht)|].
    simpl negb. cbv iota. simpl andb. cbv iota.
    pose proof (wrapSegments_shaped (split (js "\n") (c :: d)) 0
                  (st := {| result := [];
                            isFirstLineOfOverallDescriptionOutput := true |})
                  (or_introl (conj eq_refl eq_refl))) as Hs.
    pose proof (wrapSegments_words (split (js "\n") (c :: d)) 0
                  {| result := [];
                     isFirstLineOfOverallDescriptionOutput := true |} Hw) as Hf.
    destruct Hs as [[Hf' _]|(_ & text & rest & Hr & Hb & Hrest)];
      [congruence|].
    exists text, rest. auto.
Qed.

(** ** The wrap loop is greedy *)

Lemma firstWord_app_space (a b : jsstring) :
  firstWord (a ++ 32%N :: b) = firstWord a.
Proof.
  unfold firstWord. rewrite split_space_app.
  destruct (split (js " ") a) as [|p ps] eqn:E; [|reflexivity].
  exfalso. apply (split_space_nonempty a). exact E.
Qed.

Lemma firstWord_noSpace (w : jsstring) : noSpace w -> firstWord w = w.
Proof. intros Hw. unfold firstWord. rewrite (split_space_noSpace Hw). reflexivity. Qed.

Lemma wrapWords_greedy (ws : list jsstring) :
  Forall noSpace ws ->
  forall buf st,
  exists pushed,
    contents (snd (wrapWords ws buf st)) = contents st ++ pushed
    /\ greedy (pushed ++ flushed (fst (wrapWords ws buf st)))
    /\ (buf <> [] ->
        exists first rest,
          pushed ++ flushed (fst (wrapWords ws buf st)) = first :: rest
          /\ firstWord first = firstWord buf).
Proof.
  induction 1 as [|word rest Hword Hrest IH]; intros buf st.
  - exists []. simpl. rewrite app_nil_r. split; [reflexivity|].
    destruct buf as [|c buf]; simpl; [split; [exact I|]|split; [auto|]].
    + intros Hn. contradiction Hn. reflexivity.
    + intros _. exists (c :: buf), []. auto.
  - rewrite wrapWords_cons.
    destruct (List.length (if isEmpty buf then word else buf ++ 32%N :: word)
              <=? textContentWidth) eqn:Efit.
    + destruct (IH (if isEmpty buf then word else buf ++ 32%N :: word) st)
        as (pushed & Hc & Hg & Hfirst).
      exists pushed. split; [exact Hc|]. split; [exact Hg|].
      intros Hb. destruct buf as [|c buf]; [contradiction Hb; reflexivity|].
      simpl isEmpty in *. cbv iota in *.
      destruct Hfirst as (first & rest' & Ho & Hw); [discriminate|].
      exists first, rest'. split; [exact Ho|].
      rewrite Hw. apply firstWord_app_space.
    + apply Nat.leb_gt in Efit. unfold textContentWidth in Efit.
      destruct ((textContentWidth <? List.length word) && negb (isEmpty word))
        eqn:Elong.
      * apply andb_prop in Elong. destruct Elong as [Hlen _].
        apply Nat.ltb_lt in Hlen. unfold textContentWidth in Hlen.
        destruct (IH [] (pushLine word (if isEmpty buf then st else pushLine buf st)))
          as (pushed & Hc & Hg & _).
        assert (Hgw : greedy (word :: pushed
                              ++ flushed (fst (wrapWords rest []
                                   (pushLine word
                                      (if isEmpty buf then st else pushLine buf st)))))).
        { simpl. split; [|exact Hg].
          destruct (pushed ++ flushed _); [exact I | lia]. }
        destruct buf as [|c buf]; simpl isEmpty in *; cbv iota in *.
        -- exists (word :: pushed). split; [|split].
           ++ rewrite Hc, contents_pushLine, <- app_assoc. reflexivity.
           ++ exact Hgw.
           ++ intros Hn. contradiction Hn. reflexivity.
        -- exists ((c :: buf) :: word :: pushed). split; [|split].
           ++ rewrite Hc, !contents_pushLine, <- !app_assoc. reflexivity.
           ++ change (greedy ((c :: buf) :: (word :: pushed
                        ++ flushed (fst (wrapWords rest []
                             (pushLine word (pushLine (c :: buf) st))))))).
              split; [|exact Hgw].
              rewrite (firstWord_noSpace Hword).
              rewrite length_app in Efit. simpl in Efit. simpl. lia.
           ++ intros _. eexists. eexists. split; [reflexivity|reflexivity].
      * destruct (IH word (if isEmpty buf then st else pushLine buf st))
          as (pushed & Hc & Hg & Hfirst).
        destruct buf as [|c buf]; simpl isEmpty in *; cbv iota in *.
        -- exists pushed. split; [exact Hc|]. split; [exact Hg|].
           intros Hn. contradiction Hn. reflexivity.
        -- exists ((c :: buf) :: pushed). split; [|split].
           ++ rewrite Hc, contents_pushLine, <- app_assoc. reflexivity.
           ++ change (greedy ((c :: buf) :: (pushed
                        ++ flushed (fst (wrapWords rest word
                                           (pushLine (c :: buf) st)))))).
              split; [|exact Hg].
              rewrite length_app in Efit. simpl in Efit.
              destruct word as [|d word].
              ** destruct (pushed ++ flushed _); [exact I|]. simpl in *. lia.
              ** destruct Hfirst as (first & rest' & -> & Hw); [discriminate|].
                 rewrite Hw, (firstWord_noSpace Hword). simpl in *. lia.
           ++ intros _. eexists. eexists. split; reflexivity.
Qed.

Lemma wrapSegment_greedy (segment : jsstring) (st : WrapState) :
  exists pushed,
    contents (wrapSegment segment st) = contents st ++ pushed
    /\ greedy pushed.
Proof.
  unfold wrapSegment.
  destruct (eqb (trim segment) (js "")
            && negb (isFirstLineOfOverallDescriptionOutput st)).
  - exists [js ""]. rewrite contents_push. split; [reflexivity|].
    simpl. auto.
  - destruct (wrapWords_greedy (split_space_pieces segment) (js "") st)
      as (pushed & Hc & Hg & _).
    destruct (wrapWords (split (js " ") segment) (js "") st) as [buf st'].
    simpl in Hc, Hg. rewrite eqb_nil.
    exists (pushed ++ flushed buf). split; [|exact Hg].
    destruct buf as [|c buf]; simpl.
    + rewrite app_nil_r. exact Hc.
    + rewrite contents_pushLine, Hc, <- app_assoc. reflexivity.
Qed.

Lemma wrapSegment_run (segment : jsstring) (st : WrapState) :
  exists run,
    contents (wrapSegment segment st) = contents st ++ run
    /\ (if isEmpty (trim segment)
           && negb (isFirstLineOfOverallDescriptionOutput st)
        then run = [js ""]
        else greedy run /\ flat_map words run = words segment).
Proof.
  destruct (wrapSegment_spec segment st) as (run & Hc & Hw & Hb & _).
  destruct (wrapSegment_greedy segment st) as (run' & Hc' & Hg).
  rewrite Hc in Hc'. apply app_inv_head in Hc'. subst run'.
  exists run. split; [exact Hc|].
  destruct (isEmpty (trim segment)
            && negb (isFirstLineOfOverallDescriptionOutput st));
    [apply Hb; reflexivity | split; assumption].
Qed.

Lemma wrapSegments_runs (segments : list jsstring) :
  forall i st,
  exists runs,
    contents (forEach_from i segments
                (fun segment (_ : nat) st => wrapSegment segment st) st)
    = contents st ++ List.concat runs
    /\ wrapsParagraphs (negb (isFirstLineOfOverallDescriptionOutput st))
         segments runs.
Proof.
  induction segments as [|segment segments IH]; intros i st.
  - exists []. simpl. rewrite app_nil_r. auto.
  - simpl forEach_from.
    destruct (wrapSegment_run segment st) as (run & Hc1 & Hr).
    destruct (IH (S i) (wrapSegment segment st)) as (runs & Hc & Hrs).
    exists (run :: runs). split.
    + rewrite Hc, Hc1. simpl. rewrite <- app_assoc. reflexivity.
    + simpl. rewrite wrapSegment_seen in Hrs. split; assumption.
Qed.

(** X14: the wrap is greedy, paragraph by paragraph.  The texts produced
    for a description that is not blank are the runs of its paragraphs, one
    after the other.  A paragraph that is all white space and comes after a
    paragraph with a word gives a single empty line.  Any other paragraph
    gives a run that holds exactly its words and in which the first word of
    every line after the first would not have fit, after a space, within 75
    characters at the end of the line before it: no line is broken early. *)
Theorem wrap_is_greedy (description : jsstring) :
  trim description <> js "" ->
  exists runs,
    wrappedText description = List.concat runs
    /\ wrapsParagraphs false (split (js "\n") description) runs.
Proof.
  intros Ht. unfold wrappedText, formatDescription.
  apply eqb_neq in Ht. rewrite Ht.
  destruct description as [|c d]; [contradiction (eqb_neq_nil_trim Ht)|].
  simpl negb. cbv iota. simpl andb. cbv iota. unfold forEach.
  destruct (wrapSegments_runs (split (js "\n") (c :: d)) 0
              {| result := [];
                 isFirstLineOfOverallDescriptionOutput := true |})
    as (runs & Hc & Hrs).
  exists runs. split; [exact Hc | exact Hrs].
Qed.

Lemma wrap_is_greedy_witness :
  exists runs,
    wrappedText (js "\n\na b") = List.concat runs
    /\ wrapsParagraphs false (split (js "\n") (js "\n\na b")) runs.
Proof.
  apply (wrap_is_greedy (js "\n\na b")).
  intros Ht. vm_compute in Ht. discriminate Ht.
Defined.

Lemma formatDescription_shape_witness :
  formatDescription (js "  ") []
  = [baseIndent ++ firstLineItemPrefix ++ descriptionLabel]
  /\ formatDescription (js " \n ") [] = []
  /\ exists text rest,
       formatDescription (js "First paragraph.\n\nSecond paragraph.") []
       = (baseIndent ++ firstLineItemPrefix ++ descriptionLabel ++ text) :: rest
       /\ text <> []
       /\ Forall (fun line =>
                    startsWith (baseIndent ++ subsequentLineItemPrefix) line
                    = true) rest.
Proof.
  split; [|split].
  - apply (proj1 (formatDescription_shape (js "  "))). reflexivity.
  - apply (proj1 (proj2 (formatDescription_shape (js " \n ")))).
    + intros Heq. vm_compute in Heq. discriminate Heq.
    + reflexivity.
  - apply (proj2 (proj2 (formatDescription_shape
                           (js "First paragraph.\n\nSecond paragraph.")))).
    + intros Heq. vm_compute in Heq. discriminate Heq.
    + intros Heq. vm_compute in Heq. discriminate Heq.
Defined.

(** ** The command name *)

(** X15: the command name is empty exactly when the input is blank, and it
    never holds a space: everything from the first space of the normalized
    input on is dropped. *)
Theorem commandOf_empty_iff `{Host} (input : jsstring) :
  (commandOf input = js "" <-> trim input = js "")
  /\ noSpace (commandOf input).
Proof.
  split; [split|].
  - intros E. destruct (trim input) as [|c r] eqn:Et; [reflexivity|].
    exfalso. apply (commandOf_nonblank input); [|exact E].
    rewrite Et. discriminate.
  - apply commandOf_blank.
  - unfold commandOf.
    pose proof (split_space_pieces (toLowerCase (trim input))) as Hp.
    destruct (split (js " ") (toLowerCase (trim input))) as [|p ps].
    + reflexivity.
    + inversion Hp; subst. assumption.
Qed.

(** ** The name of the downloaded file *)

Lemma replace_first_space (first rest : jsstring) :
  noSpace first ->
  replace (js " ") (js "_") (first ++ 32%N :: rest) = first ++ 95%N :: rest.
Proof.
  intros Hf. unfold replace.
  assert (E : replace_go (js " ") (js "_") (first ++ 32%N :: rest)
              = Some (first ++ 95%N :: rest)).
  { change (js " ") with [32%N]. change (js "_") with [95%N].
    unfold noSpace in Hf. induction first as [|c first IH]; [reflexivity|].
    simpl in Hf. apply andb_prop in Hf. destruct Hf as [Hc Hf].
    apply negb_true_iff in Hc. rewrite N.eqb_sym in Hc.
    cbn [app replace_go startsWith]. rewrite Hc. cbn [andb].
    rewrite (IH Hf). reflexivity. }
  rewrite E. reflexivity.
Qed.

Lemma replace_noSpace (name : jsstring) :
  noSpace name -> replace (js " ") (js "_") name = name.
Proof.
  intros Hn. unfold replace.
  assert (E : replace_go (js " ") (js "_") name = None).
  { change (js " ") with [32%N]. change (js "_") with [95%N].
    unfold noSpace in Hn. induction name as [|c name IH]; [reflexivity|].
    simpl in Hn. apply andb_prop in Hn. destruct Hn as [Hc Hn].
    apply negb_true_iff in Hc. rewrite N.eqb_sym in Hc.
    cbn [replace_go startsWith]. rewrite Hc. cbn [andb].
    rewrite (IH Hn). reflexivity. }
  rewrite E. reflexivity.
Qed.

(** X16: the file name announced by [download] is the name of the data
    file with its first space, and only the first, turned into an
    underscore, followed by [_Resume.pdf]; a name without a space is used
    as it is. *)
Theorem download_file_name (data : PortfolioData) :
  (forall first rest : jsstring,
     data.(personal).(Personal.name) = first ++ 32%N :: rest ->
     noSpace first ->
     exists label,
       nth_error (downloadOutput data) 2
       = Some (label ++ first ++ js "_" ++ rest ++ js "_Resume.pdf"))
  /\ (noSpace data.(personal).(Personal.name) ->
      exists label,
        nth_error (downloadOutput data) 2
        = Some (label ++ data.(personal).(Personal.name) ++ js "_Resume.pdf"))
  /\ List.length (downloadOutput data) = 6.
Proof.
  unfold downloadOutput. cbn [nth_error]. split; [|split].
  - intros first rest Hname Hf. rewrite Hname, (replace_first_space rest Hf).
    eexists. rewrite <- app_assoc. reflexivity.
  - intros Hn. rewrite (replace_noSpace Hn). eexists. reflexivity.
  - reflexivity.
Qed.

Lemma download_file_name_witness :
  (exists label,
     nth_error (downloadOutput sampleData) 2
     = Some (label ++ js "Ada" ++ js "_" ++ js "Lovelace" ++ js "_Resume.pdf"))
  /\ exists label,
       nth_error (downloadOutput
                    {| personal :=
                         {| Personal.name := js "Ada Byron Lovelace";
                            Personal.title := js "";
                            Personal.username := js "ada";
                            Personal.website := js "";
                            Personal.location := js "";
                            Personal.resumeUrl := js "" |};
                       about := []; skills := []; projects := [];
                       education := sampleData.(education);
                       contact := sampleData.(contact); files := [];
                       system := sampleData.(system) |}) 2
       = Some (label ++ js "Ada" ++ js "_" ++ js "Byron Lovelace"
               ++ js "_Resume.pdf").
Proof.
  split.
  - apply (proj1 (download_file_name sampleData) (js "Ada") (js "Lovelace"));
      reflexivity.
  - apply (proj1 (download_file_name _) (js "Ada") (js "Byron Lovelace"));
      reflexivity.
Defined.
